(** * FileDrive backend: a shallow embedding of the file service and of the
      connection manager, with the properties of its specification.

    Sources embedded here:
    - [app/services/file_service.py]  (class [FileService])
    - [app/database/connection.py]    (class [DatabaseManager])
    - [app/config/settings.py]        (class [Settings], computed properties)
    - [app/application.py]            (the [/health] endpoint)
    - [app/config/validators.py]      (class [SettingsValidators])

    Modelling conventions.
    - A Python [str] is a list of characters ([list ascii], so the
      code points below 256); a [bytes] value is a [list byte]; a
      Python [int] is a [Z]; the one [float], the retry delay, is a
      rational, which is exact for the products with powers of two
      that the program forms from settings within their declared
      bounds.
    - The two external stores are explicit state: the MongoDB [files]
      collection is a list of documents in insertion order, the MinIO
      bucket named by [settings.minio_bucket], the only one the program
      reads or writes, is a finite map from object names to stored
      objects.
    - A coroutine is run to completion before the next one starts; every
      [await] is an ordinary sequencing point.
    - What the program cannot decide by itself (whether a store call
      raises, the random bytes of [uuid4], the clock) is read from an
      environment record passed to each operation. *)

From stdpp Require Import gmap strings list.
From Stdlib Require Import ZArith QArith Ascii String.
Open Scope Z_scope.

(** ** Python strings *)

Module PyStr.

Definition str := list ascii.

Coercion list_ascii_of_string : string >-> list.

(** [len(s)] *)
Definition len (s : str) : Z := Z.of_nat (List.length s).

(** The clamping Python applies to one bound of a slice over a
    sequence of length [n]: a negative bound counts from the end. *)
Definition clamp (n i : Z) : nat :=
  Z.to_nat (if i <? 0 then Z.max 0 (n + i) else Z.min i n).

(** [s[i:]] *)
Definition slice_from (i : Z) (s : str) : str := drop (clamp (len s) i) s.

(** [s[:k]] *)
Definition slice_to (k : Z) (s : str) : str := take (clamp (len s) k) s.

Fixpoint rfind_from (c : ascii) (s : str) (i acc : Z) : Z :=
  match s with
  | [] => acc
  | x :: r => rfind_from c r (i + 1) (if bool_decide (x = c) then i else acc)
  end.

(** [s.rfind(c)] for a one-character [c]: the highest index of [c],
    or [-1]. *)
Definition rfind (c : ascii) (s : str) : Z := rfind_from c s 0 (-1).

(** [s.replace(old, new)] for one-character [old] and [new]. *)
Definition replace (old new : ascii) (s : str) : str :=
  (fun x => if bool_decide (x = old) then new else x) <$> s.

Fixpoint is_prefix (p s : str) : bool :=
  match p, s with
  | [], _ => true
  | _ :: _, [] => false
  | a :: p', b :: s' => bool_decide (a = b) && is_prefix p' s'
  end.

(** [s.startswith(p)] *)
Definition startswith (s p : str) : bool := is_prefix p s.

(** [s.endswith(p)] *)
Definition endswith (s p : str) : bool := is_prefix (reverse p) (reverse s).

Fixpoint split_acc (sep : ascii) (s cur : str) : list str :=
  match s with
  | [] => [reverse cur]
  | x :: r =>
      if bool_decide (x = sep) then reverse cur :: split_acc sep r []
      else split_acc sep r (x :: cur)
  end.

(** [s.split(sep)] for a one-character separator. *)
Definition split (sep : ascii) (s : str) : list str := split_acc sep s [].

(** The characters below 256 for which [str.isspace] holds. *)
Definition is_space (c : ascii) : bool :=
  let n := N_of_ascii c in
  ((9 <=? n) && (n <=? 13) || (28 <=? n) && (n <=? 32)
   || (n =? 133) || (n =? 160))%N.

Fixpoint lstrip (s : str) : str :=
  match s with
  | x :: r => if is_space x then lstrip r else s
  | [] => []
  end.

(** [s.strip()] *)
Definition strip (s : str) : str := reverse (lstrip (reverse (lstrip s))).

(** Python truthiness of a string. *)
Definition truthy (s : str) : bool :=
  match s with [] => false | _ => true end.

End PyStr.
Import PyStr.

(** ** [os.path] on a POSIX host *)

Module posixpath.

(** [basename(p)]: [i = p.rfind('/') + 1; return p[i:]] *)
Definition basename (p : str) : str :=
  let i := rfind "/" p + 1 in
  slice_from i p.

(** The [while] loop of [genericpath._splitext]: it leaves the loop
    with [true] at the first index in [filenameIndex, dotIndex) that
    does not hold a dot.  [n] is the number of indices left. *)
Fixpoint has_stem (p : str) (filenameIndex : Z) (n : nat) : bool :=
  match n with
  | O => false
  | S n' =>
      if bool_decide (p !! Z.to_nat filenameIndex = Some "."%char)
      then has_stem p (filenameIndex + 1) n'
      else true
  end.

(** [splitext(p)] *)
Definition splitext (p : str) : str * str :=
  let sepIndex := rfind "/" p in
  let dotIndex := rfind "." p in
  if (sepIndex <? dotIndex)
     && has_stem p (sepIndex + 1) (Z.to_nat (dotIndex - (sepIndex + 1)))
  then (slice_to dotIndex p, slice_from dotIndex p)
  else (p, slice_to 0 p).

End posixpath.

(** ** [FileService._sanitize_filename] *)

(** The double quote, character 34. *)
Abbreviation double_quote := (Ascii false true false false false true false false).

Definition dangerous_chars : list ascii :=
  ["<"; ">"; ":"; double_quote; "|"; "?"; "*"; "\"; "/"]%char.

Definition _sanitize_filename (filename : str) : str :=
  if negb (truthy filename) then "unnamed_file"%string : str
  else
    let filename := posixpath.basename filename in
    let filename :=
      foldl (fun fn char => replace char "_" fn) filename dangerous_chars in
    if 255 <? len filename then
      let '(name, ext) := posixpath.splitext filename in
      slice_to (255 - len ext) name ++ ext
    else filename.


(** ** Settings ([app/config/settings.py]) *)

Record Settings := {
  max_file_size : Z;
  allowed_file_types : str;
  minio_bucket : str;
  db_max_retries : Z;
  db_retry_delay : Q
}.

(** [Settings.allowed_file_types_list] *)
Definition allowed_file_types_list (settings : Settings) : list str :=
  if bool_decide (allowed_file_types settings = ("*/*"%string : str))
  then [("*/*"%string : str)]
  else
    omap (fun ft => if truthy (strip ft) then Some (strip ft) else None)
         (split "," (allowed_file_types settings)).

(** ** Exceptions *)

(** The [detail] of an [HTTPException].  The two messages that format
    numbers or a list keep their arguments instead of the rendered
    text. *)
Inductive detail :=
  | Msg (s : str)
  | FileSizeExceeds (file_size maximum : Z)
  | FileTypeNotAllowed (content_type : str) (allowed : list str).

Inductive exn :=
  | HTTPException (status_code : Z) (d : detail)
  | S3Error (code message : str)
  | DatabaseConnectionError (message : str)
  | Exception (message : str).

(** [str(e)] *)
Definition exn_str (e : exn) : str :=
  match e with
  | HTTPException _ (Msg s) => s
  | HTTPException _ _ => []
  | S3Error _ m => m
  | DatabaseConnectionError m => m
  | Exception m => m
  end.

Inductive outcome (A : Type) :=
  | Return (a : A)
  | Raise (e : exn).
Arguments Return {A} a.
Arguments Raise {A} e.

(** ** Documents, objects and uploads *)

Definition bytes := list Byte.byte.

Module Doc.
(** One document of the [files] collection.  [_id] is [None] in a
    dictionary that was not inserted yet. *)
Record t := {
  _id : option str;
  file_id : str;
  name : str;
  size : Z;
  content_type : option str;
  upload_date : Z;
  extension : str
}.

(** [{"$set": {"name": n}}] applied to a document. *)
Definition set_name (n : str) (d : t) : t :=
  {| _id := _id d; file_id := file_id d; name := n; size := size d;
     content_type := content_type d; upload_date := upload_date d;
     extension := extension d |}.
End Doc.

Module Obj.
(** One object of the bucket. *)
Record t := { data : bytes; content_type : option str }.
End Obj.

Module UploadFile.
(** A [fastapi.UploadFile]: [read] is what [await file.read()] gives. *)
Record t := {
  filename : option str;
  content_type : option str;
  read : outcome bytes
}.
End UploadFile.

(** ** The connection manager's state and the two stores *)

Inductive client_handle := Client.

Record DatabaseManager := {
  _mongodb_client : option client_handle;
  _minio_client : option client_handle;
  _database : option client_handle;
  _files_collection : option client_handle;
  _mongodb_connected : bool;
  _minio_connected : bool
}.

(** [DatabaseManager.__init__] *)
Definition DatabaseManager_init : DatabaseManager :=
  {| _mongodb_client := None; _minio_client := None; _database := None;
     _files_collection := None; _mongodb_connected := false;
     _minio_connected := false |}.

Inductive store := MongoDB | MinIO.

(** What the process asks of the outside, in the order it asks.
    [EvConnecting] is the log line that opens every call of
    [connect_to_mongodb] and of [connect_to_minio]; [EvSleep] is a call
    of [asyncio.sleep] or [time.sleep]; the others are calls to a store. *)
Inductive event :=
  | EvConnecting (s : store)
  | EvPing
  | EvFindOne (file_id : str)
  | EvFind
  | EvInsertOne (file_id : str)
  | EvUpdateOne (file_id name : str)
  | EvDeleteOne (file_id : str)
  | EvListBuckets
  | EvMakeBucket (bucket : str)
  | EvPutObject (bucket_name object_name : str) (data : bytes)
  | EvGetObject (bucket_name object_name : str)
  | EvRemoveObject (bucket_name object_name : str)
  | EvSleep (delay : Q).

Record World := {
  db_manager : DatabaseManager;
  files : list Doc.t;
  bucket : gmap str Obj.t;
  trace : list event
}.

Definition with_manager (m : DatabaseManager) (w : World) : World :=
  {| db_manager := m; files := files w; bucket := bucket w; trace := trace w |}.
Definition with_files (fs : list Doc.t) (w : World) : World :=
  {| db_manager := db_manager w; files := fs; bucket := bucket w; trace := trace w |}.
Definition with_bucket (b : gmap str Obj.t) (w : World) : World :=
  {| db_manager := db_manager w; files := files w; bucket := b; trace := trace w |}.
Definition with_trace (t : list event) (w : World) : World :=
  {| db_manager := db_manager w; files := files w; bucket := bucket w; trace := t |}.

(** What one operation reads from outside the program: for each store
    call whether it raises, and the values of [os.urandom(16)],
    [datetime.utcnow()] and the [ObjectId] the driver generates. *)
Record Env := {
  motor_client_raises : option exn;
  ping_raises : option exn;
  find_one_raises : option exn;
  find_raises : option exn;
  insert_one_raises : option exn;
  update_one_raises : option exn;
  delete_one_raises : option exn;
  minio_raises : option exn;
  list_buckets_result : outcome (list str);
  make_bucket_raises : option exn;
  put_object_raises : option exn;
  get_object_raises : option exn;
  remove_object_raises : option exn;
  urandom16 : N;
  utcnow : Z;
  inserted_id : str
}.

(** ** Computations over the world that may raise *)

Definition M (A : Type) : Type := World -> outcome A * World.

Definition ret {A} (a : A) : M A := fun w => (Return a, w).
Definition raise {A} (e : exn) : M A := fun w => (Raise e, w).
Definition bind {A B} (m : M A) (k : A -> M B) : M B :=
  fun w => match m w with
           | (Return a, w') => k a w'
           | (Raise e, w') => (Raise e, w')
           end.
(** [try: m  except Exception as e: h e] *)
Definition try_except {A} (m : M A) (h : exn -> M A) : M A :=
  fun w => match m w with
           | (Return a, w') => (Return a, w')
           | (Raise e, w') => h e w'
           end.

Declare Scope py_scope.
Delimit Scope py_scope with py.
Notation "x <- m ;; k" := (bind m (fun x => k))
  (at level 20, m at level 99, k at level 200) : py_scope.
Notation "m ;; k" := (bind m (fun _ => k))
  (at level 100, k at level 200, right associativity) : py_scope.
Open Scope py_scope.

Definition emit (e : event) : M unit :=
  fun w => (Return tt, with_trace (trace w ++ [e]) w).

(** A call that either raises what the environment says or goes on. *)
Definition may_raise (r : option exn) : M unit :=
  match r with
  | Some e => raise e
  | None => ret tt
  end.

Definition get_manager : M DatabaseManager :=
  fun w => (Return (db_manager w), w).
Definition modify_manager (f : DatabaseManager -> DatabaseManager) : M unit :=
  fun w => (Return tt, with_manager (f (db_manager w)) w).
Definition get_files : M (list Doc.t) :=
  fun w => (Return (files w), w).
Definition set_files (fs : list Doc.t) : M unit :=
  fun w => (Return tt, with_files fs w).
Definition get_bucket : M (gmap str Obj.t) :=
  fun w => (Return (bucket w), w).
Definition set_bucket (b : gmap str Obj.t) : M unit :=
  fun w => (Return tt, with_bucket b w).

(** [x or ""] for an optional string. *)
Definition or_empty (x : option str) : str := default [] x.

(** [x or y] for an optional [int] and for an optional [float]: [None]
    and zero are falsy. *)
Definition or_int (x : option Z) (y : Z) : Z :=
  match x with
  | Some n => if bool_decide (n = 0) then y else n
  | None => y
  end.

Definition or_float (x : option Q) (y : Q) : Q :=
  match x with
  | Some d => if Qeq_bool d 0 then y else d
  | None => y
  end.

(** ** The store clients (motor and minio), as far as the program uses them *)

Definition has_file_id (fid : str) (d : Doc.t) : bool :=
  bool_decide (Doc.file_id d = fid).

(** The first document matching [{"file_id": fid}] is the one
    [update_one] and [delete_one] act on. *)
Fixpoint update_first (fid : str) (f : Doc.t -> Doc.t) (l : list Doc.t) : list Doc.t :=
  match l with
  | [] => []
  | d :: r => if has_file_id fid d then f d :: r else d :: update_first fid f r
  end.

Fixpoint remove_first (fid : str) (l : list Doc.t) : list Doc.t :=
  match l with
  | [] => []
  | d :: r => if has_file_id fid d then r else d :: remove_first fid r
  end.

Definition with_id (i : str) (d : Doc.t) : Doc.t :=
  {| Doc._id := Some i; Doc.file_id := Doc.file_id d; Doc.name := Doc.name d;
     Doc.size := Doc.size d; Doc.content_type := Doc.content_type d;
     Doc.upload_date := Doc.upload_date d; Doc.extension := Doc.extension d |}.

(** The collection is held as the list of its documents, in the order
    of their insertion and as they were inserted.  The order in which
    a server answers an unsorted query and the precision to which it
    keeps a date are its own, and are not modelled. *)
Module collection.

Definition find_one (env : Env) (fid : str) : M (option Doc.t) :=
  emit (EvFindOne fid) ;;
  may_raise (find_one_raises env) ;;
  fs <- get_files ;;
  ret (List.find (has_file_id fid) fs).

Definition find (env : Env) : M (list Doc.t) :=
  emit EvFind ;;
  may_raise (find_raises env) ;;
  get_files.

Definition insert_one (env : Env) (d : Doc.t) : M str :=
  emit (EvInsertOne (Doc.file_id d)) ;;
  may_raise (insert_one_raises env) ;;
  fs <- get_files ;;
  set_files (fs ++ [with_id (inserted_id env) d]) ;;
  ret (inserted_id env).

Definition update_one (env : Env) (fid : str) (new_name : str) : M unit :=
  emit (EvUpdateOne fid new_name) ;;
  may_raise (update_one_raises env) ;;
  fs <- get_files ;;
  set_files (update_first fid (Doc.set_name new_name) fs).

Definition delete_one (env : Env) (fid : str) : M unit :=
  emit (EvDeleteOne fid) ;;
  may_raise (delete_one_raises env) ;;
  fs <- get_files ;;
  set_files (remove_first fid fs).

End collection.

Module minio.

Definition list_buckets (env : Env) : M (list str) :=
  emit EvListBuckets ;;
  match list_buckets_result env with
  | Return names => ret names
  | Raise e => raise e
  end.

Definition make_bucket (env : Env) (b : str) : M unit :=
  emit (EvMakeBucket b) ;;
  may_raise (make_bucket_raises env).

Definition put_object (env : Env) (bucket_name object_name : str)
    (data : bytes) (content_type : option str) : M unit :=
  emit (EvPutObject bucket_name object_name data) ;;
  may_raise (put_object_raises env) ;;
  b <- get_bucket ;;
  set_bucket (<[object_name := {| Obj.data := data; Obj.content_type := content_type |}]> b).

(** [get_object(...)] followed by [read()] and [close()]. *)
Definition get_object (env : Env) (bucket_name object_name : str) : M bytes :=
  emit (EvGetObject bucket_name object_name) ;;
  may_raise (get_object_raises env) ;;
  b <- get_bucket ;;
  match b !! object_name with
  | Some o => ret (Obj.data o)
  | None => raise (S3Error ("NoSuchKey"%string : str) ("Object does not exist"%string : str))
  end.

Definition remove_object (env : Env) (bucket_name object_name : str) : M unit :=
  emit (EvRemoveObject bucket_name object_name) ;;
  may_raise (remove_object_raises env) ;;
  b <- get_bucket ;;
  set_bucket (delete object_name b).

End minio.

(** ** [uuid.uuid4] and [str(UUID)] *)

Definition uuid4 (random : N) : N :=
  let int := (random mod 2 ^ 128)%N in
  let int := N.ldiff int (N.shiftl 0xc000 48) in
  let int := N.lor int (N.shiftl 0x8000 48) in
  let int := N.ldiff int (N.shiftl 0xf000 64) in
  N.lor int (N.shiftl 4 76).

Definition hex_digit (n : N) : ascii :=
  if (n <? 10)%N then ascii_of_N (48 + n) else ascii_of_N (87 + n).

(** ['%0wx' % n] for [n < 16^w] *)
Fixpoint hex_fixed (w : nat) (n : N) : str :=
  match w with
  | O => []
  | S w' => hex_fixed w' (n / 16)%N ++ [hex_digit (n mod 16)%N]
  end.

Definition uuid_str (u : N) : str :=
  let hex := hex_fixed 32 u in
  take 8 hex ++ "-"%char :: take 4 (drop 8 hex) ++ "-"%char :: take 4 (drop 12 hex)
    ++ "-"%char :: take 4 (drop 16 hex) ++ "-"%char :: drop 20 hex.

(** ** Results of the health check and of the startup connection *)

Module Health.
Record service := {
  connected : bool;
  status : str;
  error : option str
}.
Record overall_t := {
  healthy : bool;
  overall_status : str
}.
Record t := {
  mongodb : service;
  minio : service;
  overall : overall_t
}.
End Health.

Module HealthResponse.
(** The JSON response of [/health]; the [timestamp] and [version]
    entries of the body, which nothing below reads, are left out. *)
Record t := {
  status_code : Z;
  status : str;
  services : option (str * str);
  error : option str
}.
End HealthResponse.

Module ConnResult.
Record t := {
  success : bool;
  attempts : Z;
  error : option str
}.
End ConnResult.

Section Backend.

Variable settings : Settings.

(** ** [DatabaseManager] ([app/database/connection.py]) *)

Definition _cleanup_mongodb : M unit :=
  modify_manager (fun m =>
    {| _mongodb_client := None; _minio_client := _minio_client m;
       _database := None; _files_collection := None;
       _mongodb_connected := false; _minio_connected := _minio_connected m |}).

Definition _cleanup_minio : M unit :=
  modify_manager (fun m =>
    {| _mongodb_client := _mongodb_client m; _minio_client := None;
       _database := _database m; _files_collection := _files_collection m;
       _mongodb_connected := _mongodb_connected m; _minio_connected := false |}).

Definition connect_to_mongodb (env : Env) : M bool :=
  try_except
    (emit (EvConnecting MongoDB) ;;
     may_raise (motor_client_raises env) ;;
     modify_manager (fun m =>
       {| _mongodb_client := Some Client; _minio_client := _minio_client m;
          _database := _database m; _files_collection := _files_collection m;
          _mongodb_connected := _mongodb_connected m;
          _minio_connected := _minio_connected m |}) ;;
     emit EvPing ;;
     may_raise (ping_raises env) ;;
     modify_manager (fun m =>
       {| _mongodb_client := _mongodb_client m; _minio_client := _minio_client m;
          _database := Some Client; _files_collection := Some Client;
          _mongodb_connected := true;
          _minio_connected := _minio_connected m |}) ;;
     ret true)
    (fun _ => _cleanup_mongodb ;; ret false).

Definition _ensure_minio_bucket_exists (env : Env) : M unit :=
  try_except
    (m <- get_manager ;;
     match _minio_client m with
     | None => raise (Exception ("'NoneType' object has no attribute 'list_buckets'"%string : str))
     | Some _ =>
         bucket_names <- minio.list_buckets env ;;
         if bool_decide (minio_bucket settings ∈ bucket_names) then ret tt
         else minio.make_bucket env (minio_bucket settings)
     end)
    (fun e =>
       match e with
       | S3Error code _ =>
           if bool_decide (code = ("BucketAlreadyOwnedByYou"%string : str)) then ret tt
           else raise (DatabaseConnectionError
                         (("Failed to ensure MinIO bucket exists: "%string : str) ++ exn_str e))
       | _ => raise e
       end).

Definition connect_to_minio (env : Env) : M bool :=
  try_except
    (emit (EvConnecting MinIO) ;;
     may_raise (minio_raises env) ;;
     modify_manager (fun m =>
       {| _mongodb_client := _mongodb_client m; _minio_client := Some Client;
          _database := _database m; _files_collection := _files_collection m;
          _mongodb_connected := _mongodb_connected m;
          _minio_connected := _minio_connected m |}) ;;
     _ensure_minio_bucket_exists env ;;
     modify_manager (fun m =>
       {| _mongodb_client := _mongodb_client m; _minio_client := _minio_client m;
          _database := _database m; _files_collection := _files_collection m;
          _mongodb_connected := _mongodb_connected m;
          _minio_connected := true |}) ;;
     ret true)
    (fun _ => _cleanup_minio ;; ret false).

Definition disconnected : Health.service :=
  {| Health.connected := false;
     Health.status := ("disconnected"%string : str);
     Health.error := None |}.

Definition health_check (env : Env) : M Health.t :=
  m <- get_manager ;;
  mongodb <-
    (if _mongodb_connected m && bool_decide (_mongodb_client m <> None) then
       try_except
         (emit EvPing ;;
          may_raise (ping_raises env) ;;
          ret {| Health.connected := true;
                 Health.status := ("healthy"%string : str);
                 Health.error := None |})
         (fun e =>
            _cleanup_mongodb ;;
            ret {| Health.connected := false;
                   Health.status := ("disconnected"%string : str);
                   Health.error := Some (exn_str e) |})
     else ret disconnected) ;;
  m <- get_manager ;;
  minio <-
    (if _minio_connected m && bool_decide (_minio_client m <> None) then
       try_except
         (minio.list_buckets env ;;
          ret {| Health.connected := true;
                 Health.status := ("healthy"%string : str);
                 Health.error := None |})
         (fun e =>
            _cleanup_minio ;;
            ret {| Health.connected := false;
                   Health.status := ("disconnected"%string : str);
                   Health.error := Some (exn_str e) |})
     else ret disconnected) ;;
  let overall_healthy := Health.connected mongodb || Health.connected minio in
  ret {| Health.mongodb := mongodb;
         Health.minio := minio;
         Health.overall :=
           {| Health.healthy := overall_healthy;
              Health.overall_status :=
                if overall_healthy then ("healthy"%string : str)
                else ("unhealthy"%string : str) |} |}.

(** One of the two [for attempt in range(max_retries)] loops of
    [connect_with_retry].  The two loops differ only in the connect
    method they call, which is the parameter [connect]; [attempt] is
    the loop variable and [remaining] the number of iterations left.

    The delay is held as a rational and the sleep is an event that
    always returns.  That is what the code does as long as the power
    of two converts to a float and the sleep accepts the product,
    which is so for the values that [Settings] admits for
    [db_max_retries] and [db_retry_delay]; beyond them (an exponent of
    1024 or more, a negative delay handed to [time.sleep]) the code
    raises from the line that computes or sleeps the delay, outside
    the [try], and the model does not follow it there. *)
Fixpoint retry_loop (connect : Env -> M bool) (envs : nat -> Env)
    (initial_delay : Q) (attempt : nat) (remaining : nat)
    (result : ConnResult.t) : M ConnResult.t :=
  match remaining with
  | O => ret result
  | S remaining' =>
      let result :=
        {| ConnResult.success := ConnResult.success result;
           ConnResult.attempts := Z.of_nat attempt + 1;
           ConnResult.error := ConnResult.error result |} in
      (if 0 <? Z.of_nat attempt then
         emit (EvSleep (initial_delay * inject_Z (2 ^ (Z.of_nat attempt - 1))))
       else ret tt) ;;
      r <- try_except
             (ok <- connect (envs attempt) ;; ret (inl ok))
             (fun e => ret (inr (exn_str e))) ;;
      match r with
      | inl true =>
          ret {| ConnResult.success := true;
                 ConnResult.attempts := ConnResult.attempts result;
                 ConnResult.error := ConnResult.error result |}
      | inl false =>
          retry_loop connect envs initial_delay (S attempt) remaining' result
      | inr msg =>
          retry_loop connect envs initial_delay (S attempt) remaining'
            {| ConnResult.success := ConnResult.success result;
               ConnResult.attempts := ConnResult.attempts result;
               ConnResult.error := Some msg |}
      end
  end.

Definition no_result : ConnResult.t :=
  {| ConnResult.success := false; ConnResult.attempts := 0;
     ConnResult.error := None |}.

(** [connect_with_retry]: [mongodb_envs k] and [minio_envs k] are the
    environments of the attempt with loop variable [k]. *)
Definition connect_with_retry (mongodb_envs minio_envs : nat -> Env)
    (max_retries : option Z) (initial_delay : option Q)
    : M (ConnResult.t * ConnResult.t) :=
  let max_retries := or_int max_retries (db_max_retries settings) in
  let initial_delay := or_float initial_delay (db_retry_delay settings) in
  mongodb <- retry_loop connect_to_mongodb mongodb_envs initial_delay
               0 (Z.to_nat max_retries) no_result ;;
  minio <- retry_loop connect_to_minio minio_envs initial_delay
             0 (Z.to_nat max_retries) no_result ;;
  ret (mongodb, minio).

(** The property getters. *)
Definition minio_client : M client_handle :=
  m <- get_manager ;;
  match _minio_connected m, _minio_client m with
  | true, Some c => ret c
  | _, _ => raise (DatabaseConnectionError ("MinIO is not connected"%string : str))
  end.

Definition files_collection : M client_handle :=
  m <- get_manager ;;
  match _mongodb_connected m, _files_collection m with
  | true, Some c => ret c
  | _, _ => raise (DatabaseConnectionError ("MongoDB is not connected"%string : str))
  end.

(** ** The [/health] endpoint ([app/application.py]) *)

Definition health_endpoint (env : Env) : M HealthResponse.t :=
  try_except
    (db_status <- health_check env ;;
     let healthy := Health.healthy (Health.overall db_status) in
     ret {| HealthResponse.status_code := if healthy then 200 else 503;
            HealthResponse.status :=
              if healthy then ("healthy"%string : str)
              else ("degraded"%string : str);
            HealthResponse.services :=
              Some (Health.status (Health.mongodb db_status),
                    Health.status (Health.minio db_status));
            HealthResponse.error := None |})
    (fun e =>
       ret {| HealthResponse.status_code := 503;
              HealthResponse.status := ("unhealthy"%string : str);
              HealthResponse.services := None;
              HealthResponse.error := Some (exn_str e) |}).

(** ** [FileService] ([app/services/file_service.py]) *)

Definition _validate_file_size (file_size : Z) : M unit :=
  if max_file_size settings <? file_size then
    raise (HTTPException 413 (FileSizeExceeds file_size (max_file_size settings)))
  else ret tt.

(** The [for allowed_type in ...] loop of [_validate_file_type]; its
    value is [is_allowed] when the loop is left. *)
Fixpoint is_allowed (content_type : str) (allowed_types : list str) : bool :=
  match allowed_types with
  | [] => false
  | allowed_type :: rest =>
      if endswith allowed_type ("/*"%string : str) then
        let base_type := hd [] (split "/" allowed_type) in
        if startswith content_type (base_type ++ ("/"%string : str)) then true
        else is_allowed content_type rest
      else if bool_decide (content_type = allowed_type) then true
      else is_allowed content_type rest
  end.

Definition _validate_file_type (content_type : str) : M unit :=
  if negb (truthy content_type) then
    raise (HTTPException 400 (Msg ("File content type is required"%string : str)))
  else if negb (is_allowed content_type (allowed_file_types_list settings)) then
    raise (HTTPException 400
             (FileTypeNotAllowed content_type (allowed_file_types_list settings)))
  else ret tt.

Definition list_files (env : Env) : M (list Doc.t) :=
  try_except
    (files_collection ;;
     collection.find env)
    (fun _ => raise (HTTPException 500 (Msg ("Failed to list files"%string : str)))).

Definition get_file_by_id (env : Env) (file_id : str) : M (option Doc.t) :=
  if negb (truthy file_id) then
    raise (HTTPException 400 (Msg ("File ID is required"%string : str)))
  else
    try_except
      (files_collection ;;
       collection.find_one env file_id)
      (fun _ => raise (HTTPException 500 (Msg ("Failed to get file"%string : str)))).

Definition upload_file (env : Env) (file : UploadFile.t) : M Doc.t :=
  if negb (truthy (or_empty (UploadFile.filename file))) then
    raise (HTTPException 400 (Msg ("No file provided"%string : str)))
  else
    let filename := or_empty (UploadFile.filename file) in
    _validate_file_type (or_empty (UploadFile.content_type file)) ;;
    file_content <-
      try_except
        (match UploadFile.read file with
         | Return content => ret content
         | Raise e => raise e
         end)
        (fun _ => raise (HTTPException 400 (Msg ("Failed to read file"%string : str)))) ;;
    _validate_file_size (Z.of_nat (List.length file_content)) ;;
    let sanitized_filename := _sanitize_filename filename in
    let file_id := uuid_str (uuid4 (urandom16 env)) in
    let file_extension := snd (posixpath.splitext sanitized_filename) in
    try_except
      (minio_client ;;
       minio.put_object env (minio_bucket settings) file_id file_content
         (UploadFile.content_type file) ;;
       let file_data :=
         {| Doc._id := None;
            Doc.file_id := file_id;
            Doc.name := sanitized_filename;
            Doc.size := Z.of_nat (List.length file_content);
            Doc.content_type := UploadFile.content_type file;
            Doc.upload_date := utcnow env;
            Doc.extension := file_extension |} in
       files_collection ;;
       inserted <- collection.insert_one env file_data ;;
       ret (with_id inserted file_data))
      (fun e =>
         match e with
         | S3Error _ _ =>
             raise (HTTPException 500
                      (Msg (("Storage error: "%string : str) ++ exn_str e)))
         | _ =>
             raise (HTTPException 500
                      (Msg (("Upload failed: "%string : str) ++ exn_str e)))
         end).

Definition download_file (env : Env) (file_id : str) : M (bytes * Doc.t) :=
  if negb (truthy file_id) then
    raise (HTTPException 400 (Msg ("File ID is required"%string : str)))
  else
    file_doc <- get_file_by_id env file_id ;;
    match file_doc with
    | None => raise (HTTPException 404 (Msg ("File not found"%string : str)))
    | Some file_doc =>
        try_except
          (minio_client ;;
           file_content <- minio.get_object env (minio_bucket settings) file_id ;;
           ret (file_content, file_doc))
          (fun e =>
             raise (HTTPException 500
                      (Msg (("Download failed: "%string : str) ++ exn_str e))))
    end.

Definition update_file_name (env : Env) (file_id new_name : str) : M str :=
  if negb (truthy file_id) then
    raise (HTTPException 400 (Msg ("File ID is required"%string : str)))
  else if negb (truthy new_name) then
    raise (HTTPException 400 (Msg ("New file name is required"%string : str)))
  else
    let sanitized_name := _sanitize_filename new_name in
    file_doc <- get_file_by_id env file_id ;;
    match file_doc with
    | None => raise (HTTPException 404 (Msg ("File not found"%string : str)))
    | Some _ =>
        try_except
          (files_collection ;;
           collection.update_one env file_id sanitized_name ;;
           ret ("File name updated successfully"%string : str))
          (fun _ =>
             raise (HTTPException 500 (Msg ("Failed to update file name"%string : str))))
    end.

Definition delete_file (env : Env) (file_id : str) : M str :=
  if negb (truthy file_id) then
    raise (HTTPException 400 (Msg ("File ID is required"%string : str)))
  else
    file_doc <- get_file_by_id env file_id ;;
    match file_doc with
    | None => raise (HTTPException 404 (Msg ("File not found"%string : str)))
    | Some _ =>
        try_except
          (minio_client ;;
           minio.remove_object env (minio_bucket settings) file_id ;;
           files_collection ;;
           collection.delete_one env file_id ;;
           ret ("File deleted successfully"%string : str))
          (fun e =>
             match e with
             | S3Error _ _ =>
                 raise (HTTPException 500
                          (Msg (("Storage error: "%string : str) ++ exn_str e)))
             | _ =>
                 raise (HTTPException 500
                          (Msg (("Delete failed: "%string : str) ++ exn_str e)))
             end)
    end.

End Backend.

(** * Definitions used to state the properties *)

(** ** The rule of the allow-list *)

(** The base type of an allow-list entry, as the validator takes it:
    what precedes its first slash. *)
Fixpoint base_type_of (entry : str) : str :=
  match entry with
  | [] => []
  | x :: r => if bool_decide (x = "/"%char) then [] else x :: base_type_of r
  end.

(** The rule that the validator applies to one entry of the
    allow-list: the content type equals the entry, or the entry ends
    with a slash and an asterisk and the content type starts with the
    base type of the entry followed by a slash. *)
Definition entry_allows (content_type entry : str) : Prop :=
  content_type = entry \/
  ((exists pre, entry = pre ++ ("/*"%string : str)) /\
   exists rest, content_type = base_type_of entry ++ "/"%char :: rest).

(** The rule for the whole allow-list. *)
Definition type_allowed (content_type : str) (allowed_types : list str) : Prop :=
  exists entry, entry ∈ allowed_types /\ entry_allows content_type entry.

(** The rule in the words of the specification: the content type
    equals the entry, or the entry has the form [type/*] and the
    content type starts with that [type] followed by a slash.  Here
    [type] is all of the entry before its final slash and asterisk,
    with no condition on it. *)
Definition claimed_entry_allows (content_type entry : str) : Prop :=
  content_type = entry \/
  exists type,
    entry = type ++ ("/*"%string : str) /\
    exists rest, content_type = type ++ "/"%char :: rest.

Definition claimed_type_allowed (content_type : str) (allowed_types : list str)
    : Prop :=
  exists entry, entry ∈ allowed_types /\ claimed_entry_allows content_type entry.

(** ** Sample configurations, environments and worlds *)

(** The defaults of [DefaultValues] in [app/config/constants.py]. *)
Definition default_settings : Settings :=
  {| max_file_size := 100 * 1024 * 1024;
     allowed_file_types := ("*/*"%string : str);
     minio_bucket := ("files"%string : str);
     db_max_retries := 3;
     db_retry_delay := 1 |}.

(** A configuration with a small size ceiling and an explicit allow-list. *)
Definition small_settings : Settings :=
  {| max_file_size := 4;
     allowed_file_types := ("image/*, text/plain"%string : str);
     minio_bucket := ("files"%string : str);
     db_max_retries := 3;
     db_retry_delay := 1 |}.

(** An environment in which no call raises. *)
Definition quiet_env : Env :=
  {| motor_client_raises := None; ping_raises := None;
     find_one_raises := None; find_raises := None;
     insert_one_raises := None; update_one_raises := None;
     delete_one_raises := None; minio_raises := None;
     list_buckets_result := Return [("files"%string : str)];
     make_bucket_raises := None; put_object_raises := None;
     get_object_raises := None; remove_object_raises := None;
     urandom16 := 0x0123456789abcdef0123456789abcdef;
     utcnow := 1700000000;
     inserted_id := ("65f0c0ffee0000000000a001"%string : str) |}.

(** An environment in which every call to either store raises. *)
Definition failing_env : Env :=
  let e := Some (Exception ("connection refused"%string : str)) in
  {| motor_client_raises := e; ping_raises := e;
     find_one_raises := e; find_raises := e;
     insert_one_raises := e; update_one_raises := e;
     delete_one_raises := e; minio_raises := e;
     list_buckets_result := Raise (Exception ("connection refused"%string : str));
     make_bucket_raises := e; put_object_raises := e;
     get_object_raises := e; remove_object_raises := e;
     urandom16 := 0; utcnow := 0; inserted_id := [] |}.

Definition connected_manager : DatabaseManager :=
  {| _mongodb_client := Some Client; _minio_client := Some Client;
     _database := Some Client; _files_collection := Some Client;
     _mongodb_connected := true; _minio_connected := true |}.

(** Both stores connected and empty. *)
Definition fresh_world : World :=
  {| db_manager := connected_manager; files := []; bucket := ∅; trace := [] |}.

(** Nothing connected yet: the world at process start. *)
Definition initial_world : World :=
  {| db_manager := DatabaseManager_init; files := []; bucket := ∅; trace := [] |}.

Definition five_bytes : bytes := [Byte.x68; Byte.x65; Byte.x6c; Byte.x6c; Byte.x6f].
Definition two_bytes : bytes := [Byte.x68; Byte.x69].

Definition text_upload (content : bytes) : UploadFile.t :=
  {| UploadFile.filename := Some ("notes/a<b>.txt"%string : str);
     UploadFile.content_type := Some ("text/plain"%string : str);
     UploadFile.read := Return content |}.

Definition pdf_upload (content : bytes) : UploadFile.t :=
  {| UploadFile.filename := Some ("report.pdf"%string : str);
     UploadFile.content_type := Some ("application/pdf"%string : str);
     UploadFile.read := Return content |}.

(** An allow-list whose one entry holds two slashes, and an upload of
    a type that the entry does not name. *)
Definition nested_settings : Settings :=
  {| max_file_size := 4;
     allowed_file_types := ("image/raw/*"%string : str);
     minio_bucket := ("files"%string : str);
     db_max_retries := 3;
     db_retry_delay := 1 |}.

Definition png_upload (content : bytes) : UploadFile.t :=
  {| UploadFile.filename := Some ("logo.png"%string : str);
     UploadFile.content_type := Some ("image/png"%string : str);
     UploadFile.read := Return content |}.

(** What a content type must start with to match the allow-all entry. *)
Definition star_slash : str := "*/"%string.

(** The record the sample upload returns. *)
Definition stored_doc : Doc.t :=
  {| Doc._id := Some (inserted_id quiet_env);
     Doc.file_id := uuid_str (uuid4 (urandom16 quiet_env));
     Doc.name := ("a_b_.txt"%string : str);
     Doc.size := 2;
     Doc.content_type := Some ("text/plain"%string : str);
     Doc.upload_date := utcnow quiet_env;
     Doc.extension := (".txt"%string : str) |}.

(** ** Requests served one after the other ([app/api/files.py]) *)

Inductive request :=
  | ReqList
  | ReqUpload (file : UploadFile.t)
  | ReqDownload (file_id : str)
  | ReqRename (file_id name : str)
  | ReqDelete (file_id : str).

(** The world after one request; the response is dropped. *)
Definition serve (settings : Settings) (env : Env) (r : request) (w : World) : World :=
  match r with
  | ReqList => (list_files env w).2
  | ReqUpload file => (upload_file settings env file w).2
  | ReqDownload fid => (download_file settings env fid w).2
  | ReqRename fid name => (update_file_name env fid name w).2
  | ReqDelete fid => (delete_file settings env fid w).2
  end.

(** The world after a list of requests, each with its environment. *)
Definition serve_all (settings : Settings) (rs : list (Env * request)) (w : World) : World :=
  foldl (fun w er => serve settings er.1 er.2 w) w rs.

(** No record of the collection has this [file_id]. *)
Definition absent (fid : str) (w : World) : Prop :=
  forall d, d ∈ files w -> Doc.file_id d <> fid.

(** The two errors a lookup of a record can end in. *)
Definition not_found : exn :=
  HTTPException 404 (Msg ("File not found"%string : str)).

Definition lookup_failed : exn :=
  HTTPException 500 (Msg ("Failed to get file"%string : str)).

(** The world after the sample upload, and the id it was given. *)
Definition stocked_world : World :=
  (upload_file small_settings quiet_env (text_upload two_bytes) fresh_world).2.

Definition stored_id : str := uuid_str (uuid4 (urandom16 quiet_env)).

(** As [quiet_env], but [insert_one] raises. *)
Definition insert_failing_env : Env :=
  {| motor_client_raises := None; ping_raises := None;
     find_one_raises := None; find_raises := None;
     insert_one_raises := Some (Exception ("not primary"%string : str));
     update_one_raises := None;
     delete_one_raises := None; minio_raises := None;
     list_buckets_result := Return [("files"%string : str)];
     make_bucket_raises := None; put_object_raises := None;
     get_object_raises := None; remove_object_raises := None;
     urandom16 := 0x0123456789abcdef0123456789abcdef;
     utcnow := 1700000000;
     inserted_id := ("65f0c0ffee0000000000a001"%string : str) |}.

(** Managers with exactly one store connected, and a world around a
    manager. *)
Definition mongodb_only_manager : DatabaseManager :=
  {| _mongodb_client := Some Client; _minio_client := None;
     _database := Some Client; _files_collection := Some Client;
     _mongodb_connected := true; _minio_connected := false |}.

Definition minio_only_manager : DatabaseManager :=
  {| _mongodb_client := None; _minio_client := Some Client;
     _database := None; _files_collection := None;
     _mongodb_connected := false; _minio_connected := true |}.

Definition world_of (m : DatabaseManager) : World :=
  {| db_manager := m; files := []; bucket := ∅; trace := [] |}.

(** Whether a store is connected and answers the probe of
    [health_check]. *)
Definition mongodb_responds (env : Env) (w : World) : bool :=
  _mongodb_connected (db_manager w)
  && bool_decide (_mongodb_client (db_manager w) <> None)
  && bool_decide (ping_raises env = None).

Definition minio_responds (env : Env) (w : World) : bool :=
  _minio_connected (db_manager w)
  && bool_decide (_minio_client (db_manager w) <> None)
  && match list_buckets_result env with Return _ => true | Raise _ => false end.

(** The two shapes of a response of [/health] that carries the
    per-store statuses. *)
Definition healthy_response (mongodb minio : string) : HealthResponse.t :=
  {| HealthResponse.status_code := 200;
     HealthResponse.status := ("healthy"%string : str);
     HealthResponse.services := Some ((mongodb : str), (minio : str));
     HealthResponse.error := None |}.

Definition degraded_response (mongodb minio : string) : HealthResponse.t :=
  {| HealthResponse.status_code := 503;
     HealthResponse.status := ("degraded"%string : str);
     HealthResponse.services := Some ((mongodb : str), (minio : str));
     HealthResponse.error := None |}.

(** ** The schedule of the startup connection routine *)

(** The events that tell the attempts and the waits apart from the
    store calls made inside an attempt. *)
Definition is_mark (e : event) : bool :=
  match e with
  | EvConnecting _ | EvSleep _ => true
  | _ => false
  end.

Definition marks (t : list event) : list event := List.filter is_mark t.

(** Whether one call of [connect_to_mongodb] succeeds. *)
Definition mongodb_connects (env : Env) : bool :=
  match motor_client_raises env, ping_raises env with
  | None, None => true
  | _, _ => false
  end.

Definition already_owned (e : exn) : bool :=
  match e with
  | S3Error code _ => bool_decide (code = ("BucketAlreadyOwnedByYou"%string : str))
  | _ => false
  end.

(** Whether one call of [connect_to_minio] succeeds. *)
Definition minio_connects (settings : Settings) (env : Env) : bool :=
  match minio_raises env with
  | Some _ => false
  | None =>
      match list_buckets_result env with
      | Return names =>
          if bool_decide (minio_bucket settings ∈ names) then true
          else match make_bucket_raises env with
               | None => true
               | Some e => already_owned e
               end
      | Raise e => already_owned e
      end
  end.

(** The bounds that [Settings] declares for [db_max_retries] (at
    least 1, at most 10) and for [db_retry_delay] (at least 0.1, at
    most 10.0), here on the values that [connect_with_retry] works
    with. *)
Definition within_retry_bounds (max_retries : Z) (initial_delay : Q) : Prop :=
  1 <= max_retries <= 10 /\
  (1 # 10 <= initial_delay)%Q /\ (initial_delay <= 10)%Q.

(** The number of attempts of a loop that starts at [attempt] with
    [remaining] iterations left: it stops after the first success. *)
Fixpoint attempts_made (ok : nat -> bool) (attempt remaining : nat) : nat :=
  match remaining with
  | O => O
  | S remaining' =>
      if ok attempt then 1%nat
      else S (attempts_made ok (S attempt) remaining')
  end.

(** The delay slept before the attempt with loop variable [k >= 1],
    that is before attempt number [k + 1]. *)
Definition delay_before (initial_delay : Q) (k : nat) : Q :=
  initial_delay * inject_Z (2 ^ (Z.of_nat k - 1)).

(** The attempts and waits of [n] consecutive attempts on store [s],
    the first with loop variable [first]. *)
Definition schedule (s : store) (initial_delay : Q) (first n : nat) : list event :=
  flat_map
    (fun k => (if (0 <? k)%nat then [EvSleep (delay_before initial_delay k)] else [])
              ++ [EvConnecting s])
    (seq first n).

(** * Further definitions *)

(** ** The cleaned name inside [_sanitize_filename] *)

(** The value of [filename] in [_sanitize_filename] after the loop
    over [dangerous_chars], before the length check. *)
Definition clean_name (filename : str) : str :=
  foldl (fun fn char => replace char "_" fn)
        (posixpath.basename filename) dangerous_chars.

(** ** Conditions and invariants of the file service *)

(** The accessors [files_collection] and [minio_client] return. *)
Definition mongodb_ready (w : World) : Prop :=
  _mongodb_connected (db_manager w) = true /\
  is_Some (_files_collection (db_manager w)).

Definition minio_ready (w : World) : Prop :=
  _minio_connected (db_manager w) = true /\
  is_Some (_minio_client (db_manager w)).

(** The dictionary [file_data] that [upload_file] builds and returns. *)
Definition uploaded_doc (env : Env) (file : UploadFile.t) (content : bytes) : Doc.t :=
  let name := _sanitize_filename (or_empty (UploadFile.filename file)) in
  {| Doc._id := Some (inserted_id env);
     Doc.file_id := uuid_str (uuid4 (urandom16 env));
     Doc.name := name;
     Doc.size := Z.of_nat (List.length content);
     Doc.content_type := UploadFile.content_type file;
     Doc.upload_date := utcnow env;
     Doc.extension := (posixpath.splitext name).2 |}.

(** Two records agree in every field but, possibly, the upload date. *)
Definition same_but_upload_date (a b : Doc.t) : Prop :=
  Doc._id a = Doc._id b /\ Doc.file_id a = Doc.file_id b /\
  Doc.name a = Doc.name b /\ Doc.size a = Doc.size b /\
  Doc.content_type a = Doc.content_type b /\
  Doc.extension a = Doc.extension b.

(** The [file_id]s of the collection are pairwise distinct. *)
Definition unique_ids (w : World) : Prop :=
  NoDup (Doc.file_id <$> files w).

(** Every [file_id] of the collection names an object of the bucket. *)
Definition consistent (w : World) : Prop :=
  forall fid, fid ∈ Doc.file_id <$> files w -> is_Some (bucket w !! fid).

(** No name in the collection holds a dangerous character. *)
Definition names_clean (w : World) : Prop :=
  forall d c, d ∈ files w -> c ∈ dangerous_chars -> c ∉ Doc.name d.

(** What is stored under an id: the record a lookup finds and the
    object. *)
Definition stored (fid : str) (w : World) : option Doc.t * option Obj.t :=
  (List.find (has_file_id fid) (files w), bucket w !! fid).

(** The id a request writes under, if it writes at all. *)
Definition target (env : Env) (r : request) : option str :=
  match r with
  | ReqUpload _ => Some (uuid_str (uuid4 (urandom16 env)))
  | ReqRename fid _ | ReqDelete fid => Some fid
  | ReqList | ReqDownload _ => None
  end.

(** The store calls that only read. *)
Definition is_read_event (e : event) : bool :=
  match e with
  | EvFindOne _ | EvFind | EvGetObject _ _ => true
  | _ => false
  end.

(** As [quiet_env], but [delete_one] raises. *)
Definition delete_failing_env : Env :=
  {| motor_client_raises := None; ping_raises := None;
     find_one_raises := None; find_raises := None;
     insert_one_raises := None; update_one_raises := None;
     delete_one_raises := Some (Exception ("not primary"%string : str));
     minio_raises := None;
     list_buckets_result := Return [("files"%string : str)];
     make_bucket_raises := None; put_object_raises := None;
     get_object_raises := None; remove_object_raises := None;
     urandom16 := 0x0123456789abcdef0123456789abcdef;
     utcnow := 1700000000;
     inserted_id := ("65f0c0ffee0000000000a001"%string : str) |}.

(** ** More of [DatabaseManager] *)

(** [close_connections]; the call of [close] on the MongoDB client
    changes nothing that the model holds. *)
Definition close_connections : M unit :=
  m <- get_manager ;;
  (if _mongodb_connected m && bool_decide (_mongodb_client m <> None)
   then _cleanup_mongodb
   else ret tt) ;;
  m <- get_manager ;;
  (if _minio_connected m && bool_decide (_minio_client m <> None)
   then _cleanup_minio
   else ret tt).

(** The properties [is_mongodb_connected], [is_minio_connected] and
    [is_connected]. *)
Definition is_mongodb_connected (m : DatabaseManager) : bool := _mongodb_connected m.
Definition is_minio_connected (m : DatabaseManager) : bool := _minio_connected m.
Definition is_connected (m : DatabaseManager) : bool :=
  _mongodb_connected m || _minio_connected m.

(** The manager with its MongoDB attributes as after a successful
    connect, or as after [_cleanup_mongodb]; likewise for MinIO. *)
Definition with_mongodb (connected : bool) (m : DatabaseManager) : DatabaseManager :=
  let handle := if connected then Some Client else None in
  {| _mongodb_client := handle; _minio_client := _minio_client m;
     _database := handle; _files_collection := handle;
     _mongodb_connected := connected; _minio_connected := _minio_connected m |}.

Definition with_minio (connected : bool) (m : DatabaseManager) : DatabaseManager :=
  {| _mongodb_client := _mongodb_client m;
     _minio_client := if connected then Some Client else None;
     _database := _database m; _files_collection := _files_collection m;
     _mongodb_connected := _mongodb_connected m; _minio_connected := connected |}.

(** The flags and the handles of a manager agree: a store is flagged
    connected with all its handles set, or not flagged with none set. *)
Definition coherent (m : DatabaseManager) : Prop :=
  m = with_mongodb (_mongodb_connected m) (with_minio (_minio_connected m) m).

(** Whether [connect_to_minio] calls [make_bucket]. *)
Definition creates_bucket (settings : Settings) (env : Env) : bool :=
  match minio_raises env, list_buckets_result env with
  | None, Return names => negb (bool_decide (minio_bucket settings ∈ names))
  | _, _ => false
  end.

(** The property getters [mongodb_client] and [database]. *)
Definition mongodb_client : M client_handle :=
  m <- get_manager ;;
  match _mongodb_connected m, _mongodb_client m with
  | true, Some c => ret c
  | _, _ => raise (DatabaseConnectionError ("MongoDB is not connected"%string : str))
  end.

Definition database : M client_handle :=
  m <- get_manager ;;
  match _mongodb_connected m, _database m with
  | true, Some c => ret c
  | _, _ => raise (DatabaseConnectionError ("MongoDB is not connected"%string : str))
  end.

(** One call on the manager or on the file service. *)
Inductive action :=
  | ActConnectMongodb
  | ActConnectMinio
  | ActConnectWithRetry (mongodb_envs minio_envs : nat -> Env)
      (max_retries : option Z) (initial_delay : option Q)
  | ActHealthCheck
  | ActCloseConnections
  | ActRequest (r : request).

(** The world after one call; the result is dropped. *)
Definition perform (settings : Settings) (env : Env) (a : action) (w : World) : World :=
  match a with
  | ActConnectMongodb => (connect_to_mongodb env w).2
  | ActConnectMinio => (connect_to_minio settings env w).2
  | ActConnectWithRetry mongodb_envs minio_envs max_retries initial_delay =>
      (connect_with_retry settings mongodb_envs minio_envs max_retries
         initial_delay w).2
  | ActHealthCheck => (health_check env w).2
  | ActCloseConnections => (close_connections w).2
  | ActRequest r => serve settings env r w
  end.

(** The world after a list of calls, each with its environment. *)
Definition perform_all (settings : Settings) (acts : list (Env * action)) (w : World)
    : World :=
  foldl (fun w ea => perform settings ea.1 ea.2 w) w acts.

(** ** Validation of the settings ([app/config/validators.py]) *)

Module ValidationConstants.

Definition MAX_FILE_SIZE_GB : Z := 1.
Definition MAX_FILE_SIZE_BYTES : Z := MAX_FILE_SIZE_GB * 1024 * 1024 * 1024.
Definition MIN_SECRET_KEY_LENGTH : Z := 32.
Definition MIN_BUCKET_NAME_LENGTH : Z := 3.
Definition MAX_BUCKET_NAME_LENGTH : Z := 63.
Definition MIN_ACCESS_KEY_LENGTH : Z := 3.

Definition INVALID_DB_CHARS : list ascii :=
  [" "; "/"; "\"; "."; double_quote; "$"; "*"; "<"; ">"; ":"; "|"; "?"]%char.

End ValidationConstants.

(** [s[i]] for an integer [i]; [None] stands for [IndexError]. *)
Definition getitem (s : str) (i : Z) : option ascii :=
  let j := if i <? 0 then len s + i else i in
  if (0 <=? j) && (j <? len s) then s !! Z.to_nat j else None.

(** The characters below 256 for which [str.isalnum] holds: the
    digits and letters of ASCII, the letters of Latin-1, and its
    superscript digits and fractions. *)
Definition isalnum (c : ascii) : bool :=
  let n := N_of_ascii c in
  ((48 <=? n) && (n <=? 57) || (65 <=? n) && (n <=? 90)
   || (97 <=? n) && (n <=? 122)
   || (n =? 170) || (n =? 178) || (n =? 179) || (n =? 181)
   || (n =? 185) || (n =? 186) || (188 <=? n) && (n <=? 190)
   || (192 <=? n) && (n <=? 214) || (216 <=? n) && (n <=? 246)
   || (248 <=? n) && (n <=? 255))%N.

(** The text of a [ValueError]: a literal, or one of the formatted
    messages with the values it shows. *)
Inductive message :=
  | Text (s : str)
  | InvalidCharacters (chars : list ascii)
  | AccessKeyTooShort (min : Z)
  | BucketNameLength (min max : Z)
  | FileSizeTooLarge (gb bytes : Z)
  | SecretKeyTooShort (min : Z).

(** What a validator ends in: the value it returns, or the exception
    it raises. *)
Inductive validated (A : Type) :=
  | Valid (a : A)
  | ValueError (m : message)
  | IndexError.

Arguments Valid {A} a.
Arguments ValueError {A} m.
Arguments IndexError {A}.

Module SettingsValidators.

Import ValidationConstants.

Definition validate_mongodb_url (v : str) : validated str :=
  if negb (truthy v) || negb (truthy (strip v))
  then ValueError (Text ("MongoDB URL is required"%string : str))
  else if negb (startswith v ("mongodb://"%string : str)
                || startswith v ("mongodb+srv://"%string : str))
  then ValueError
         (Text ("Invalid MongoDB URL format. Must start with 'mongodb://' or 'mongodb+srv://'"%string : str))
  else Valid (strip v).

Definition validate_mongodb_database (v : str) : validated str :=
  if negb (truthy v) || negb (truthy (strip v))
  then ValueError (Text ("MongoDB database name is required"%string : str))
  else if existsb (fun char => bool_decide (char ∈ v)) INVALID_DB_CHARS
  then ValueError (InvalidCharacters INVALID_DB_CHARS)
  else Valid (strip v).

Definition validate_origins (v : str) : validated str :=
  if negb (truthy v) || negb (truthy (strip v))
  then ValueError (Text ("At least one CORS origin must be specified"%string : str))
  else Valid (strip v).

Definition validate_minio_endpoint (v : str) : validated str :=
  if negb (truthy v) || negb (truthy (strip v))
  then ValueError (Text ("MinIO endpoint is required"%string : str))
  else Valid (strip v).

Definition validate_minio_access_key (v : str) : validated str :=
  if negb (truthy v) || negb (truthy (strip v))
  then ValueError (Text ("MinIO access key is required"%string : str))
  else if len (strip v) <? MIN_ACCESS_KEY_LENGTH
  then ValueError (AccessKeyTooShort MIN_ACCESS_KEY_LENGTH)
  else Valid (strip v).

Definition validate_minio_bucket (v : str) : validated str :=
  if negb (truthy v) || negb (truthy (strip v))
  then ValueError (Text ("MinIO bucket name is required"%string : str))
  else if (len v <? MIN_BUCKET_NAME_LENGTH) || (MAX_BUCKET_NAME_LENGTH <? len v)
  then ValueError (BucketNameLength MIN_BUCKET_NAME_LENGTH MAX_BUCKET_NAME_LENGTH)
  else
    match getitem v 0 with
    | None => IndexError
    | Some first =>
        if isalnum first
        then
          match getitem v (-1) with
          | None => IndexError
          | Some last =>
              if isalnum last then Valid (strip v)
              else ValueError
                     (Text ("MinIO bucket name must start and end with alphanumeric characters"%string : str))
          end
        else ValueError
               (Text ("MinIO bucket name must start and end with alphanumeric characters"%string : str))
    end.

Definition validate_max_file_size (v : Z) : validated Z :=
  if v <=? 0
  then ValueError (Text ("Max file size must be positive"%string : str))
  else if MAX_FILE_SIZE_BYTES <? v
  then ValueError (FileSizeTooLarge MAX_FILE_SIZE_GB MAX_FILE_SIZE_BYTES)
  else Valid v.

(** The argument is the value that [get_secret_value] returns. *)
Definition validate_secret_key (v : str) : validated str :=
  if len v <? MIN_SECRET_KEY_LENGTH
  then ValueError (SecretKeyTooShort MIN_SECRET_KEY_LENGTH)
  else Valid v.

End SettingsValidators.

(** [s] begins with one of the two schemes of a MongoDB URL. *)
Definition has_mongodb_scheme (s : str) : bool :=
  startswith s ("mongodb://"%string : str)
  || startswith s ("mongodb+srv://"%string : str).

(** [s] has no white space at either end. *)
Definition stripped (s : str) : Prop := strip s = s.

(** The six validators of settings that hold a string. *)
Definition string_validators : list (str -> validated str) :=
  [SettingsValidators.validate_mongodb_url;
   SettingsValidators.validate_mongodb_database;
   SettingsValidators.validate_origins;
   SettingsValidators.validate_minio_endpoint;
   SettingsValidators.validate_minio_access_key;
   SettingsValidators.validate_minio_bucket].

(** * Properties *)

(** ** Strings and paths *)

Section StringFacts.

Implicit Types (s p : str) (c x : ascii).

Lemma slice_to_elem k s x : x ∈ slice_to k s -> x ∈ s.
Proof. unfold slice_to. apply (subseteq_take _ s). Qed.

Lemma slice_from_elem i s x : x ∈ slice_from i s -> x ∈ s.
Proof. unfold slice_from. apply (subseteq_drop _ s). Qed.

Lemma replace_removes old new s : old <> new -> old ∉ replace old new s.
Proof.
  intros Hne Hin. unfold replace in Hin.
  apply list_elem_of_fmap in Hin as (y & Hy & _).
  case_bool_decide; congruence.
Qed.

Lemma replace_keeps_absent c old new s :
  c <> new -> c ∉ s -> c ∉ replace old new s.
Proof.
  intros Hne Hs Hin. unfold replace in Hin.
  apply list_elem_of_fmap in Hin as (y & Hy & Hys).
  case_bool_decide; subst; [congruence | contradiction].
Qed.

Lemma replace_all_absent new (olds : list ascii) : forall s c,
  c <> new -> c ∈ olds \/ c ∉ s ->
  c ∉ foldl (fun fn char => replace char new fn) s olds.
Proof.
  induction olds as [|o olds IH]; intros s c Hne Hc; simpl.
  - destruct Hc as [Hc | Hc]; [by apply elem_of_nil in Hc | exact Hc].
  - apply IH; [exact Hne |].
    destruct (decide (c = o)) as [-> | Hco].
    + right. by apply replace_removes.
    + destruct Hc as [Hc | Hc].
      * left. apply elem_of_cons in Hc as [? | ?]; [contradiction | done].
      * right. by apply replace_keeps_absent.
Qed.

Lemma splitext_fst_elem p x : x ∈ (posixpath.splitext p).1 -> x ∈ p.
Proof.
  unfold posixpath.splitext.
  destruct (_ && _); simpl; [apply slice_to_elem | done].
Qed.

Lemma splitext_snd_elem p x : x ∈ (posixpath.splitext p).2 -> x ∈ p.
Proof.
  unfold posixpath.splitext.
  destruct (_ && _); simpl; [apply slice_from_elem | apply slice_to_elem].
Qed.

Lemma underscore_not_dangerous c : c ∈ dangerous_chars -> c <> "_"%char.
Proof.
  intros Hc ->. revert Hc. unfold dangerous_chars.
  rewrite !elem_of_cons, elem_of_nil. intros H.
  repeat (destruct H as [H | H]; [discriminate H |]). exact H.
Qed.

Lemma unnamed_file_clean :
  Forall (fun c => c ∉ ("unnamed_file"%string : str)) dangerous_chars.
Proof. apply (bool_decide_unpack _). by vm_compute. Qed.

End StringFacts.

(** The inputs of the unit tests in [tests/test_file_service.py], and a
    few runs of the string functions. *)
Example sanitize_path :
  _sanitize_filename ("/path/to/file.txt"%string : str) = ("file.txt"%string : str).
Proof. reflexivity. Qed.

Example sanitize_dangerous :
  _sanitize_filename ("test<file>:name|.txt"%string : str)
  = ("test_file__name_.txt"%string : str).
Proof. reflexivity. Qed.

Example sanitize_empty : _sanitize_filename [] = ("unnamed_file"%string : str).
Proof. reflexivity. Qed.

Example sanitize_long :
  let r := _sanitize_filename (repeat "a"%char 300 ++ (".txt"%string : str)) in
  len r = 255 /\ endswith r (".txt"%string : str) = true.
Proof. by vm_compute. Qed.

Example splitext_leading_dots :
  posixpath.splitext ("..a.b"%string : str) = (("..a"%string : str), (".b"%string : str)) /\
  posixpath.splitext ("...b"%string : str) = (("...b"%string : str), []).
Proof. by vm_compute. Qed.

Example uuid_str_example :
  uuid_str (uuid4 (urandom16 quiet_env))
  = ("01234567-89ab-4def-8123-456789abcdef"%string : str).
Proof. reflexivity. Qed.

Example allowed_file_types_list_example :
  allowed_file_types_list small_settings
  = [("image/*"%string : str); ("text/plain"%string : str)].
Proof. reflexivity. Qed.

(** C7.  Whatever the input filename, the name that [_sanitize_filename]
    returns (the one [upload_file] and [update_file_name] store) holds
    none of the nine characters of [dangerous_chars]: less-than,
    greater-than, colon, double quote, vertical bar, question mark,
    asterisk, backslash and slash. *)
Theorem sanitize_filename_no_dangerous_char (filename : str) (c : ascii) :
  c ∈ dangerous_chars -> c ∉ _sanitize_filename filename.
Proof.
  intros Hc. unfold _sanitize_filename.
  destruct filename as [|a filename]; simpl negb; cbv iota.
  - by apply (proj1 (Forall_forall _ _) unnamed_file_clean).
  - set (base := posixpath.basename (a :: filename)).
    set (clean := foldl _ base dangerous_chars).
    assert (Hclean : c ∉ clean).
    { apply replace_all_absent; [by apply underscore_not_dangerous | by left]. }
    destruct (255 <? len clean); [| exact Hclean].
    destruct (posixpath.splitext clean) as [name ext] eqn:Hsplit.
    intros Hin. apply elem_of_app in Hin as [Hin | Hin]; apply Hclean.
    + apply splitext_fst_elem. rewrite Hsplit. simpl.
      by apply slice_to_elem in Hin.
    + apply splitext_snd_elem. by rewrite Hsplit.
Qed.

(** The inputs of the unit tests of [_sanitize_filename]. *)
Lemma sanitize_filename_no_dangerous_char_witness :
  "/"%char ∉ _sanitize_filename ("/path/to/a<b>.txt"%string : str).
Proof.
  apply sanitize_filename_no_dangerous_char.
  unfold dangerous_chars. set_solver.
Defined.

(** ** The allow-list of content types *)

Section AllowList.

Implicit Types (s p : str).

Lemma is_prefix_spec p s : is_prefix p s = true <-> exists r, s = p ++ r.
Proof.
  revert s. induction p as [|a p IH]; intros s; simpl.
  - split; [intros _; by exists s | done].
  - destruct s as [|b s].
    + split; [done | intros [r Hr]; discriminate Hr].
    + rewrite andb_true_iff, bool_decide_eq_true, IH. split.
      * intros [-> [r ->]]. by exists r.
      * intros [r Hr]. injection Hr as -> ->. split; [done | by exists r].
Qed.

Lemma endswith_spec s p : endswith s p = true <-> exists q, s = q ++ p.
Proof.
  unfold endswith. rewrite is_prefix_spec. split.
  - intros [r Hr]. exists (reverse r).
    apply (inj reverse). by rewrite Hr, reverse_app, reverse_involutive.
  - intros [q ->]. exists (reverse q). by rewrite reverse_app.
Qed.

Lemma split_acc_hd sep s cur :
  sep = "/"%char -> hd [] (split_acc sep s cur) = reverse cur ++ base_type_of s.
Proof.
  intros ->. revert cur. induction s as [|x s IH]; intros cur; simpl.
  - by rewrite app_nil_r.
  - case_bool_decide; simpl; [by rewrite app_nil_r |].
    by rewrite IH, reverse_cons, <- app_assoc.
Qed.

Lemma split_hd s : hd [] (split "/" s) = base_type_of s.
Proof. unfold split. by rewrite split_acc_hd. Qed.

(** For an entry [ty/*] whose [ty] has no slash, the base type is [ty]. *)
Lemma base_type_of_wildcard (ty : str) :
  "/"%char ∉ ty -> base_type_of (ty ++ ("/*"%string : str)) = ty.
Proof.
  induction ty as [|x ty IH]; intros Hty; [done |].
  apply not_elem_of_cons in Hty as [Hx Hty].
  rewrite <- app_comm_cons. cbn [base_type_of].
  rewrite bool_decide_eq_false_2 by congruence. by rewrite IH.
Qed.

Lemma base_type_of_prefix s :
  "/"%char ∈ s -> exists rest, s = base_type_of s ++ "/"%char :: rest.
Proof.
  induction s as [|x s IH]; intros Hs; [by apply elem_of_nil in Hs |].
  simpl. case_bool_decide as Hx.
  - subst x. by exists s.
  - apply elem_of_cons in Hs as [Hs | Hs]; [congruence |].
    destruct (IH Hs) as [rest Hrest]. exists rest. simpl. by f_equal.
Qed.

(** The loop of [_validate_file_type] decides the rule. *)
Lemma is_allowed_spec (content_type : str) (allowed_types : list str) :
  is_allowed content_type allowed_types = true
  <-> type_allowed content_type allowed_types.
Proof.
  unfold type_allowed.
  induction allowed_types as [|e l IH]; cbn [is_allowed].
  - split; [done | intros (e & He & _); by apply elem_of_nil in He].
  - destruct (endswith e _) eqn:Hends.
    + unfold startswith. rewrite split_hd.
      destruct (is_prefix _ content_type) eqn:Hpre.
      * split; [intros _ | done]. exists e. split; [left |].
        apply is_prefix_spec in Hpre as [r ->].
        right. split; [by apply endswith_spec |].
        exists r. by rewrite <- app_assoc.
      * rewrite IH. split.
        -- intros (e' & He' & Hal). exists e'. split; [by right | done].
        -- intros (e' & He' & Hal).
           apply elem_of_cons in He' as [-> | He']; [| by exists e'].
           exfalso. apply not_true_iff_false in Hpre. apply Hpre.
           apply is_prefix_spec.
           destruct Hal as [-> | [_ [rest ->]]].
           ++ apply endswith_spec in Hends as [q Hq].
              destruct (base_type_of_prefix e) as [rest Hrest].
              { rewrite Hq. apply elem_of_app. right. by left. }
              exists rest. by rewrite <- app_assoc.
           ++ exists rest. by rewrite <- app_assoc.
    + case_bool_decide as Heq.
      * split; [intros _ | done]. exists e. split; [left | by left].
      * rewrite IH. split.
        -- intros (e' & He' & Hal). exists e'. split; [by right | done].
        -- intros (e' & He' & Hal).
           apply elem_of_cons in He' as [-> | He']; [| by exists e'].
           exfalso. destruct Hal as [-> | [Hform _]]; [done |].
           apply endswith_spec in Hform. congruence.
Qed.

End AllowList.

(** ** Validation in [upload_file] *)

(** For an entry [type/*] whose [type] holds no slash, the rule of the
    validator and the rule in the words of the specification agree. *)
Lemma claimed_rule_one_slash (content_type type : str) :
  "/"%char ∉ type ->
  entry_allows content_type (type ++ ("/*"%string : str))
  <-> claimed_entry_allows content_type (type ++ ("/*"%string : str)).
Proof.
  intros Hty. unfold entry_allows, claimed_entry_allows.
  rewrite base_type_of_wildcard by exact Hty. split.
  - intros [H | [_ H]]; [by left |]. right. by exists type.
  - intros [H | (type' & Heq & rest & Hc)]; [by left |].
    apply app_inj_2 in Heq as [<- _]; [| reflexivity].
    right. split; [by exists type | by exists rest].
Qed.

(** C4, as the specification states it, fails: with the one entry
    [image/raw/*] the rule of the claim does not allow [image/png],
    and yet the upload is accepted, its object written and its record
    inserted. *)
Lemma upload_two_slash_entry_accepted :
  allowed_file_types_list nested_settings = [("image/raw/*"%string : str)] /\
  ~ claimed_type_allowed ("image/png"%string : str)
      (allowed_file_types_list nested_settings) /\
  exists doc,
    (upload_file nested_settings quiet_env (png_upload two_bytes) fresh_world).1
    = Return doc /\
    files (upload_file nested_settings quiet_env (png_upload two_bytes)
             fresh_world).2 = [doc] /\
    is_Some (bucket (upload_file nested_settings quiet_env (png_upload two_bytes)
                       fresh_world).2 !! Doc.file_id doc).
Proof.
  split; [by vm_compute |]. split.
  - intros (entry & Hin & Hal). vm_compute in Hin.
    apply list_elem_of_singleton in Hin. subst entry.
    destruct Hal as [H | (type & Heq & rest & Hc)]; [discriminate H |].
    destruct (app_inj_2 ("image/raw"%string : str) type
                ("/*"%string : str) ("/*"%string : str) eq_refl Heq) as [<- _].
    vm_compute in Hc. discriminate Hc.
  - eexists. split; [vm_compute; reflexivity |].
    split; [vm_compute; reflexivity |].
    vm_compute. eexists. reflexivity.
Qed.

(** C4, amended.  An upload whose content type the allow-list does
    not allow, where the base type of an entry that ends with a slash
    and an asterisk is what precedes the first slash of the entry (so
    the content type equals no entry, and starts with the base type of
    no such entry followed by a slash), is rejected with the client
    error 400, and the world is left as it was: no object is written,
    no document inserted, no store call issued. *)
Theorem upload_disallowed_type_rejected
    (settings : Settings) (env : Env) (file : UploadFile.t) (w : World) :
  ~ type_allowed (or_empty (UploadFile.content_type file))
      (allowed_file_types_list settings) ->
  exists d, upload_file settings env file w = (Raise (HTTPException 400 d), w).
Proof.
  intros Hno. rewrite <- is_allowed_spec in Hno.
  apply not_true_is_false in Hno.
  unfold upload_file.
  destruct (truthy (or_empty (UploadFile.filename file)));
    simpl negb; cbv iota; [| by eexists].
  unfold _validate_file_type.
  destruct (truthy (or_empty (UploadFile.content_type file)));
    simpl negb; cbv iota; [rewrite Hno |]; by eexists.
Qed.

Lemma upload_disallowed_type_rejected_witness :
  exists d,
    upload_file small_settings quiet_env (pdf_upload two_bytes) fresh_world
    = (Raise (HTTPException 400 d), fresh_world).
Proof.
  apply upload_disallowed_type_rejected.
  rewrite <- is_allowed_spec. by vm_compute.
Defined.

(** C3, as the specification states it, fails: an oversize upload whose
    content type is not allowed is answered with 400, not 413. *)
Lemma oversize_upload_status_400 :
  max_file_size small_settings < Z.of_nat (List.length five_bytes) /\
  exists d,
    upload_file small_settings quiet_env (pdf_upload five_bytes) fresh_world
    = (Raise (HTTPException 400 d), fresh_world) /\
    (400 <> 413).
Proof. split; [by vm_compute |]. eexists. split; [by vm_compute | done]. Qed.

(** C3, amended.  An upload whose content is longer than
    [max_file_size] is rejected and the world is left as it was (no
    object written, no document inserted, no store call issued); the
    status is 413 when the upload has a filename and an allowed content
    type, and 400 otherwise. *)
Theorem upload_oversize_rejected
    (settings : Settings) (env : Env) (file : UploadFile.t)
    (content : bytes) (w : World) :
  UploadFile.read file = Return content ->
  max_file_size settings < Z.of_nat (List.length content) ->
  exists d,
    upload_file settings env file w
    = (Raise (HTTPException
                (if truthy (or_empty (UploadFile.filename file))
                    && truthy (or_empty (UploadFile.content_type file))
                    && is_allowed (or_empty (UploadFile.content_type file))
                         (allowed_file_types_list settings)
                 then 413 else 400) d), w).
Proof.
  intros Hread Hsize. unfold upload_file.
  destruct (truthy (or_empty (UploadFile.filename file)));
    simpl negb; cbv iota; [| by eexists].
  unfold _validate_file_type.
  destruct (truthy (or_empty (UploadFile.content_type file)));
    simpl negb; cbv iota; [| by eexists].
  destruct (is_allowed _ _); simpl negb; cbv iota; [| by eexists].
  rewrite Hread. unfold _validate_file_size.
  apply Z.ltb_lt in Hsize.
  unfold bind at 1. unfold ret at 1. unfold bind at 1.
  unfold try_except at 1. unfold ret at 1. unfold bind at 1.
  rewrite Hsize. by eexists.
Qed.

Lemma upload_oversize_rejected_witness :
  exists d,
    upload_file small_settings quiet_env (text_upload five_bytes) fresh_world
    = (Raise (HTTPException 413 d), fresh_world).
Proof.
  apply (upload_oversize_rejected small_settings quiet_env
           (text_upload five_bytes) five_bytes fresh_world);
    [reflexivity | by vm_compute].
Defined.

(** ** The allow-all setting *)

(** C9, as stated, fails: under the default setting the validator
    accepts a content type that is not literally the entry. *)
Lemma wildcard_setting_accepts_other_type :
  allowed_file_types default_settings = ("*/*"%string : str) /\
  _validate_file_type default_settings ("*/plain"%string : str) fresh_world
  = (Return tt, fresh_world) /\
  ("*/plain"%string : str) <> ("*/*"%string : str).
Proof. split; [done |]. split; [by vm_compute | discriminate]. Qed.

(** C9, amended.  When [allowed_file_types] is the string of the
    allow-all setting, the allow-list is the single entry made of that
    string, and the validator accepts exactly the content types that
    start with an asterisk followed by a slash; every other content
    type, [image/png] among them, is rejected with status 400. *)
Theorem wildcard_setting_accepts_star_prefix_only (settings : Settings) :
  allowed_file_types settings = ("*/*"%string : str) ->
  allowed_file_types_list settings = [("*/*"%string : str)] /\
  (forall content_type w,
     startswith content_type star_slash = true ->
     _validate_file_type settings content_type w = (Return tt, w)) /\
  (forall content_type w,
     startswith content_type star_slash = false ->
     exists d,
       _validate_file_type settings content_type w
       = (Raise (HTTPException 400 d), w)) /\
  (forall w, exists d,
     _validate_file_type settings ("image/png"%string : str) w
     = (Raise (HTTPException 400 d), w)).
Proof.
  intros Hall.
  assert (Hlist : allowed_file_types_list settings = [("*/*"%string : str)]).
  { unfold allowed_file_types_list. by rewrite Hall. }
  assert (Hloop : forall ct,
             is_allowed ct [("*/*"%string : str)] = startswith ct star_slash).
  { intros ct. cbn [is_allowed].
    change (endswith ("*/*"%string : str) ("/*"%string : str)) with true.
    cbv iota.
    change (hd [] (split "/" ("*/*"%string : str)) ++ ("/"%string : str))
      with star_slash.
    by destruct (startswith ct star_slash). }
  assert (Hrej : forall ct w,
             startswith ct star_slash = false ->
             exists d, _validate_file_type settings ct w
                       = (Raise (HTTPException 400 d), w)).
  { intros ct w Hct. unfold _validate_file_type.
    destruct (truthy ct); simpl negb; cbv iota; [| by eexists].
    rewrite Hlist, Hloop, Hct. by eexists. }
  split; [exact Hlist |]. split; [| split].
  - intros ct w Hct. unfold _validate_file_type.
    destruct ct as [|c ct]; [discriminate Hct |].
    simpl negb; cbv iota. by rewrite Hlist, Hloop, Hct.
  - exact Hrej.
  - intros w. by apply Hrej.
Qed.

Lemma wildcard_setting_accepts_star_prefix_only_witness :
  exists d,
    _validate_file_type default_settings ("image/png"%string : str) fresh_world
    = (Raise (HTTPException 400 d), fresh_world).
Proof.
  apply (wildcard_setting_accepts_star_prefix_only default_settings).
  reflexivity.
Defined.

(** ** Running the operations symbolically *)

Arguments uuid_str : simpl never.
Arguments uuid4 : simpl never.
Arguments _sanitize_filename : simpl never.
Arguments posixpath.splitext : simpl never.
Arguments is_allowed : simpl never.
Arguments allowed_file_types_list : simpl never.
Arguments truthy : simpl never.
Arguments has_file_id : simpl never.
Arguments Z.ltb : simpl never.
Arguments Z.of_nat : simpl never.
Arguments list_ascii_of_string : simpl never.
Arguments app : simpl never.

Ltac unfold_ops :=
  unfold upload_file, download_file, update_file_name, delete_file,
    get_file_by_id, list_files,
    _validate_file_type, _validate_file_size, minio_client, files_collection,
    minio.put_object, minio.get_object, minio.remove_object,
    collection.find_one, collection.find, collection.insert_one,
    collection.update_one, collection.delete_one,
    bind, ret, raise, try_except, emit, may_raise, get_manager,
    modify_manager, get_files, set_files, get_bucket, set_bucket in *.

(** The scrutinee that blocks the evaluation of [x]. *)
Ltac innermost x :=
  lazymatch x with
  | context [match ?y with _ => _ end] => innermost y
  | _ => x
  end.

(** One case distinction on what blocks the run recorded in [H]. *)
Ltac case_step H :=
  match type of H with
  | context [match ?x with _ => _ end] =>
      let y := innermost x in
      destruct y eqn:?; cbn in H; try discriminate H
  end.

Ltac run_in H := unfold_ops; cbn in H; repeat case_step H.

Lemma uuid_str_truthy (u : N) : truthy (uuid_str u) = true.
Proof. unfold uuid_str. by destruct (take 8 (hex_fixed 32 u)). Qed.

Lemma negb_truthy_false (s : str) : negb (truthy s) = false -> truthy s = true.
Proof. by destruct (truthy s). Qed.

Lemma find_has_file_id (fid : str) (l : list Doc.t) (d : Doc.t) :
  List.find (has_file_id fid) l = Some d -> d ∈ l /\ Doc.file_id d = fid.
Proof.
  intros H. apply List.find_some in H as [Hin Hid].
  split; [by apply list_elem_of_In |].
  unfold has_file_id in Hid. by apply bool_decide_eq_true in Hid.
Qed.

Lemma find_has_file_id_None (fid : str) (l : list Doc.t) :
  List.find (has_file_id fid) l = None <-> forall d, d ∈ l -> Doc.file_id d <> fid.
Proof.
  split.
  - intros H d Hd Hid. apply list_elem_of_In in Hd.
    pose proof (List.find_none _ _ H d Hd) as Hf.
    unfold has_file_id in Hf. apply bool_decide_eq_false in Hf. contradiction.
  - intros H. destruct (List.find _ l) as [d|] eqn:Hf; [| done].
    apply find_has_file_id in Hf as [Hin Hid]. by destruct (H d Hin).
Qed.

(** What a successful [upload_file] has done. *)
Lemma upload_file_Return settings env file w doc w1 :
  upload_file settings env file w = (Return doc, w1) ->
  exists content,
    let fid := uuid_str (uuid4 (urandom16 env)) in
    UploadFile.read file = Return content /\
    Doc.file_id doc = fid /\
    Doc.name doc = _sanitize_filename (or_empty (UploadFile.filename file)) /\
    Doc.size doc = Z.of_nat (List.length content) /\
    db_manager w1 = db_manager w /\
    _mongodb_connected (db_manager w) = true /\
    is_Some (_files_collection (db_manager w)) /\
    _minio_connected (db_manager w) = true /\
    is_Some (_minio_client (db_manager w)) /\
    files w1 = files w ++ [doc] /\
    bucket w1 = <[fid := {| Obj.data := content;
                            Obj.content_type := UploadFile.content_type file |}]>
                  (bucket w) /\
    trace w1 = trace w ++ [EvPutObject (minio_bucket settings) fid content;
                           EvInsertOne fid].
Proof.
  intros H. run_in H. injection H as <- <-.
  eexists. cbn. rewrite <- app_assoc. repeat split; eauto.
Qed.

(** [download_file] on a stored file, when neither store call raises. *)
Lemma download_file_ok settings env fid w d o :
  truthy fid = true ->
  _mongodb_connected (db_manager w) = true ->
  is_Some (_files_collection (db_manager w)) ->
  _minio_connected (db_manager w) = true ->
  is_Some (_minio_client (db_manager w)) ->
  find_one_raises env = None ->
  get_object_raises env = None ->
  List.find (has_file_id fid) (files w) = Some d ->
  bucket w !! fid = Some o ->
  download_file settings env fid w
  = (Return (Obj.data o, d),
     with_trace (trace w ++ [EvFindOne fid;
                             EvGetObject (minio_bucket settings) fid]) w).
Proof.
  intros Hfid Hm [c Hc] Hn [c' Hc'] Hf Hg Hd Ho.
  unfold_ops. cbn.
  repeat (first [rewrite Hfid | rewrite Hm | rewrite Hc | rewrite Hf
                | rewrite Hd | rewrite Hn | rewrite Hc' | rewrite Hg
                | rewrite Ho]; cbn).
  by rewrite <- app_assoc.
Qed.

(** What a successful [download_file] has read. *)
Lemma download_file_Return settings env fid w content d w1 :
  download_file settings env fid w = (Return (content, d), w1) ->
  exists o,
    bucket w !! fid = Some o /\ content = Obj.data o /\
    List.find (has_file_id fid) (files w) = Some d /\
    files w1 = files w /\ bucket w1 = bucket w /\
    db_manager w1 = db_manager w.
Proof.
  intros H. run_in H. injection H as <- <- <-.
  eexists. cbn. repeat split; eauto.
Qed.

(** ** Upload followed by download *)

(** C2.  When [upload_file] succeeds, a download by the [file_id] of
    the record it returned gives back the uploaded bytes: every
    download that succeeds returns exactly the content that was read
    from the upload, and a download succeeds whenever its two store
    calls do not raise. *)
Theorem upload_download_roundtrip settings env file w doc w1 :
  upload_file settings env file w = (Return doc, w1) ->
  exists content,
    UploadFile.read file = Return content /\
    (forall env' c d w2,
       download_file settings env' (Doc.file_id doc) w1 = (Return (c, d), w2) ->
       c = content) /\
    (forall env',
       find_one_raises env' = None -> get_object_raises env' = None ->
       exists d w2,
         download_file settings env' (Doc.file_id doc) w1
         = (Return (content, d), w2)).
Proof.
  intros Hup.
  apply upload_file_Return in Hup
    as (content & Hread & Hid & _ & _ & Hmgr & Hm & Hc & Hn & Hcl & Hfiles & Hbucket & _).
  cbn zeta in *. exists content. split; [exact Hread |].
  assert (Hobj : bucket w1 !! Doc.file_id doc
                 = Some {| Obj.data := content;
                           Obj.content_type := UploadFile.content_type file |}).
  { rewrite Hbucket, Hid. apply lookup_insert_eq. }
  split.
  - intros env' c d w2 Hdown.
    apply download_file_Return in Hdown as (o & Ho & -> & _).
    rewrite Hobj in Ho. by injection Ho as <-.
  - intros env' Hf Hg.
    destruct (List.find (has_file_id (Doc.file_id doc)) (files w1)) as [d|] eqn:Hfind.
    + exists d. eexists.
      rewrite <- Hmgr in Hm, Hc, Hn, Hcl.
      assert (Htruthy : truthy (Doc.file_id doc) = true)
        by (rewrite Hid; apply uuid_str_truthy).
      exact (download_file_ok settings env' _ w1 d _
               Htruthy Hm Hc Hn Hcl Hf Hg Hfind Hobj).
    + exfalso. rewrite find_has_file_id_None in Hfind.
      apply (Hfind doc); [| done].
      rewrite Hfiles. apply elem_of_app. right. by left.
Qed.

Lemma upload_download_roundtrip_witness :
  let uploaded :=
    upload_file small_settings quiet_env (text_upload two_bytes) fresh_world in
  uploaded.1 = Return stored_doc /\
  exists d w2,
    download_file small_settings quiet_env (Doc.file_id stored_doc) uploaded.2
    = (Return (two_bytes, d), w2).
Proof.
  cbn zeta.
  assert (E : upload_file small_settings quiet_env (text_upload two_bytes) fresh_world
              = (Return stored_doc,
                 (upload_file small_settings quiet_env (text_upload two_bytes)
                    fresh_world).2))
    by (vm_compute; reflexivity).
  split; [by rewrite E |].
  destruct (upload_download_roundtrip _ _ _ _ _ _ E) as (content & Hread & _ & Hdown).
  injection Hread as <-.
  exact (Hdown quiet_env eq_refl eq_refl).
Defined.

(** ** Rename *)

(** The first document with a given [file_id], and what [update_one]
    and [delete_one] do to the collection around it. *)
Lemma find_first_split (fid : str) (f : Doc.t -> Doc.t) (l : list Doc.t) (d : Doc.t) :
  List.find (has_file_id fid) l = Some d ->
  exists pre suf,
    l = pre ++ d :: suf /\
    Doc.file_id d = fid /\
    (forall x, x ∈ pre -> Doc.file_id x <> fid) /\
    update_first fid f l = pre ++ f d :: suf /\
    remove_first fid l = pre ++ suf.
Proof.
  induction l as [|x l IH]; cbn; [done |].
  destruct (has_file_id fid x) eqn:Hx.
  - intros [= ->]. exists [], l. cbn.
    repeat split; [| intros x Hin; by apply elem_of_nil in Hin].
    unfold has_file_id in Hx. by apply bool_decide_eq_true in Hx.
  - intros Hfind. destruct (IH Hfind) as (pre & suf & -> & Hid & Hpre & Hupd & Hrem).
    exists (x :: pre), suf. rewrite Hupd, Hrem.
    repeat split; [exact Hid |].
    intros y Hy. apply elem_of_cons in Hy as [-> | Hy]; [| by apply Hpre].
    unfold has_file_id in Hx. by apply bool_decide_eq_false in Hx.
Qed.

(** What a successful [update_file_name] has done. *)
Lemma update_file_name_Return env fid new_name w msg w1 :
  update_file_name env fid new_name w = (Return msg, w1) ->
  exists d,
    truthy new_name = true /\
    List.find (has_file_id fid) (files w) = Some d /\
    files w1 = update_first fid (Doc.set_name (_sanitize_filename new_name)) (files w) /\
    bucket w1 = bucket w /\
    db_manager w1 = db_manager w /\
    trace w1 = trace w ++ [EvFindOne fid; EvUpdateOne fid (_sanitize_filename new_name)].
Proof.
  intros H. run_in H. injection H as <- <-.
  eexists. cbn. rewrite <- app_assoc.
  repeat split; eauto using negb_truthy_false.
Qed.

(** [update_file_name] on a stored file, when no store call raises. *)
Lemma update_file_name_ok env fid new_name w d :
  truthy fid = true ->
  truthy new_name = true ->
  _mongodb_connected (db_manager w) = true ->
  is_Some (_files_collection (db_manager w)) ->
  find_one_raises env = None ->
  update_one_raises env = None ->
  List.find (has_file_id fid) (files w) = Some d ->
  exists w1,
    update_file_name env fid new_name w
    = (Return ("File name updated successfully"%string : str), w1).
Proof.
  intros Hfid Hname Hm [c Hc] Hf Hu Hd.
  unfold_ops. cbn.
  repeat (first [rewrite Hfid | rewrite Hname | rewrite Hm | rewrite Hc
                | rewrite Hf | rewrite Hd | rewrite Hu]; cbn).
  by eexists.
Qed.

(** C5.  A successful rename replaces, in the collection, the first
    record with the given [file_id] by the same record with [name] set
    to the sanitized new name; [_id], [file_id], [size],
    [content_type], [extension] and [upload_date] of that record are
    as before, every other record is as before, the bucket is as
    before and no call to the object store is issued. *)
Theorem rename_changes_only_name env fid new_name w msg w1 :
  update_file_name env fid new_name w = (Return msg, w1) ->
  exists pre d suf,
    let d' := Doc.set_name (_sanitize_filename new_name) d in
    truthy new_name = true /\
    files w = pre ++ d :: suf /\
    Doc.file_id d = fid /\
    (forall x, x ∈ pre -> Doc.file_id x <> fid) /\
    files w1 = pre ++ d' :: suf /\
    Doc.name d' = _sanitize_filename new_name /\
    Doc._id d' = Doc._id d /\
    Doc.file_id d' = Doc.file_id d /\
    Doc.size d' = Doc.size d /\
    Doc.content_type d' = Doc.content_type d /\
    Doc.extension d' = Doc.extension d /\
    Doc.upload_date d' = Doc.upload_date d /\
    bucket w1 = bucket w /\
    trace w1 = trace w ++ [EvFindOne fid; EvUpdateOne fid (_sanitize_filename new_name)].
Proof.
  intros H.
  apply update_file_name_Return in H as (d & Hname & Hfind & Hfiles & Hbucket & _ & Htrace).
  destruct (find_first_split fid (Doc.set_name (_sanitize_filename new_name)) _ _ Hfind)
    as (pre & suf & Hl & Hid & Hpre & Hupd & _).
  exists pre, d, suf. cbn zeta.
  rewrite Hfiles, Hupd. by repeat split.
Qed.

(** ** What each operation leaves unchanged *)

Section Frames.

Variable settings : Settings.

Ltac frame H := run_in H; injection H as <- <-; cbn; auto.

Lemma list_files_frame env w :
  let w1 := (list_files env w).2 in
  db_manager w1 = db_manager w /\ files w1 = files w.
Proof. cbn zeta. destruct (list_files env w) as [r w1] eqn:H. frame H. Qed.

Lemma download_file_frame env fid w :
  let w1 := (download_file settings env fid w).2 in
  db_manager w1 = db_manager w /\ files w1 = files w.
Proof.
  cbn zeta. destruct (download_file settings env fid w) as [r w1] eqn:H. frame H.
Qed.

Lemma upload_file_frame env file w :
  let w1 := (upload_file settings env file w).2 in
  db_manager w1 = db_manager w /\
  (files w1 = files w \/
   exists doc, Doc.file_id doc = uuid_str (uuid4 (urandom16 env)) /\
               files w1 = files w ++ [doc]).
Proof.
  cbn zeta. destruct (upload_file settings env file w) as [r w1] eqn:H. frame H.
  split; [done |]. right. eexists. split; [| reflexivity]. reflexivity.
Qed.

Lemma update_file_name_frame env fid name w :
  let w1 := (update_file_name env fid name w).2 in
  db_manager w1 = db_manager w /\
  (files w1 = files w \/
   files w1 = update_first fid (Doc.set_name (_sanitize_filename name)) (files w)).
Proof.
  cbn zeta. destruct (update_file_name env fid name w) as [r w1] eqn:H. frame H.
Qed.

Lemma delete_file_frame env fid w :
  let w1 := (delete_file settings env fid w).2 in
  db_manager w1 = db_manager w /\
  (files w1 = files w \/ files w1 = remove_first fid (files w)).
Proof.
  cbn zeta. destruct (delete_file settings env fid w) as [r w1] eqn:H. frame H.
Qed.

Lemma update_first_ids fid f (l : list Doc.t) :
  (forall d, Doc.file_id (f d) = Doc.file_id d) ->
  Doc.file_id <$> update_first fid f l = Doc.file_id <$> l.
Proof.
  intros Hf. induction l as [|x l IH]; cbn; [done |].
  destruct (has_file_id fid x); cbn; [by rewrite Hf | by rewrite IH].
Qed.

Lemma remove_first_subseteq fid (l : list Doc.t) : remove_first fid l ⊆ l.
Proof.
  induction l as [|x l IH]; cbn; [done |].
  destruct (has_file_id fid x); intros y Hy.
  - by right.
  - apply elem_of_cons in Hy as [-> | Hy]; [by left | right; by apply IH].
Qed.

Lemma absent_ids fid w : absent fid w <-> fid ∉ Doc.file_id <$> files w.
Proof.
  unfold absent. rewrite list_elem_of_fmap. split.
  - intros H (d & Hid & Hd). by apply (H d Hd).
  - intros H d Hd Hid. apply H. by exists d.
Qed.

(** A request leaves an absent id absent, unless it is an upload
    that is given this very id. *)
Lemma serve_absent env r fid w :
  (forall file, r = ReqUpload file -> uuid_str (uuid4 (urandom16 env)) <> fid) ->
  absent fid w ->
  absent fid (serve settings env r w) /\
  db_manager (serve settings env r w) = db_manager w.
Proof.
  intros Hfresh Habs. destruct r as [|file|fid'|fid' name|fid']; cbn [serve].
  - destruct (list_files_frame env w) as [Hm Hf]. split; [| done].
    unfold absent. by rewrite Hf.
  - destruct (upload_file_frame env file w) as [Hm [Hf | (doc & Hid & Hf)]];
      (split; [| done]); unfold absent; rewrite Hf; [done |].
    intros d Hd. apply elem_of_app in Hd as [Hd | Hd]; [by apply Habs |].
    apply list_elem_of_singleton in Hd as ->. rewrite Hid. by eapply Hfresh.
  - destruct (download_file_frame env fid' w) as [Hm Hf]. split; [| done].
    unfold absent. by rewrite Hf.
  - destruct (update_file_name_frame env fid' name w) as [Hm [Hf | Hf]];
      (split; [| done]); [unfold absent; by rewrite Hf |].
    apply absent_ids. rewrite Hf, update_first_ids by done. by apply absent_ids.
  - destruct (delete_file_frame env fid' w) as [Hm [Hf | Hf]];
      (split; [| done]); unfold absent; rewrite Hf; [done |].
    intros d Hd. apply Habs. by apply (remove_first_subseteq fid').
Qed.

Lemma serve_all_absent rs fid w :
  (forall env file, (env, ReqUpload file) ∈ rs ->
                    uuid_str (uuid4 (urandom16 env)) <> fid) ->
  absent fid w ->
  absent fid (serve_all settings rs w) /\
  db_manager (serve_all settings rs w) = db_manager w.
Proof.
  revert w. induction rs as [|[env r] rs IH]; intros w Hfresh Habs; [done |].
  change (serve_all settings ((env, r) :: rs) w)
    with (serve_all settings rs (serve settings env r w)).
  destruct (serve_absent env r fid w) as [Habs' Hm]; [| done |].
  { intros file ->. apply (Hfresh env file). by left. }
  destruct (IH (serve settings env r w)) as [Habs'' Hm']; [| done |].
  { intros env' file Hin. apply (Hfresh env' file). by right. }
  split; [done | by rewrite Hm'].
Qed.

End Frames.

(** ** Delete *)

(** What a successful [delete_file] has done. *)
Lemma delete_file_Return settings env fid w msg w1 :
  delete_file settings env fid w = (Return msg, w1) ->
  exists d,
    truthy fid = true /\
    List.find (has_file_id fid) (files w) = Some d /\
    files w1 = remove_first fid (files w) /\
    bucket w1 = delete fid (bucket w) /\
    db_manager w1 = db_manager w /\
    _mongodb_connected (db_manager w) = true /\
    is_Some (_files_collection (db_manager w)) /\
    trace w1 = trace w ++ [EvFindOne fid;
                           EvRemoveObject (minio_bucket settings) fid;
                           EvDeleteOne fid].
Proof.
  intros H. run_in H. injection H as <- <-.
  eexists. cbn. rewrite <- !app_assoc.
  repeat split; eauto using negb_truthy_false.
Qed.

Lemma remove_first_absent (fid : str) (l : list Doc.t) :
  NoDup (Doc.file_id <$> l) -> fid ∉ Doc.file_id <$> remove_first fid l.
Proof.
  intros Hnd.
  destruct (List.find (has_file_id fid) l) as [d|] eqn:Hfind.
  - destruct (find_first_split fid id l d Hfind) as (pre & suf & -> & Hid & Hpre & _ & ->).
    rewrite fmap_app, fmap_cons in Hnd.
    apply NoDup_app in Hnd as (_ & _ & Hnd). apply NoDup_cons in Hnd as [Hd _].
    rewrite fmap_app, elem_of_app. intros [Hin | Hin].
    + apply list_elem_of_fmap in Hin as (x & Hx & Hin). by apply (Hpre x Hin).
    + by rewrite Hid in Hd.
  - rewrite find_has_file_id_None in Hfind.
    intros Hin. apply list_elem_of_fmap in Hin as (x & Hx & Hin).
    apply (remove_first_subseteq fid) in Hin. by apply (Hfind x Hin).
Qed.

Section NotFound.

Variables (settings : Settings) (env : Env) (fid : str) (w : World).

Hypothesis fid_truthy : truthy fid = true.
Hypothesis connected : _mongodb_connected (db_manager w) = true.
Hypothesis collection_set : is_Some (_files_collection (db_manager w)).

Ltac lookup Hf :=
  destruct collection_set as [c Hc]; unfold_ops; cbn;
  repeat (first [rewrite fid_truthy | rewrite connected | rewrite Hc
                | rewrite Hf | progress cbn]).

Section Absent.

Hypothesis lookup_returns : find_one_raises env = None.
Hypothesis no_record : absent fid w.

Lemma find_absent : List.find (has_file_id fid) (files w) = None.
Proof. by apply find_has_file_id_None. Qed.

Lemma download_file_absent :
  (download_file settings env fid w).1 = Raise not_found.
Proof. lookup lookup_returns. by rewrite find_absent. Qed.

Lemma delete_file_absent :
  (delete_file settings env fid w).1 = Raise not_found.
Proof. lookup lookup_returns. by rewrite find_absent. Qed.

Lemma update_file_name_absent new_name :
  truthy new_name = true ->
  (update_file_name env fid new_name w).1 = Raise not_found.
Proof.
  intros Hname. destruct collection_set as [c Hc]. unfold_ops. cbn.
  rewrite fid_truthy, Hname. cbn. rewrite connected, Hc, lookup_returns. cbn.
  by rewrite find_absent.
Qed.

End Absent.

Section LookupFails.

Variable e : exn.
Hypothesis lookup_raises : find_one_raises env = Some e.

Lemma download_file_lookup_fails :
  (download_file settings env fid w).1 = Raise lookup_failed.
Proof. by lookup lookup_raises. Qed.

Lemma delete_file_lookup_fails :
  (delete_file settings env fid w).1 = Raise lookup_failed.
Proof. by lookup lookup_raises. Qed.

Lemma update_file_name_lookup_fails new_name :
  truthy new_name = true ->
  (update_file_name env fid new_name w).1 = Raise lookup_failed.
Proof.
  intros Hname. destruct collection_set as [c Hc]. unfold_ops. cbn.
  rewrite fid_truthy, Hname. cbn. by rewrite connected, Hc, lookup_raises.
Qed.

End LookupFails.

Lemma update_file_name_empty :
  (update_file_name env fid [] w).1
  = Raise (HTTPException 400 (Msg ("New file name is required"%string : str))).
Proof. unfold_ops. cbn. by rewrite fid_truthy. Qed.

End NotFound.

(** C6, as stated, fails: after a successful delete, a rename of the
    same id with an empty new name is answered with 400, not 404. *)
Lemma rename_after_delete_empty_name_400 :
  let deleted := delete_file small_settings quiet_env stored_id stocked_world in
  deleted.1 = Return ("File deleted successfully"%string : str) /\
  (update_file_name quiet_env stored_id [] deleted.2).1
  = Raise (HTTPException 400 (Msg ("New file name is required"%string : str))) /\
  (400 <> 404).
Proof. cbn zeta. split; [by vm_compute |]. split; [by vm_compute | done]. Qed.

(** C6, amended.  In a collection whose [file_id]s are pairwise
    distinct, after a successful delete of an id and any further
    requests among which no upload is given that id again: a download,
    a delete, and a rename with a non-empty new name of that id are
    answered with 404 when the lookup of the record does not raise, and
    with 500 when it raises; a rename with an empty new name is
    answered with 400. *)
Theorem deleted_file_not_found settings env fid w msg w1 :
  NoDup (Doc.file_id <$> files w) ->
  delete_file settings env fid w = (Return msg, w1) ->
  forall rs : list (Env * request),
    (forall env0 file, (env0, ReqUpload file) ∈ rs ->
                       uuid_str (uuid4 (urandom16 env0)) <> fid) ->
    let w2 := serve_all settings rs w1 in
    forall env',
      (find_one_raises env' = None ->
         (download_file settings env' fid w2).1 = Raise not_found /\
         (delete_file settings env' fid w2).1 = Raise not_found /\
         (forall new_name, truthy new_name = true ->
            (update_file_name env' fid new_name w2).1 = Raise not_found)) /\
      (is_Some (find_one_raises env') ->
         (download_file settings env' fid w2).1 = Raise lookup_failed /\
         (delete_file settings env' fid w2).1 = Raise lookup_failed /\
         (forall new_name, truthy new_name = true ->
            (update_file_name env' fid new_name w2).1 = Raise lookup_failed)) /\
      (update_file_name env' fid [] w2).1
      = Raise (HTTPException 400 (Msg ("New file name is required"%string : str))).
Proof.
  intros Hnd Hdel rs Hfresh w2 env'.
  apply delete_file_Return in Hdel
    as (d & Hfid & _ & Hfiles & _ & Hmgr & Hconn & Hcoll & _).
  assert (Habs1 : absent fid w1).
  { apply absent_ids. rewrite Hfiles. by apply remove_first_absent. }
  destruct (serve_all_absent settings rs fid w1 Hfresh Habs1) as [Habs2 Hmgr2].
  fold w2 in Habs2, Hmgr2.
  assert (Hconn2 : _mongodb_connected (db_manager w2) = true)
    by (by rewrite Hmgr2, Hmgr).
  assert (Hcoll2 : is_Some (_files_collection (db_manager w2)))
    by (by rewrite Hmgr2, Hmgr).
  split; [| split].
  - intros Hf. split; [| split].
    + by apply download_file_absent.
    + by apply delete_file_absent.
    + intros new_name Hname. by apply update_file_name_absent.
  - intros [e He]. split; [| split].
    + by apply (download_file_lookup_fails _ _ _ _ Hfid Hconn2 Hcoll2 e).
    + by apply (delete_file_lookup_fails _ _ _ _ Hfid Hconn2 Hcoll2 e).
    + intros new_name Hname.
      by apply (update_file_name_lookup_fails _ _ _ Hfid Hconn2 Hcoll2 e).
  - by apply update_file_name_empty.
Qed.

Lemma deleted_file_not_found_witness :
  let w1 := (delete_file small_settings quiet_env stored_id stocked_world).2 in
  let w2 := serve_all small_settings
              [(quiet_env, ReqList); (quiet_env, ReqRename stored_id ("b.txt"%string : str))]
              w1 in
  (download_file small_settings quiet_env stored_id w2).1 = Raise not_found.
Proof.
  cbn zeta.
  assert (E : delete_file small_settings quiet_env stored_id stocked_world
              = (Return ("File deleted successfully"%string : str),
                 (delete_file small_settings quiet_env stored_id stocked_world).2))
    by (vm_compute; reflexivity).
  assert (Hnd : NoDup (Doc.file_id <$> files stocked_world)).
  { vm_compute. apply NoDup_cons. split; [apply not_elem_of_nil | apply NoDup_nil_2]. }
  refine (proj1 (proj1 (deleted_file_not_found small_settings quiet_env stored_id
                          stocked_world _ _ Hnd E _ _ quiet_env) eq_refl)).
  intros env0 file Hin.
  apply elem_of_cons in Hin as [Hin | Hin]; [discriminate Hin |].
  apply elem_of_cons in Hin as [Hin | Hin]; [discriminate Hin |].
  apply elem_of_nil in Hin. destruct Hin.
Defined.

Lemma rename_changes_only_name_witness :
  let renamed :=
    update_file_name quiet_env stored_id ("b:c.txt"%string : str) stocked_world in
  renamed.1 = Return ("File name updated successfully"%string : str) /\
  bucket renamed.2 = bucket stocked_world.
Proof.
  cbn zeta.
  assert (E : update_file_name quiet_env stored_id ("b:c.txt"%string : str) stocked_world
              = (Return ("File name updated successfully"%string : str),
                 (update_file_name quiet_env stored_id ("b:c.txt"%string : str)
                    stocked_world).2))
    by (vm_compute; reflexivity).
  split; [by rewrite E |].
  destruct (rename_changes_only_name _ _ _ _ _ _ E) as (pre & d & suf & H).
  cbn zeta in H. apply H.
Defined.

(** ** Order of the two writes of an upload *)

(** C10.  In every run of [upload_file] the calls it issues to the
    stores are: none, or [put_object] alone, or [put_object] followed
    by [insert_one]; so the bytes are written before the record is
    inserted.  When [insert_one] is issued and raises, the upload
    raises a 500, the collection is as before (no record with the new
    [file_id] if there was none) and the object is in the bucket.  A
    record is added only together with its object. *)
Theorem upload_put_before_insert settings env file w r w1 :
  upload_file settings env file w = (r, w1) ->
  let fid := uuid_str (uuid4 (urandom16 env)) in
  let b := minio_bucket settings in
  exists evs,
    trace w1 = trace w ++ evs /\
    (evs = [] \/
     exists c, evs = [EvPutObject b fid c] \/
               evs = [EvPutObject b fid c; EvInsertOne fid]) /\
    (EvInsertOne fid ∈ evs -> is_Some (insert_one_raises env) ->
       (exists d, r = Raise (HTTPException 500 d)) /\
       files w1 = files w /\
       (absent fid w -> absent fid w1) /\
       is_Some (bucket w1 !! fid)) /\
    (files w1 = files w \/
     exists doc, r = Return doc /\ files w1 = files w ++ [doc] /\
                 Doc.file_id doc = fid /\ is_Some (bucket w1 !! fid)).
Proof.
  intros H. cbn zeta. run_in H; injection H as <- <-; cbn.
  all: try (exists []; split; [by rewrite app_nil_r |];
            split; [by left |]; split; [| by left];
            intros Hin; by apply elem_of_nil in Hin).
  all: rewrite <- ?app_assoc; eexists; (split; [reflexivity |]).
  all: split; [right; eexists; first [by left | by right] |].
  all: try (split; [| by left]).
  all: try (intros Hin; exfalso;
            apply elem_of_cons in Hin as [Hin | Hin]; [discriminate Hin |];
            by apply elem_of_nil in Hin).
  all: try (intros _ _; split; [by eexists |]; split; [done |];
            split; [done |]; rewrite lookup_insert_eq; by eexists).
  split.
  - intros _ [e' He]. congruence.
  - right. eexists. split; [reflexivity |]. split; [reflexivity |].
    split; [reflexivity |]. rewrite lookup_insert_eq. by eexists.
Qed.

Lemma upload_put_before_insert_witness :
  let uploaded :=
    upload_file small_settings insert_failing_env (text_upload two_bytes)
      fresh_world in
  (exists d, uploaded.1 = Raise (HTTPException 500 d)) /\
  files uploaded.2 = [] /\
  is_Some (bucket uploaded.2 !! stored_id).
Proof.
  cbn zeta.
  destruct (upload_put_before_insert small_settings insert_failing_env
              (text_upload two_bytes) fresh_world _ _ (surjective_pairing _))
    as (evs & Htr & _ & Hfail & _).
  vm_compute in Htr. subst evs.
  destruct Hfail as (Hd & Hfiles & _ & Hobj).
  - apply elem_of_cons. right. apply elem_of_cons. left. vm_compute. reflexivity.
  - eexists. reflexivity.
  - split; [exact Hd |]. split; [exact Hfiles | exact Hobj].
Defined.

(** ** The health check *)

Ltac unfold_health :=
  unfold health_endpoint, health_check, minio.list_buckets, _cleanup_mongodb,
    _cleanup_minio, disconnected,
    bind, ret, raise, try_except, emit, may_raise, get_manager,
    modify_manager in *.

(** [health_check] never raises, and its overall verdict is the
    disjunction of the two per-store verdicts. *)
Lemma health_check_overall env w :
  exists h w',
    health_check env w = (Return h, w') /\
    Health.healthy (Health.overall h)
    = Health.connected (Health.mongodb h) || Health.connected (Health.minio h) /\
    Health.overall_status (Health.overall h)
    = (if Health.healthy (Health.overall h) then ("healthy"%string : str)
       else ("unhealthy"%string : str)).
Proof.
  destruct (health_check env w) as [r w'] eqn:H.
  unfold_health. cbn in H. repeat case_step H.
  all: injection H as <- <-; eexists _, _; split; [reflexivity |]; by cbn.
Qed.

(** [/health] answers 200 and [healthy] as soon as one store responds,
    and 503 and [degraded] otherwise. *)
Lemma health_endpoint_status env w :
  exists resp w',
    health_endpoint env w = (Return resp, w') /\
    HealthResponse.status_code resp
    = (if mongodb_responds env w || minio_responds env w then 200 else 503) /\
    HealthResponse.status resp
    = (if mongodb_responds env w || minio_responds env w
       then ("healthy"%string : str) else ("degraded"%string : str)).
Proof.
  destruct (health_endpoint env w) as [r w'] eqn:H.
  unfold mongodb_responds, minio_responds.
  unfold_health. cbn in H. repeat case_step H.
  all: injection H as <- <-; eexists _, _; split; [reflexivity |].
  all: cbn; repeat case_bool_decide; try done; cbn; by rewrite ?orb_false_r, ?andb_false_r.
Qed.

(** C1.  What [/health] answers when exactly one store is connected
    and responds, and when none is: with only MongoDB, and with only
    MinIO, the answer is 200 with status [healthy]; with neither it is
    503 with status [degraded].  The specification asks for [degraded]
    in the first two cases and for [unhealthy] in the third. *)
Theorem health_endpoint_one_store_reports_healthy :
  (health_endpoint quiet_env (world_of mongodb_only_manager)).1
  = Return (healthy_response "healthy" "disconnected") /\
  (health_endpoint quiet_env (world_of minio_only_manager)).1
  = Return (healthy_response "disconnected" "healthy") /\
  (health_endpoint quiet_env (world_of DatabaseManager_init)).1
  = Return (degraded_response "disconnected" "disconnected").
Proof. repeat split; vm_compute; reflexivity. Qed.

(** ** The startup connection routine *)

Lemma marks_app t1 t2 : marks (t1 ++ t2) = marks t1 ++ marks t2.
Proof. apply List.filter_app. Qed.

Ltac unfold_connect :=
  unfold connect_to_mongodb, connect_to_minio, _ensure_minio_bucket_exists,
    minio.list_buckets, minio.make_bucket, _cleanup_mongodb, _cleanup_minio,
    bind, ret, raise, try_except, emit, may_raise, get_manager,
    modify_manager in *.

Lemma connect_to_mongodb_spec env w :
  exists w',
    connect_to_mongodb env w = (Return (mongodb_connects env), w') /\
    marks (trace w') = marks (trace w) ++ [EvConnecting MongoDB].
Proof.
  destruct (connect_to_mongodb env w) as [r w'] eqn:H.
  unfold mongodb_connects. unfold_connect. cbn in H. repeat case_step H.
  all: injection H as <- <-; eexists; split; [reflexivity |].
  all: cbn; rewrite ?marks_app; cbn; by rewrite ?app_nil_r.
Qed.

Lemma connect_to_minio_spec settings env w :
  exists w',
    connect_to_minio settings env w = (Return (minio_connects settings env), w') /\
    marks (trace w') = marks (trace w) ++ [EvConnecting MinIO].
Proof.
  destruct (connect_to_minio settings env w) as [r w'] eqn:H.
  unfold minio_connects, already_owned. unfold_connect. cbn in H.
  repeat case_step H.
  all: injection H as <- <-; eexists; split; [reflexivity |].
  all: cbn; rewrite ?marks_app; cbn; by rewrite ?app_nil_r.
Qed.

Section Retry.

Variables (connect : Env -> M bool) (s : store) (ok : Env -> bool).

Hypothesis connect_spec : forall env w,
  exists w',
    connect env w = (Return (ok env), w') /\
    marks (trace w') = marks (trace w) ++ [EvConnecting s].

Lemma schedule_cons d first n :
  schedule s d first (S n)
  = (if (0 <? first)%nat then [EvSleep (delay_before d first)] else [])
      ++ [EvConnecting s] ++ schedule s d (S first) n.
Proof. unfold schedule. cbn [seq flat_map]. by rewrite <- app_assoc. Qed.

Lemma retry_loop_spec envs d : forall remaining attempt result w,
  let n := attempts_made (fun k => ok (envs k)) attempt remaining in
  exists res w',
    retry_loop connect envs d attempt remaining result w = (Return res, w') /\
    marks (trace w') = marks (trace w) ++ schedule s d attempt n /\
    ConnResult.attempts res
    = (if n is O then ConnResult.attempts result else Z.of_nat (attempt + n)) /\
    ConnResult.success res
    = ConnResult.success result
      || existsb (fun k => ok (envs k)) (seq attempt remaining).
Proof.
  induction remaining as [|remaining IH]; intros attempt result w; cbn zeta.
  - exists result, w. cbn. rewrite app_nil_r, orb_false_r. by repeat split.
  - cbn [attempts_made existsb seq].
    set (w0 := if 0 <? Z.of_nat attempt
               then with_trace (trace w ++ [EvSleep (delay_before d attempt)]) w
               else w).
    assert (Hw0 : marks (trace w0)
                  = marks (trace w)
                    ++ (if (0 <? attempt)%nat
                        then [EvSleep (delay_before d attempt)] else [])).
    { unfold w0.
      destruct (Z.ltb_spec 0 (Z.of_nat attempt)), (Nat.ltb_spec 0 attempt);
        try lia.
      - cbn [trace with_trace]. rewrite marks_app. reflexivity.
      - by rewrite app_nil_r. }
    destruct (connect_spec (envs attempt) w0) as (w1 & Hconn & Hw1).
    assert (Hrun : retry_loop connect envs d attempt (S remaining) result w
                   = if ok (envs attempt)
                     then (Return {| ConnResult.success := true;
                                     ConnResult.attempts := Z.of_nat attempt + 1;
                                     ConnResult.error := ConnResult.error result |},
                           w1)
                     else retry_loop connect envs d (S attempt) remaining
                            {| ConnResult.success := ConnResult.success result;
                               ConnResult.attempts := Z.of_nat attempt + 1;
                               ConnResult.error := ConnResult.error result |} w1).
    { cbn [retry_loop]. unfold bind at 1.
      unfold delay_before in w0.
      replace ((if 0 <? Z.of_nat attempt
                then emit (EvSleep (d * inject_Z (2 ^ (Z.of_nat attempt - 1))))
                else ret ()) w) with (Return (), w0)
        by (unfold w0; by destruct (0 <? Z.of_nat attempt)).
      unfold bind at 1. unfold try_except at 1. unfold bind at 1.
      rewrite Hconn. unfold ret at 1.
      by destruct (ok (envs attempt)). }
    rewrite Hrun.
    destruct (ok (envs attempt)) eqn:Hok; rewrite schedule_cons.
    + eexists _, w1. split; [reflexivity |].
      rewrite Hw1, Hw0, <- !app_assoc. cbn [ConnResult.attempts ConnResult.success].
      rewrite orb_true_r. split; [| split; [lia | reflexivity]].
      unfold schedule. cbn [seq flat_map]. by rewrite app_nil_r.
    + destruct (IH (S attempt)
                  {| ConnResult.success := ConnResult.success result;
                     ConnResult.attempts := Z.of_nat attempt + 1;
                     ConnResult.error := ConnResult.error result |} w1)
        as (res & w' & Hloop & Hmarks & Hatt & Hsucc).
      exists res, w'. split; [exact Hloop |]. cbn zeta in *.
      rewrite Hmarks, Hw1, Hw0, <- !app_assoc. split; [done |].
      split; [| by rewrite Hsucc].
      rewrite Hatt. cbn.
      destruct (attempts_made _ (S attempt) remaining); cbn; f_equal; lia.
Qed.

Lemma attempts_made_le (oks : nat -> bool) remaining : forall attempt,
  (attempts_made oks attempt remaining <= remaining)%nat.
Proof.
  induction remaining as [|remaining IH]; intros attempt; cbn; [lia |].
  destruct (oks attempt); [lia |]. specialize (IH (S attempt)). lia.
Qed.

Lemma attempts_made_pos (oks : nat -> bool) remaining attempt :
  (0 < remaining -> 1 <= attempts_made oks attempt remaining)%nat.
Proof. destruct remaining; cbn; [lia |]. destruct (oks attempt); lia. Qed.

End Retry.

Lemma attempts_from_zero (n : nat) :
  (if n is O then ConnResult.attempts no_result else Z.of_nat (0 + n)) = Z.of_nat n.
Proof. by destruct n. Qed.

(** C8.  With [N] the effective [max_retries] and [d] the effective
    initial delay, both within the bounds that [Settings] declares,
    [connect_with_retry] returns.  It makes on MongoDB the attempts
    numbered [1 .. nm], where [nm <= N] is [N] or the number of the
    first attempt that succeeds, then on MinIO the attempts [1 .. nn]
    likewise; before attempt [k + 1] (for [k >= 1]) and before no
    other it sleeps [d * 2 ^ (k - 1)]; and MinIO is attempted at least
    once, whatever happened with MongoDB. *)
Theorem connect_with_retry_schedule
    (settings : Settings) (mongodb_envs minio_envs : nat -> Env)
    (max_retries : option Z) (initial_delay : option Q) (w : World) :
  within_retry_bounds (or_int max_retries (db_max_retries settings))
    (or_float initial_delay (db_retry_delay settings)) ->
  let N := Z.to_nat (or_int max_retries (db_max_retries settings)) in
  let d := or_float initial_delay (db_retry_delay settings) in
  let nm := attempts_made (fun k => mongodb_connects (mongodb_envs k)) 0 N in
  let nn := attempts_made (fun k => minio_connects settings (minio_envs k)) 0 N in
  exists mongodb minio w',
    connect_with_retry settings mongodb_envs minio_envs max_retries initial_delay w
    = (Return (mongodb, minio), w') /\
    marks (trace w')
    = marks (trace w) ++ schedule MongoDB d 0 nm ++ schedule MinIO d 0 nn /\
    ConnResult.attempts mongodb = Z.of_nat nm /\
    ConnResult.attempts minio = Z.of_nat nn /\
    (1 <= nm <= N)%nat /\ (1 <= nn <= N)%nat /\
    ConnResult.success mongodb
    = existsb (fun k => mongodb_connects (mongodb_envs k)) (seq 0 N) /\
    ConnResult.success minio
    = existsb (fun k => minio_connects settings (minio_envs k)) (seq 0 N).
Proof.
  intros (HN & _). cbn zeta. unfold connect_with_retry. revert HN.
  set (N := Z.to_nat _). set (d := or_float _ _). intros HN.
  assert (HN' : (0 < N)%nat) by (unfold N; lia).
  destruct (retry_loop_spec connect_to_mongodb MongoDB mongodb_connects
              connect_to_mongodb_spec mongodb_envs d N 0%nat no_result w)
    as (rm & w1 & Hm & Hmarks1 & Hatt1 & Hsucc1).
  destruct (retry_loop_spec (connect_to_minio settings) MinIO
              (minio_connects settings) (connect_to_minio_spec settings)
              minio_envs d N 0%nat no_result w1)
    as (rn & w2 & Hn & Hmarks2 & Hatt2 & Hsucc2).
  cbn zeta in *.
  exists rm, rn, w2. split.
  { unfold bind at 1. rewrite Hm. unfold bind at 1. rewrite Hn. reflexivity. }
  split; [by rewrite Hmarks2, Hmarks1, <- app_assoc |].
  split; [rewrite Hatt1; apply attempts_from_zero |].
  split; [rewrite Hatt2; apply attempts_from_zero |].
  split; [split; [by apply attempts_made_pos | apply attempts_made_le] |].
  split; [split; [by apply attempts_made_pos | apply attempts_made_le] |].
  by rewrite Hsucc1, Hsucc2.
Qed.

Lemma connect_with_retry_schedule_witness :
  exists mongodb minio w',
    connect_with_retry default_settings (fun _ => failing_env) (fun _ => quiet_env)
      None None initial_world
    = (Return (mongodb, minio), w') /\
    ConnResult.attempts mongodb = 3 /\ ConnResult.attempts minio = 1.
Proof.
  destruct (connect_with_retry_schedule default_settings (fun _ => failing_env)
              (fun _ => quiet_env) None None initial_world)
    as (rm & rn & w' & Hrun & _ & Hm & Hn & _).
  - split; [vm_compute; split; discriminate |].
    split; vm_compute; discriminate.
  - exists rm, rn, w'. split; [exact Hrun |]. split; [exact Hm | exact Hn].
Defined.

(** The waits double from one attempt to the next. *)
Lemma delay_before_doubles (d : Q) (k : nat) :
  (1 <= k)%nat -> (delay_before d (S k) == 2 * delay_before d k)%Q.
Proof.
  intros Hk. unfold delay_before.
  replace (Z.of_nat (S k) - 1) with (Z.succ (Z.of_nat k - 1)) by lia.
  rewrite Z.pow_succ_r by lia. rewrite inject_Z_mult.
  change (inject_Z 2) with 2%Q. ring_simplify. reflexivity.
Qed.

Lemma delay_before_first (d : Q) : (delay_before d 1 == d)%Q.
Proof.
  unfold delay_before. change (inject_Z (2 ^ (Z.of_nat 1 - 1))) with 1%Q.
  ring_simplify. reflexivity.
Qed.

(** MongoDB never answers and MinIO answers at once: three attempts on
    the first store, with waits of one and two times the initial
    delay, then one attempt on the second. *)
Example connect_with_retry_mongodb_down :
  marks (trace (connect_with_retry default_settings
                  (fun _ => failing_env) (fun _ => quiet_env) None None
                  initial_world).2)
  = [EvConnecting MongoDB;
     EvSleep (delay_before 1 1); EvConnecting MongoDB;
     EvSleep (delay_before 1 2); EvConnecting MongoDB;
     EvConnecting MinIO].
Proof. vm_compute. reflexivity. Qed.

(** * Further properties *)

(** * Further properties *)

(** ** Slices, [rfind] and [replace] *)

Lemma len_nonneg (s : str) : 0 <= len s.
Proof. unfold len. lia. Qed.

Lemma len_app (s t : str) : len (s ++ t) = len s + len t.
Proof. unfold len. rewrite length_app. lia. Qed.

Lemma clamp_in_range (n i : Z) : 0 <= i <= n -> clamp n i = Z.to_nat i.
Proof.
  intros Hi. unfold clamp.
  destruct (Z.ltb_spec i 0); [lia |]. f_equal. lia.
Qed.

Lemma slice_from_app (p q : str) : slice_from (len p) (p ++ q) = q.
Proof.
  unfold slice_from. rewrite clamp_in_range.
  - unfold len. rewrite Nat2Z.id. apply drop_app_length.
  - rewrite len_app. pose proof (len_nonneg p). pose proof (len_nonneg q). lia.
Qed.

Lemma slice_to_app (p q : str) : slice_to (len p) (p ++ q) = p.
Proof.
  unfold slice_to. rewrite clamp_in_range.
  - unfold len. rewrite Nat2Z.id. apply take_app_length.
  - rewrite len_app. pose proof (len_nonneg p). pose proof (len_nonneg q). lia.
Qed.

Lemma slice_from_0 (s : str) : slice_from 0 s = s.
Proof.
  unfold slice_from. rewrite clamp_in_range by (pose proof (len_nonneg s); lia).
  apply drop_0.
Qed.

Lemma slice_to_from (k : Z) (s : str) : slice_to k s ++ slice_from k s = s.
Proof. unfold slice_to, slice_from. apply take_drop. Qed.

Lemma rfind_from_absent c (s : str) i acc : c ∉ s -> rfind_from c s i acc = acc.
Proof.
  revert i acc. induction s as [|x s IH]; intros i acc Hc; cbn; [done |].
  apply not_elem_of_cons in Hc as [Hx Hs].
  rewrite bool_decide_eq_false_2 by congruence. by apply IH.
Qed.

Lemma rfind_from_app c (p q : str) i acc :
  rfind_from c (p ++ q) i acc = rfind_from c q (i + len p) (rfind_from c p i acc).
Proof.
  revert i acc. induction p as [|x p IH]; intros i acc.
  - cbn. f_equal. unfold len. cbn. lia.
  - rewrite <- app_comm_cons. cbn [rfind_from]. rewrite IH. f_equal.
    unfold len. cbn [List.length]. lia.
Qed.

Lemma rfind_last c (p q : str) : c ∉ q -> rfind c (p ++ c :: q) = len p.
Proof.
  intros Hq. unfold rfind. rewrite rfind_from_app. cbn [rfind_from].
  rewrite bool_decide_eq_true_2 by done. rewrite rfind_from_absent by done. lia.
Qed.

Lemma rfind_absent c (s : str) : c ∉ s -> rfind c s = -1.
Proof. intros Hs. unfold rfind. by apply rfind_from_absent. Qed.

(** [rfind] finds the last occurrence, or answers [-1]. *)
Lemma rfind_spec c (s : str) :
  (rfind c s = (-1) /\ (c ∉ s)) \/
  (exists p q, s = p ++ c :: q /\ rfind c s = len p /\ (c ∉ q)).
Proof.
  destruct (decide (c ∈ s)) as [Hin | Hnot].
  - right. apply list_elem_of_split_r in Hin as (p & q & -> & Hq).
    exists p, q. split; [done |]. split; [by apply rfind_last | done].
  - left. split; [by apply rfind_absent | done].
Qed.

Lemma replace_absent old new (s : str) : old ∉ s -> replace old new s = s.
Proof.
  intros Hs. unfold replace. induction s as [|x s IH]; cbn; [done |].
  apply not_elem_of_cons in Hs as [Hx Hs].
  rewrite bool_decide_eq_false_2 by congruence. by rewrite IH.
Qed.

Lemma replace_all_id new (olds : list ascii) (s : str) :
  (forall c, c ∈ olds -> c ∉ s) ->
  foldl (fun fn char => replace char new fn) s olds = s.
Proof.
  induction olds as [|o olds IH]; intros Hs; cbn; [done |].
  rewrite replace_absent by (apply Hs; by left).
  apply IH. intros c Hc. apply Hs. by right.
Qed.

Lemma basename_no_slash (s : str) : "/"%char ∉ s -> posixpath.basename s = s.
Proof.
  intros Hs. unfold posixpath.basename. rewrite rfind_absent by done.
  apply slice_from_0.
Qed.

Lemma basename_last_component (dir name : str) :
  "/"%char ∉ name -> posixpath.basename (dir ++ "/"%char :: name) = name.
Proof.
  intros Hn. unfold posixpath.basename. rewrite rfind_last by done.
  replace (len dir + 1) with (len (dir ++ ["/"%char])) by (rewrite len_app; reflexivity).
  rewrite (cons_middle "/"%char dir name), app_assoc. apply slice_from_app.
Qed.

Lemma sanitize_unfold (filename : str) :
  _sanitize_filename filename
  = if truthy filename then
      if 255 <? len (clean_name filename) then
        slice_to (255 - len (posixpath.splitext (clean_name filename)).2)
                 (posixpath.splitext (clean_name filename)).1
        ++ (posixpath.splitext (clean_name filename)).2
      else clean_name filename
    else ("unnamed_file"%string : str).
Proof.
  unfold _sanitize_filename, clean_name.
  destruct (truthy filename); cbn [negb]; [| reflexivity].
  destruct (255 <? _); [| reflexivity].
  by destruct (posixpath.splitext _).
Qed.

(** X1.  A non-empty filename that holds none of the dangerous
    characters and is at most 255 characters long is returned as it
    is. *)
Theorem sanitize_filename_fixed_point (filename : str) :
  truthy filename = true ->
  (forall c, c ∈ dangerous_chars -> c ∉ filename) ->
  len filename <= 255 ->
  _sanitize_filename filename = filename.
Proof.
  intros Hne Hclean Hlen. rewrite sanitize_unfold, Hne.
  assert (Hc : clean_name filename = filename).
  { unfold clean_name. rewrite basename_no_slash.
    - by apply replace_all_id.
    - apply Hclean. unfold dangerous_chars. rewrite !elem_of_cons. tauto. }
  rewrite Hc. by destruct (Z.ltb_spec 255 (len filename)); [lia |].
Qed.

Lemma sanitize_filename_fixed_point_witness :
  _sanitize_filename ("test_file.txt"%string : str) = ("test_file.txt"%string : str).
Proof.
  apply sanitize_filename_fixed_point.
  - reflexivity.
  - intros c Hc. apply (bool_decide_unpack _).
    revert c Hc. apply Forall_forall. apply (bool_decide_unpack _). by vm_compute.
  - by vm_compute.
Defined.

(** X2.  Directory components are dropped: for a last component
    [name] without a slash, the sanitized [dir/name] is the sanitized
    [name]; when [name] is empty, so that the filename ends with a
    slash, the result is the empty string and not [unnamed_file]. *)
Theorem sanitize_filename_strips_directories (dir name : str) :
  "/"%char ∉ name ->
  _sanitize_filename (dir ++ "/"%char :: name)
  = if truthy name then _sanitize_filename name else [].
Proof.
  intros Hn. rewrite !sanitize_unfold.
  assert (Hc : clean_name (dir ++ "/"%char :: name) = clean_name name).
  { unfold clean_name. by rewrite basename_last_component, basename_no_slash. }
  rewrite Hc.
  replace (truthy (dir ++ "/"%char :: name)) with true by (by destruct dir).
  destruct name as [|x name]; [reflexivity |].
  reflexivity.
Qed.

Lemma sanitize_filename_strips_directories_witness :
  _sanitize_filename ("/path/to/file.txt"%string : str)
  = _sanitize_filename ("file.txt"%string : str).
Proof.
  apply (sanitize_filename_strips_directories
           ("/path/to"%string : str) ("file.txt"%string : str)).
  apply (bool_decide_unpack _). by vm_compute.
Defined.

(** ** [splitext] *)

Lemma slice_to_0 (s : str) : slice_to 0 s = [].
Proof.
  unfold slice_to. rewrite clamp_in_range by (pose proof (len_nonneg s); lia).
  apply take_0.
Qed.

Lemma splitext_app (p : str) :
  (posixpath.splitext p).1 ++ (posixpath.splitext p).2 = p.
Proof.
  unfold posixpath.splitext. destruct (_ && _); cbn [fst snd].
  - apply slice_to_from.
  - by rewrite slice_to_0, app_nil_r.
Qed.

(** The extension is empty, or a dot followed by characters that are
    not dots. *)
Lemma splitext_ext (p : str) :
  (posixpath.splitext p).2 = [] \/
  exists r, (posixpath.splitext p).2 = "."%char :: r /\ ("."%char ∉ r).
Proof.
  unfold posixpath.splitext.
  destruct (rfind "/" p <? rfind "." p) eqn:Hlt; cbn [andb];
    [| left; cbn [snd]; apply slice_to_0].
  destruct (posixpath.has_stem _ _ _); cbn [snd]; [| left; apply slice_to_0].
  right. apply Z.ltb_lt in Hlt.
  destruct (rfind_spec "." p) as [[Hr _] | (a & q & Hp & Hr & Hq)].
  - destruct (rfind_spec "/" p) as [[Hs _] | (a' & q' & _ & Hs & _)];
      [lia | pose proof (len_nonneg a'); lia].
  - exists q. split; [| done]. rewrite Hr. rewrite Hp. apply slice_from_app.
Qed.

Lemma len_splitext (p : str) :
  len (posixpath.splitext p).1 + len (posixpath.splitext p).2 = len p.
Proof. rewrite <- len_app. by rewrite splitext_app. Qed.

Lemma len_slice_to (k : Z) (s : str) : 0 <= k <= len s -> len (slice_to k s) = k.
Proof.
  intros Hk. unfold slice_to. rewrite clamp_in_range by done.
  unfold len in *. rewrite length_take. lia.
Qed.

(** X3.  When the extension of the cleaned name is at most 255
    characters long, the sanitized name is at most 255 characters
    long; and when the cleaned name is longer than that, the sanitized
    name has exactly 255 characters and still ends with that
    extension. *)
Theorem sanitize_filename_length (filename : str) :
  len (posixpath.splitext (clean_name filename)).2 <= 255 ->
  len (_sanitize_filename filename) <= 255 /\
  (truthy filename = true -> 255 < len (clean_name filename) ->
   len (_sanitize_filename filename) = 255 /\
   exists stem,
     _sanitize_filename filename
     = stem ++ (posixpath.splitext (clean_name filename)).2).
Proof.
  intros Hext. rewrite sanitize_unfold.
  destruct (truthy filename); [| split; [by vm_compute | discriminate]].
  pose proof (len_splitext (clean_name filename)) as Hsum.
  pose proof (len_nonneg (posixpath.splitext (clean_name filename)).1) as H1.
  pose proof (len_nonneg (posixpath.splitext (clean_name filename)).2) as H2.
  destruct (Z.ltb_spec 255 (len (clean_name filename))) as [Hlong | Hshort].
  - assert (Hlen : len (slice_to (255 - len (posixpath.splitext (clean_name filename)).2)
                          (posixpath.splitext (clean_name filename)).1
                        ++ (posixpath.splitext (clean_name filename)).2) = 255).
    { rewrite len_app, len_slice_to by lia. lia. }
    split; [lia |]. intros _ _. split; [exact Hlen |]. by eexists.
  - split; [exact Hshort | intros _ Hlong; lia].
Qed.

Lemma sanitize_filename_length_witness :
  len (_sanitize_filename (repeat "a"%char 300 ++ (".txt"%string : str))) <= 255.
Proof.
  apply sanitize_filename_length. by vm_compute.
Defined.

(** The bound needs its premise: an extension longer than 255
    characters is kept whole. *)
Example sanitize_filename_long_extension :
  len (_sanitize_filename (("a."%string : str) ++ repeat "b"%char 300)) = 301.
Proof. by vm_compute. Qed.

(** ** [strip], [split] and the allow-list *)

Lemma lstrip_cases (s : str) :
  lstrip s = [] \/ exists x r, lstrip s = x :: r /\ is_space x = false.
Proof.
  induction s as [|x s IH]; cbn [lstrip]; [by left |].
  destruct (is_space x) eqn:Hx; [exact IH |].
  right. by exists x, s.
Qed.

Lemma lstrip_nonspace (x : ascii) (r : str) :
  is_space x = false -> lstrip (x :: r) = x :: r.
Proof. intros Hx. cbn [lstrip]. by rewrite Hx. Qed.

Lemma lstrip_idem (s : str) : lstrip (lstrip s) = lstrip s.
Proof.
  destruct (lstrip_cases s) as [-> | (x & r & -> & Hx)]; [done |].
  by apply lstrip_nonspace.
Qed.

Lemma lstrip_snoc (l : str) (x : ascii) :
  is_space x = false -> lstrip (l ++ [x]) = lstrip l ++ [x].
Proof.
  intros Hx. induction l as [|y l IH].
  - rewrite app_nil_l. cbn [lstrip]. by rewrite Hx.
  - rewrite <- app_comm_cons. cbn [lstrip]. by destruct (is_space y).
Qed.

Lemma lstrip_elem (s : str) (x : ascii) : x ∈ lstrip s -> x ∈ s.
Proof.
  induction s as [|y s IH]; cbn [lstrip]; [done |].
  destruct (is_space y); [| done]. intros Hx. right. by apply IH.
Qed.

Lemma strip_elem (s : str) (x : ascii) : x ∈ strip s -> x ∈ s.
Proof.
  unfold strip. rewrite elem_of_reverse. intros Hx.
  apply lstrip_elem in Hx. rewrite elem_of_reverse in Hx. by apply lstrip_elem.
Qed.

(** What [strip] returns is empty, or starts with a character that is
    not white space and is of the form shown. *)
Lemma strip_cases (s : str) :
  strip s = [] \/
  exists x r, is_space x = false /\
              strip s = x :: reverse (lstrip (reverse r)).
Proof.
  unfold strip.
  destruct (lstrip_cases s) as [-> | (x & r & -> & Hx)]; [by left |].
  right. exists x, r. split; [done |].
  by rewrite reverse_cons, lstrip_snoc, reverse_app.
Qed.

Lemma strip_idem (s : str) : strip (strip s) = strip s.
Proof.
  destruct (strip_cases s) as [-> | (x & r & Hx & ->)]; [done |].
  unfold strip. rewrite lstrip_nonspace by done.
  rewrite reverse_cons, reverse_involutive, lstrip_snoc by done.
  by rewrite lstrip_idem, reverse_app.
Qed.

Lemma split_acc_pieces sep (s cur piece : str) :
  sep ∉ cur -> piece ∈ split_acc sep s cur -> sep ∉ piece.
Proof.
  revert cur. induction s as [|x s IH]; intros cur Hcur; cbn [split_acc].
  - intros ->%list_elem_of_singleton. by rewrite elem_of_reverse.
  - case_bool_decide as Hx.
    + intros [-> | Hin]%elem_of_cons.
      * by rewrite elem_of_reverse.
      * apply (IH []); [apply not_elem_of_nil | done].
    + apply IH. apply not_elem_of_cons. split; [congruence | done].
Qed.

(** X4.  Every entry of the allow-list is non-empty, holds no comma
    and has no white space at either end. *)
Theorem allowed_file_types_list_entries (settings : Settings) (entry : str) :
  entry ∈ allowed_file_types_list settings ->
  truthy entry = true /\ (","%char ∉ entry) /\ strip entry = entry.
Proof.
  unfold allowed_file_types_list. case_bool_decide as Hall.
  - intros ->%list_elem_of_singleton. split; [done |].
    split; [apply (bool_decide_unpack _); by vm_compute | by vm_compute].
  - intros (ft & Hft & Hentry)%list_elem_of_omap.
    destruct (truthy (strip ft)) eqn:Hne; [| discriminate].
    injection Hentry as <-. split; [done |]. split; [| apply strip_idem].
    intros Hc. apply strip_elem in Hc. revert Hc.
    apply (split_acc_pieces _ (allowed_file_types settings) []);
      [apply not_elem_of_nil | done].
Qed.

Lemma allowed_file_types_list_entries_witness :
  strip ("text/plain"%string : str) = ("text/plain"%string : str).
Proof.
  apply (allowed_file_types_list_entries small_settings).
  apply (bool_decide_unpack _). by vm_compute.
Defined.

(** X5.  [_validate_file_type] returns exactly for the non-empty
    content types that the rule of the allow-list allows; for every
    other content type it raises a 400; it never changes the world. *)
Theorem validate_file_type_accepts_iff
    (settings : Settings) (content_type : str) (w : World) :
  ((truthy content_type = true /\
    type_allowed content_type (allowed_file_types_list settings))
   <-> _validate_file_type settings content_type w = (Return tt, w)) /\
  (_validate_file_type settings content_type w = (Return tt, w) \/
   exists d,
     _validate_file_type settings content_type w
     = (Raise (HTTPException 400 d), w)).
Proof.
  rewrite <- is_allowed_spec. unfold _validate_file_type.
  destruct (truthy content_type); cbn [negb].
  - destruct (is_allowed _ _); cbn [negb].
    + split; [by split | by left].
    + split; [split; [by intros [_ ?] | discriminate] | right; by eexists].
  - split; [split; [by intros [? _] | discriminate] | right; by eexists].
Qed.

(** ** When the operations of the file service succeed *)

Lemma pair_eta_l {A B} (p : A * B) (a : A) : p.1 = a -> p = (a, p.2).
Proof. intros <-. by destruct p. Qed.

Lemma negb_false_true (b : bool) : negb b = false -> b = true.
Proof. by destruct b. Qed.

Lemma world_eq (w : World) m fs b t :
  db_manager w = m -> files w = fs -> bucket w = b -> trace w = t ->
  w = {| db_manager := m; files := fs; bucket := b; trace := t |}.
Proof. destruct w. cbn. by intros -> -> -> ->. Qed.

Lemma upload_file_inv settings env file w doc w1 :
  upload_file settings env file w = (Return doc, w1) ->
  exists content,
    truthy (or_empty (UploadFile.filename file)) = true /\
    truthy (or_empty (UploadFile.content_type file)) = true /\
    type_allowed (or_empty (UploadFile.content_type file))
      (allowed_file_types_list settings) /\
    UploadFile.read file = Return content /\
    Z.of_nat (List.length content) <= max_file_size settings /\
    minio_ready w /\ put_object_raises env = None /\
    mongodb_ready w /\ insert_one_raises env = None /\
    doc = uploaded_doc env file content /\
    w1 = {| db_manager := db_manager w;
            files := files w ++ [doc];
            bucket := <[Doc.file_id doc :=
                          {| Obj.data := content;
                             Obj.content_type := UploadFile.content_type file |}]>
                        (bucket w);
            trace := trace w ++ [EvPutObject (minio_bucket settings)
                                   (Doc.file_id doc) content;
                                 EvInsertOne (Doc.file_id doc)] |}.
Proof.
  intros H. run_in H. injection H as <- <-.
  eexists. rewrite <- is_allowed_spec.
  repeat (split; [eauto using negb_false_true; fail |]).
  split; [by apply Z.ltb_ge |].
  split; [split; eauto |]. split; [done |].
  split; [split; eauto |]. split; [done |]. split; [reflexivity |].
  apply world_eq; cbn; try reflexivity. by rewrite <- app_assoc.
Qed.

Lemma upload_file_run settings env file w doc w1 :
  (exists content,
    truthy (or_empty (UploadFile.filename file)) = true /\
    truthy (or_empty (UploadFile.content_type file)) = true /\
    type_allowed (or_empty (UploadFile.content_type file))
      (allowed_file_types_list settings) /\
    UploadFile.read file = Return content /\
    Z.of_nat (List.length content) <= max_file_size settings /\
    minio_ready w /\ put_object_raises env = None /\
    mongodb_ready w /\ insert_one_raises env = None /\
    doc = uploaded_doc env file content /\
    w1 = {| db_manager := db_manager w;
            files := files w ++ [doc];
            bucket := <[Doc.file_id doc :=
                          {| Obj.data := content;
                             Obj.content_type := UploadFile.content_type file |}]>
                        (bucket w);
            trace := trace w ++ [EvPutObject (minio_bucket settings)
                                   (Doc.file_id doc) content;
                                 EvInsertOne (Doc.file_id doc)] |}) ->
  upload_file settings env file w = (Return doc, w1).
Proof.
  intros (content & Hname & Hct & Hallowed & Hread & Hsize & [Hn [c Hc]] & Hput
          & [Hm [c' Hc']] & Hins & -> & ->).
  apply is_allowed_spec in Hallowed. apply Z.ltb_ge in Hsize.
  unfold_ops. cbn.
  repeat (first [rewrite Hname | rewrite Hct | rewrite Hallowed | rewrite Hread
                | rewrite Hsize | rewrite Hn | rewrite Hc | rewrite Hput
                | rewrite Hm | rewrite Hc' | rewrite Hins]; cbn).
  f_equal. symmetry. apply world_eq; cbn; try reflexivity.
  by rewrite <- app_assoc.
Qed.

(** X6.  [upload_file] returns a record exactly when the upload has
    a filename and an allowed, non-empty content type, its content can
    be read and is not longer than [max_file_size], both stores are
    connected and neither [put_object] nor [insert_one] raises; the
    record and the world after it are then as stated. *)
Theorem upload_file_succeeds_iff settings env file w doc w1 :
  upload_file settings env file w = (Return doc, w1) <->
  exists content,
    truthy (or_empty (UploadFile.filename file)) = true /\
    truthy (or_empty (UploadFile.content_type file)) = true /\
    type_allowed (or_empty (UploadFile.content_type file))
      (allowed_file_types_list settings) /\
    UploadFile.read file = Return content /\
    Z.of_nat (List.length content) <= max_file_size settings /\
    minio_ready w /\ put_object_raises env = None /\
    mongodb_ready w /\ insert_one_raises env = None /\
    doc = uploaded_doc env file content /\
    w1 = {| db_manager := db_manager w;
            files := files w ++ [doc];
            bucket := <[Doc.file_id doc :=
                          {| Obj.data := content;
                             Obj.content_type := UploadFile.content_type file |}]>
                        (bucket w);
            trace := trace w ++ [EvPutObject (minio_bucket settings)
                                   (Doc.file_id doc) content;
                                 EvInsertOne (Doc.file_id doc)] |}.
Proof. split; [apply upload_file_inv | apply upload_file_run]. Qed.

Lemma download_file_inv settings env fid w content d w1 :
  download_file settings env fid w = (Return (content, d), w1) ->
  truthy fid = true /\
  mongodb_ready w /\ find_one_raises env = None /\
  List.find (has_file_id fid) (files w) = Some d /\
  minio_ready w /\ get_object_raises env = None /\
  (exists o, bucket w !! fid = Some o /\ content = Obj.data o) /\
  w1 = with_trace (trace w ++ [EvFindOne fid;
                               EvGetObject (minio_bucket settings) fid]) w.
Proof.
  intros H. run_in H. injection H as <- <- <-.
  repeat (split; [eauto using negb_false_true; fail |]).
  split; [split; eauto |]. split; [done |]. split; [done |].
  split; [split; eauto |]. split; [done |]. split; [by eexists |].
  cbn. by rewrite <- app_assoc.
Qed.

Lemma download_file_run settings env fid w content d w1 :
  (truthy fid = true /\
  mongodb_ready w /\ find_one_raises env = None /\
  List.find (has_file_id fid) (files w) = Some d /\
  minio_ready w /\ get_object_raises env = None /\
  (exists o, bucket w !! fid = Some o /\ content = Obj.data o) /\
  w1 = with_trace (trace w ++ [EvFindOne fid;
                               EvGetObject (minio_bucket settings) fid]) w) ->
  download_file settings env fid w = (Return (content, d), w1).
Proof.
  intros (Hfid & [Hm [c Hc]] & Hf & Hd & [Hn [c' Hc']] & Hg & (o & Ho & ->) & ->).
  unfold_ops. cbn.
  repeat (first [rewrite Hfid | rewrite Hm | rewrite Hc | rewrite Hf
                | rewrite Hd | rewrite Hn | rewrite Hc' | rewrite Hg
                | rewrite Ho]; cbn).
  by rewrite <- app_assoc.
Qed.

(** X7.  [download_file] returns exactly when the id is not empty,
    MongoDB is connected and the lookup finds a record without
    raising, MinIO is connected and [get_object] finds the object
    without raising; it then returns the bytes of that object with the
    record found, and only the trace has grown. *)
Theorem download_file_succeeds_iff settings env fid w content d w1 :
  download_file settings env fid w = (Return (content, d), w1) <->
  truthy fid = true /\
  mongodb_ready w /\ find_one_raises env = None /\
  List.find (has_file_id fid) (files w) = Some d /\
  minio_ready w /\ get_object_raises env = None /\
  (exists o, bucket w !! fid = Some o /\ content = Obj.data o) /\
  w1 = with_trace (trace w ++ [EvFindOne fid;
                               EvGetObject (minio_bucket settings) fid]) w.
Proof. split; [apply download_file_inv | apply download_file_run]. Qed.

(** ** The record an upload returns *)

Lemma clean_name_clean (filename : str) (c : ascii) :
  c ∈ dangerous_chars -> c ∉ clean_name filename.
Proof.
  intros Hc. unfold clean_name.
  apply replace_all_absent; [by apply underscore_not_dangerous | by left].
Qed.

Lemma splitext_elem (p : str) (x : ascii) :
  x ∈ (posixpath.splitext p).1 \/ x ∈ (posixpath.splitext p).2 -> x ∈ p.
Proof. rewrite <- elem_of_app. by rewrite splitext_app. Qed.

Lemma sanitize_clean (filename : str) (c : ascii) :
  c ∈ dangerous_chars -> c ∉ _sanitize_filename filename.
Proof.
  intros Hc. rewrite sanitize_unfold.
  destruct (truthy filename);
    [| by apply (proj1 (Forall_forall _ _) unnamed_file_clean)].
  pose proof (clean_name_clean filename c Hc) as Hclean.
  destruct (255 <? _); [| exact Hclean].
  intros [Hin | Hin]%elem_of_app; apply Hclean, splitext_elem.
  - left. by apply slice_to_elem in Hin.
  - by right.
Qed.

Lemma length_hex_fixed (w : nat) (n : N) : List.length (hex_fixed w n) = w.
Proof.
  revert n. induction w as [|w IH]; intros n; cbn [hex_fixed]; [done |].
  rewrite length_app, IH. cbn. lia.
Qed.

Lemma len_uuid_str (u : N) : len (uuid_str u) = 36.
Proof.
  unfold len, uuid_str.
  repeat (rewrite ?length_app, ?length_cons, ?length_take, ?length_drop).
  rewrite length_hex_fixed. reflexivity.
Qed.

(** X8.  The record returned by a successful upload has a [file_id]
    of 36 characters, a size between zero and [max_file_size], a name
    without dangerous characters that ends with the extension, and an
    extension that is empty or a dot followed by characters that are
    not dots. *)
Theorem upload_file_record settings env file w doc w1 :
  upload_file settings env file w = (Return doc, w1) ->
  len (Doc.file_id doc) = 36 /\
  0 <= Doc.size doc <= max_file_size settings /\
  (forall c, c ∈ dangerous_chars -> c ∉ Doc.name doc) /\
  (exists stem, Doc.name doc = stem ++ Doc.extension doc) /\
  (Doc.extension doc = [] \/
   exists r, Doc.extension doc = "."%char :: r /\ ("."%char ∉ r)).
Proof.
  intros H. apply upload_file_inv in H
    as (content & _ & _ & _ & _ & Hsize & _ & _ & _ & _ & -> & _).
  cbn [uploaded_doc Doc.file_id Doc.size Doc.name Doc.extension].
  split; [apply len_uuid_str |]. split; [lia |].
  split; [intros c Hc; by apply sanitize_clean |].
  split; [| apply splitext_ext].
  eexists. symmetry. apply splitext_app.
Qed.

Lemma upload_file_record_witness :
  len (Doc.file_id stored_doc) = 36.
Proof.
  assert (E : upload_file small_settings quiet_env (text_upload two_bytes) fresh_world
              = (Return stored_doc,
                 (upload_file small_settings quiet_env (text_upload two_bytes)
                    fresh_world).2))
    by (apply pair_eta_l; vm_compute; reflexivity).
  exact (proj1 (upload_file_record _ _ _ _ _ _ E)).
Defined.

(** ** What the operations change *)

Ltac effect H := run_in H; injection H as <- <-; cbn.

Lemma upload_file_effect settings env file w :
  let w1 := (upload_file settings env file w).2 in
  let new := uuid_str (uuid4 (urandom16 env)) in
  db_manager w1 = db_manager w /\
  ((files w1 = files w /\ bucket w1 = bucket w) \/
   (exists o, files w1 = files w /\ bucket w1 = <[new := o]> (bucket w)) \/
   (exists doc o,
      Doc.file_id doc = new /\
      Doc.name doc = _sanitize_filename (or_empty (UploadFile.filename file)) /\
      files w1 = files w ++ [doc] /\ bucket w1 = <[new := o]> (bucket w))).
Proof.
  cbn zeta. destruct (upload_file settings env file w) as [r w1] eqn:H.
  effect H.
  all: split; [reflexivity |].
  all: first [ left; split; reflexivity
             | right; left; eexists; split; reflexivity
             | right; right; eexists _, _; repeat split; reflexivity ].
Qed.

Lemma update_file_name_effect env fid name w :
  let w1 := (update_file_name env fid name w).2 in
  db_manager w1 = db_manager w /\ bucket w1 = bucket w /\
  (files w1 = files w \/
   files w1 = update_first fid (Doc.set_name (_sanitize_filename name)) (files w)).
Proof.
  cbn zeta. destruct (update_file_name env fid name w) as [r w1] eqn:H.
  effect H; auto.
Qed.

Lemma delete_file_effect settings env fid w :
  let w1 := (delete_file settings env fid w).2 in
  db_manager w1 = db_manager w /\
  ((files w1 = files w /\ bucket w1 = bucket w) \/
   (files w1 = files w /\ bucket w1 = delete fid (bucket w) /\
    is_Some (delete_one_raises env)) \/
   (files w1 = remove_first fid (files w) /\ bucket w1 = delete fid (bucket w))).
Proof.
  cbn zeta. destruct (delete_file settings env fid w) as [r w1] eqn:H.
  effect H.
  all: split; [reflexivity |].
  all: try congruence.
  all: first [ left; split; reflexivity
             | right; left; split; [reflexivity |]; split; [reflexivity |];
               eexists; reflexivity
             | right; right; split; reflexivity ].
Qed.

Lemma read_only_effect settings env fid w :
  let w1 := (download_file settings env fid w).2 in
  let w2 := (list_files env w).2 in
  let w3 := (get_file_by_id env fid w).2 in
  (db_manager w1 = db_manager w /\ files w1 = files w /\ bucket w1 = bucket w) /\
  (db_manager w2 = db_manager w /\ files w2 = files w /\ bucket w2 = bucket w) /\
  (db_manager w3 = db_manager w /\ files w3 = files w /\ bucket w3 = bucket w).
Proof.
  cbn zeta. split; [| split].
  - destruct (download_file settings env fid w) as [r w1] eqn:H. effect H; auto.
  - destruct (list_files env w) as [r w1] eqn:H. effect H; auto.
  - destruct (get_file_by_id env fid w) as [r w1] eqn:H. effect H; auto.
Qed.

(** ** Listing and reading *)

Lemma list_files_run env w :
  mongodb_ready w -> find_raises env = None ->
  list_files env w = (Return (files w), with_trace (trace w ++ [EvFind]) w).
Proof.
  intros [Hm [c Hc]] Hf. unfold_ops. cbn.
  repeat (first [rewrite Hm | rewrite Hc | rewrite Hf]; cbn). reflexivity.
Qed.

(** X9.  After a successful upload, [list_files], whenever its query
    does not raise, returns one record more than the collection held
    before: every record that was there, and one that agrees with the
    record of the upload in every field but, possibly, the upload
    date.  Nothing is said of the order of the listing. *)
Theorem list_files_after_upload settings env file w doc w1 :
  upload_file settings env file w = (Return doc, w1) ->
  forall env',
    find_raises env' = None ->
    exists listed,
      (list_files env' w1).1 = Return listed /\
      List.length listed = S (List.length (files w)) /\
      (forall r, r ∈ files w -> r ∈ listed) /\
      (exists r, r ∈ listed /\ same_but_upload_date r doc) /\
      (forall r, r ∈ listed -> r ∈ files w \/ same_but_upload_date r doc).
Proof.
  intros H env' Hf.
  apply upload_file_inv in H
    as (content & _ & _ & _ & _ & _ & _ & _ & Hm & _ & _ & ->).
  exists (files w ++ [doc]).
  split; [rewrite list_files_run; [reflexivity | exact Hm | exact Hf] |].
  split; [rewrite length_app; cbn [List.length]; lia |].
  split; [intros r Hr; apply elem_of_app; by left |].
  split.
  - exists doc. split; [| done]. apply elem_of_app. right. by left.
  - intros r [Hr | Hr%list_elem_of_singleton]%elem_of_app; [by left |].
    right. by rewrite Hr.
Qed.

Lemma list_files_after_upload_witness :
  exists listed,
    (list_files quiet_env stocked_world).1 = Return listed /\
    List.length listed = 1%nat.
Proof.
  assert (E : upload_file small_settings quiet_env (text_upload two_bytes) fresh_world
              = (Return stored_doc, stocked_world))
    by (apply (pair_eta_l (upload_file small_settings quiet_env
                             (text_upload two_bytes) fresh_world));
        vm_compute; reflexivity).
  destruct (list_files_after_upload _ _ _ _ _ _ E quiet_env eq_refl)
    as (listed & Hrun & Hlen & _).
  exists listed. split; [exact Hrun | exact Hlen].
Defined.

Lemma read_events_nil (t : list event) :
  exists evs, t = t ++ evs /\ forallb is_read_event evs = true.
Proof. exists []. by rewrite app_nil_r. Qed.

(** X10.  [download_file], [list_files] and [get_file_by_id] only
    read: whatever they return or raise, the collection, the bucket
    and the connection manager are as before, and the store calls
    they have issued are lookups, queries and reads of objects. *)
Theorem read_operations_change_nothing settings env fid w :
  let read_only (w1 : World) :=
    db_manager w1 = db_manager w /\ files w1 = files w /\
    bucket w1 = bucket w /\
    exists evs, trace w1 = trace w ++ evs /\ forallb is_read_event evs = true in
  read_only (download_file settings env fid w).2 /\
  read_only (list_files env w).2 /\
  read_only (get_file_by_id env fid w).2.
Proof.
  cbn zeta. split; [| split].
  - destruct (download_file settings env fid w) as [r w1] eqn:H. effect H.
    all: repeat (split; [reflexivity |]).
    all: first [ apply read_events_nil
               | rewrite <- ?app_assoc; eexists; split; reflexivity ].
  - destruct (list_files env w) as [r w1] eqn:H. effect H.
    all: repeat (split; [reflexivity |]).
    all: first [ apply read_events_nil
               | rewrite <- ?app_assoc; eexists; split; reflexivity ].
  - destruct (get_file_by_id env fid w) as [r w1] eqn:H. effect H.
    all: repeat (split; [reflexivity |]).
    all: first [ apply read_events_nil
               | rewrite <- ?app_assoc; eexists; split; reflexivity ].
Qed.

(** ** Rename and download *)

Lemma find_update_first fid fid' f (l : list Doc.t) :
  (forall d, Doc.file_id (f d) = Doc.file_id d) ->
  List.find (has_file_id fid') (update_first fid f l)
  = if bool_decide (fid' = fid) then f <$> List.find (has_file_id fid') l
    else List.find (has_file_id fid') l.
Proof.
  intros Hf. unfold has_file_id.
  induction l as [|x l IH]; cbn [update_first List.find].
  - by case_bool_decide.
  - unfold has_file_id.
    destruct (decide (Doc.file_id x = fid)) as [Hx | Hx].
    + rewrite (bool_decide_eq_true_2 _ Hx). cbn [List.find]. rewrite Hf.
      destruct (decide (fid' = fid)) as [-> | Hne].
      * by rewrite !bool_decide_eq_true_2.
      * rewrite (bool_decide_eq_false_2 (fid' = fid)) by done.
        by rewrite (bool_decide_eq_false_2 (Doc.file_id x = fid')) by congruence.
    + rewrite (bool_decide_eq_false_2 _ Hx). cbn [List.find].
      destruct (bool_decide (Doc.file_id x = fid')) eqn:Hx'.
      * apply bool_decide_eq_true in Hx'.
        by rewrite (bool_decide_eq_false_2 (fid' = fid)) by congruence.
      * exact IH.
Qed.

(** X11.  A rename does not touch the content: where a download of
    the id returned some bytes and a record before the rename, the
    same download after the rename returns the same bytes and that
    record with the new, sanitized name. *)
Theorem download_after_rename settings env fid new_name w msg w1 :
  update_file_name env fid new_name w = (Return msg, w1) ->
  forall env' content d w2,
    download_file settings env' fid w = (Return (content, d), w2) ->
    exists w3,
      download_file settings env' fid w1
      = (Return (content, Doc.set_name (_sanitize_filename new_name) d), w3).
Proof.
  intros Hren env' content d w2 Hdown.
  apply update_file_name_Return in Hren
    as (d0 & _ & _ & Hfiles & Hbucket & Hmgr & _).
  apply download_file_inv in Hdown
    as (Hfid & Hm & Hf & Hd & Hn & Hg & Ho & _).
  eexists. apply download_file_run.
  unfold mongodb_ready, minio_ready. rewrite Hmgr, Hbucket, Hfiles.
  repeat (split; [done |]).
  split; [| split; [done |]; split; [done |]; split; [done | reflexivity]].
  rewrite find_update_first by done.
  rewrite bool_decide_eq_true_2 by done. by rewrite Hd.
Qed.

Lemma download_after_rename_witness :
  exists w3,
    download_file small_settings quiet_env stored_id
      (update_file_name quiet_env stored_id ("b.txt"%string : str) stocked_world).2
    = (Return (two_bytes,
               Doc.set_name (_sanitize_filename ("b.txt"%string : str)) stored_doc),
       w3).
Proof.
  assert (E : update_file_name quiet_env stored_id ("b.txt"%string : str) stocked_world
              = (Return ("File name updated successfully"%string : str),
                 (update_file_name quiet_env stored_id ("b.txt"%string : str)
                    stocked_world).2))
    by (apply pair_eta_l; vm_compute; reflexivity).
  assert (D : download_file small_settings quiet_env stored_id stocked_world
              = (Return (two_bytes, stored_doc),
                 (download_file small_settings quiet_env stored_id stocked_world).2))
    by (apply pair_eta_l; vm_compute; reflexivity).
  exact (download_after_rename small_settings _ _ _ _ _ _ E _ _ _ _ D).
Defined.

(** ** One id at a time *)

Lemma find_app_other fid' (l : list Doc.t) (doc : Doc.t) :
  Doc.file_id doc <> fid' ->
  List.find (has_file_id fid') (l ++ [doc]) = List.find (has_file_id fid') l.
Proof.
  intros Hne. unfold has_file_id.
  induction l as [|x l IH]; cbn [app List.find].
  - rewrite app_nil_l. cbn [List.find]. by rewrite bool_decide_eq_false_2.
  - rewrite <- app_comm_cons. cbn [List.find]. by rewrite IH.
Qed.

Lemma find_remove_first_other fid fid' (l : list Doc.t) :
  fid <> fid' ->
  List.find (has_file_id fid') (remove_first fid l) = List.find (has_file_id fid') l.
Proof.
  intros Hne. unfold has_file_id.
  induction l as [|x l IH]; cbn [remove_first List.find]; [done |].
  unfold has_file_id.
  destruct (decide (Doc.file_id x = fid)) as [Hx | Hx].
  - rewrite (bool_decide_eq_true_2 _ Hx).
    by rewrite (bool_decide_eq_false_2 (Doc.file_id x = fid')) by congruence.
  - rewrite (bool_decide_eq_false_2 _ Hx). cbn [List.find]. by rewrite IH.
Qed.

(** X12.  A request reaches only the id it writes under: for every
    other id, the record a lookup finds and the object in the bucket
    are the same after the request as before, whatever the request
    returned or raised. *)
Theorem requests_leave_other_ids settings env r fid w :
  target env r <> Some fid ->
  stored fid (serve settings env r w) = stored fid w.
Proof.
  intros Hne. unfold stored.
  destruct r as [|file|fid0|fid0 name|fid0]; cbn [serve target] in *.
  - destruct (read_only_effect settings env fid w) as (_ & (_ & -> & ->) & _).
    reflexivity.
  - assert (Hnew : uuid_str (uuid4 (urandom16 env)) <> fid) by congruence.
    destruct (upload_file_effect settings env file w)
      as [_ [[-> ->] | [(o & -> & ->) | (doc & o & Hid & _ & -> & ->)]]].
    + reflexivity.
    + by rewrite lookup_insert_ne.
    + rewrite lookup_insert_ne by done. rewrite find_app_other; [done | congruence].
  - destruct (read_only_effect settings env fid0 w) as ((_ & -> & ->) & _).
    reflexivity.
  - assert (Hfid : fid <> fid0) by congruence.
    destruct (update_file_name_effect env fid0 name w) as (_ & -> & [-> | ->]);
      [reflexivity |].
    rewrite find_update_first by done.
    by rewrite bool_decide_eq_false_2.
  - assert (Hfid : fid0 <> fid) by congruence.
    destruct (delete_file_effect settings env fid0 w)
      as [_ [[-> ->] | [(-> & -> & _) | [-> ->]]]].
    + reflexivity.
    + by rewrite lookup_delete_ne.
    + rewrite lookup_delete_ne by done. by rewrite find_remove_first_other.
Qed.

Lemma requests_leave_other_ids_witness :
  stored stored_id
    (serve small_settings quiet_env (ReqDelete ("other-id"%string : str)) stocked_world)
  = stored stored_id stocked_world.
Proof.
  apply requests_leave_other_ids.
  cbn [target]. intros H.
  apply (f_equal (fun o => match o with Some s => len s | None => 0 end)) in H.
  vm_compute in H. discriminate H.
Defined.

(** ** A delete that stops half way *)

(** X13.  When [remove_object] succeeds and [delete_one] then raises,
    [delete_file] raises a 500 and leaves the record in the collection
    while its object is gone.  A download of that id then raises a 500
    and not a 404; a second delete in which no call raises returns and
    removes the record. *)
Theorem delete_file_half_done settings env fid w d e :
  truthy fid = true ->
  mongodb_ready w -> minio_ready w ->
  find_one_raises env = None ->
  List.find (has_file_id fid) (files w) = Some d ->
  remove_object_raises env = None ->
  delete_one_raises env = Some e ->
  exists dt w1,
    delete_file settings env fid w = (Raise (HTTPException 500 dt), w1) /\
    files w1 = files w /\
    bucket w1 = delete fid (bucket w) /\
    (forall env',
       find_one_raises env' = None ->
       exists dt', (download_file settings env' fid w1).1
                   = Raise (HTTPException 500 dt')) /\
    (forall env',
       find_one_raises env' = None -> remove_object_raises env' = None ->
       delete_one_raises env' = None ->
       exists msg w2,
         delete_file settings env' fid w1 = (Return msg, w2) /\
         files w2 = remove_first fid (files w)).
Proof.
  intros Hfid [Hm [c Hc]] [Hn [c' Hc']] Hf Hd Hr He.
  assert (Hdel : exists dt,
             delete_file settings env fid w
             = (Raise (HTTPException 500 dt),
                with_bucket (delete fid (bucket w))
                  (with_trace (trace w ++ [EvFindOne fid;
                                           EvRemoveObject (minio_bucket settings) fid;
                                           EvDeleteOne fid]) w))).
  { unfold_ops. cbn.
    repeat (first [rewrite Hfid | rewrite Hm | rewrite Hc | rewrite Hf
                  | rewrite Hd | rewrite Hn | rewrite Hc' | rewrite Hr
                  | rewrite He]; cbn).
    rewrite <- !app_assoc. destruct e; by eexists. }
  destruct Hdel as [dt Hdel]. eexists dt, _. split; [exact Hdel |].
  split; [reflexivity |]. split; [reflexivity |]. split.
  - intros env' Hf'. unfold_ops. cbn.
    repeat (first [rewrite Hfid | rewrite Hm | rewrite Hc | rewrite Hf'
                  | rewrite Hd | rewrite Hn | rewrite Hc']; cbn).
    destruct (get_object_raises env') as [e'|]; cbn; [by eexists |].
    rewrite lookup_delete_eq. cbn. by eexists.
  - intros env' Hf' Hr' Hd'. unfold_ops. cbn.
    repeat (first [rewrite Hfid | rewrite Hm | rewrite Hc | rewrite Hf'
                  | rewrite Hd | rewrite Hn | rewrite Hc' | rewrite Hr'
                  | rewrite Hd']; cbn).
    by eexists _, _.
Qed.

Lemma stocked_world_ready : mongodb_ready stocked_world /\ minio_ready stocked_world.
Proof. repeat split; try (vm_compute; reflexivity); by eexists. Qed.

Lemma delete_file_half_done_witness :
  exists dt w1,
    delete_file small_settings delete_failing_env stored_id stocked_world
    = (Raise (HTTPException 500 dt), w1) /\
    files w1 = files stocked_world.
Proof.
  destruct (delete_file_half_done small_settings delete_failing_env stored_id
              stocked_world stored_doc (Exception ("not primary"%string : str)))
    as (dt & w1 & Hdel & Hfiles & _).
  - vm_compute. reflexivity.
  - apply stocked_world_ready.
  - apply stocked_world_ready.
  - reflexivity.
  - vm_compute. reflexivity.
  - reflexivity.
  - reflexivity.
  - exists dt, w1. split; [exact Hdel | exact Hfiles].
Defined.

(** ** Invariants of the two stores *)

Lemma remove_first_unique fid (l : list Doc.t) :
  NoDup (Doc.file_id <$> l) -> NoDup (Doc.file_id <$> remove_first fid l).
Proof.
  induction l as [|x l IH]; cbn [remove_first]; [done |].
  rewrite fmap_cons, NoDup_cons. intros [Hx Hl].
  destruct (has_file_id fid x); [done |].
  rewrite fmap_cons, NoDup_cons. split; [| by apply IH].
  intros (y & Hy & Hin)%list_elem_of_fmap. apply Hx.
  apply list_elem_of_fmap. exists y. split; [done |].
  by apply (remove_first_subseteq fid).
Qed.

(** X14.  The two invariants of the stores, that the [file_id]s of
    the collection are pairwise distinct and that each of them names
    an object of the bucket, are kept by every request in which an
    upload is given an id that is not yet in the collection and a
    delete does not see [delete_one] raise. *)
Theorem serve_keeps_invariants settings env r w :
  unique_ids w -> consistent w ->
  (forall file, r = ReqUpload file ->
                uuid_str (uuid4 (urandom16 env)) ∉ Doc.file_id <$> files w) ->
  (forall fid, r = ReqDelete fid -> delete_one_raises env = None) ->
  unique_ids (serve settings env r w) /\ consistent (serve settings env r w).
Proof.
  unfold unique_ids, consistent. intros Hu Hc Hfresh Hdel.
  destruct r as [|file|fid0|fid0 name|fid0]; cbn [serve].
  - destruct (read_only_effect settings env [] w) as (_ & (_ & -> & ->) & _).
    by split.
  - specialize (Hfresh file eq_refl).
    destruct (upload_file_effect settings env file w)
      as [_ [[-> ->] | [(o & -> & ->) | (doc & o & Hid & _ & -> & ->)]]].
    + by split.
    + split; [done |]. intros fid Hin.
      apply lookup_insert_is_Some'. right. by apply Hc.
    + rewrite fmap_app. cbn [fmap list_fmap]. rewrite Hid. split.
      * apply NoDup_app. split; [done |]. split; [| apply NoDup_singleton].
        intros x Hx ->%list_elem_of_singleton. contradiction.
      * intros fid [Hin | ->%list_elem_of_singleton]%elem_of_app;
          apply lookup_insert_is_Some'; [right; by apply Hc | by left].
  - destruct (read_only_effect settings env fid0 w) as ((_ & -> & ->) & _).
    by split.
  - destruct (update_file_name_effect env fid0 name w) as (_ & -> & [-> | ->]);
      [by split |].
    by rewrite update_first_ids.
  - specialize (Hdel fid0 eq_refl).
    destruct (delete_file_effect settings env fid0 w)
      as [_ [[-> ->] | [(_ & _ & [e He]) | [-> ->]]]].
    + by split.
    + congruence.
    + split; [by apply remove_first_unique |].
      intros fid Hin.
      assert (Hne : fid0 <> fid).
      { intros ->. by apply (remove_first_absent fid (files w)). }
      rewrite lookup_delete_ne by done. apply Hc.
      apply list_elem_of_fmap in Hin as (y & -> & Hy).
      apply list_elem_of_fmap. exists y. split; [done |].
      by apply (remove_first_subseteq fid0).
Qed.

Lemma serve_keeps_invariants_witness :
  unique_ids (serve small_settings quiet_env (ReqUpload (text_upload two_bytes))
                fresh_world).
Proof.
  apply (serve_keeps_invariants small_settings quiet_env
           (ReqUpload (text_upload two_bytes)) fresh_world).
  - apply NoDup_nil_2.
  - intros fid Hin. apply elem_of_nil in Hin. destruct Hin.
  - intros file _ Hin. apply elem_of_nil in Hin. destruct Hin.
  - intros fid H. discriminate H.
Defined.

(** ** With a store disconnected *)

(** X15.  With MinIO connected and MongoDB not, an upload that passes
    every check writes its object, issues no call to MongoDB and
    raises a 500: the object stays in the bucket without a record. *)
Theorem upload_without_mongodb settings env file content w :
  truthy (or_empty (UploadFile.filename file)) = true ->
  truthy (or_empty (UploadFile.content_type file)) = true ->
  type_allowed (or_empty (UploadFile.content_type file))
    (allowed_file_types_list settings) ->
  UploadFile.read file = Return content ->
  Z.of_nat (List.length content) <= max_file_size settings ->
  minio_ready w -> put_object_raises env = None ->
  _mongodb_connected (db_manager w) = false ->
  let fid := uuid_str (uuid4 (urandom16 env)) in
  exists dt w1,
    upload_file settings env file w = (Raise (HTTPException 500 dt), w1) /\
    files w1 = files w /\
    bucket w1 !! fid = Some {| Obj.data := content;
                               Obj.content_type := UploadFile.content_type file |} /\
    trace w1 = trace w ++ [EvPutObject (minio_bucket settings) fid content].
Proof.
  intros Hname Hct Hallowed Hread Hsize [Hn [c Hc]] Hput Hm. cbn zeta.
  apply is_allowed_spec in Hallowed. apply Z.ltb_ge in Hsize.
  unfold_ops. cbn.
  repeat (first [rewrite Hname | rewrite Hct | rewrite Hallowed | rewrite Hread
                | rewrite Hsize | rewrite Hn | rewrite Hc | rewrite Hput
                | rewrite Hm]; cbn).
  eexists _, _. split; [reflexivity |]. cbn.
  split; [reflexivity |]. split; [apply lookup_insert_eq | reflexivity].
Qed.

Lemma upload_without_mongodb_witness :
  exists dt w1,
    upload_file small_settings quiet_env (text_upload two_bytes)
      (world_of minio_only_manager)
    = (Raise (HTTPException 500 dt), w1) /\
    files w1 = [].
Proof.
  destruct (upload_without_mongodb small_settings quiet_env (text_upload two_bytes)
              two_bytes (world_of minio_only_manager))
    as (dt & w1 & Hup & Hfiles & _).
  - reflexivity.
  - reflexivity.
  - apply is_allowed_spec. vm_compute. reflexivity.
  - reflexivity.
  - vm_compute. discriminate.
  - split; [reflexivity | by eexists].
  - reflexivity.
  - reflexivity.
  - exists dt, w1. split; [exact Hup | exact Hfiles].
Defined.

(** X16.  With MongoDB not connected, [list_files], and for a
    non-empty id [download_file], [delete_file] and a rename to a
    non-empty name, raise a 500 at once: the world, its trace of store
    calls included, is as before. *)
Theorem mongodb_disconnected_fails_fast settings env fid new_name w :
  _mongodb_connected (db_manager w) = false ->
  truthy fid = true -> truthy new_name = true ->
  (exists dt, list_files env w = (Raise (HTTPException 500 dt), w)) /\
  (exists dt, download_file settings env fid w = (Raise (HTTPException 500 dt), w)) /\
  (exists dt, update_file_name env fid new_name w
              = (Raise (HTTPException 500 dt), w)) /\
  (exists dt, delete_file settings env fid w = (Raise (HTTPException 500 dt), w)).
Proof.
  intros Hm Hfid Hname.
  repeat split; unfold_ops; cbn;
    repeat (first [rewrite Hm | rewrite Hfid | rewrite Hname]; cbn);
    by eexists.
Qed.

Lemma mongodb_disconnected_fails_fast_witness :
  exists dt,
    list_files quiet_env (world_of minio_only_manager)
    = (Raise (HTTPException 500 dt), world_of minio_only_manager).
Proof.
  apply (mongodb_disconnected_fails_fast small_settings quiet_env
           ("some-id"%string : str) ("a.txt"%string : str)
           (world_of minio_only_manager));
    reflexivity.
Defined.

(** ** Names in the collection *)

Lemma update_first_elem fid f (l : list Doc.t) (d' : Doc.t) :
  d' ∈ update_first fid f l -> d' ∈ l \/ exists d, d ∈ l /\ d' = f d.
Proof.
  induction l as [|x l IH]; cbn [update_first]; [by left |].
  destruct (has_file_id fid x).
  - intros [-> | Hin]%elem_of_cons.
    + right. exists x. split; [by left | done].
    + left. by right.
  - intros [-> | Hin]%elem_of_cons; [left; by left |].
    destruct (IH Hin) as [Hl | (d & Hd & ->)].
    + left. by right.
    + right. exists d. split; [by right | done].
Qed.

Lemma serve_names_clean settings env r w :
  names_clean w -> names_clean (serve settings env r w).
Proof.
  unfold names_clean. intros Hw.
  destruct r as [|file|fid0|fid0 name|fid0]; cbn [serve].
  - destruct (read_only_effect settings env [] w) as (_ & (_ & -> & _) & _). done.
  - destruct (upload_file_effect settings env file w)
      as [_ [[-> _] | [(o & -> & _) | (doc & o & _ & Hname & -> & _)]]];
      [done | done |].
    intros d c [Hd | ->%list_elem_of_singleton]%elem_of_app Hc; [by apply Hw |].
    rewrite Hname. by apply sanitize_clean.
  - destruct (read_only_effect settings env fid0 w) as ((_ & -> & _) & _). done.
  - destruct (update_file_name_effect env fid0 name w) as (_ & _ & [-> | ->]);
      [done |].
    intros d c [Hd | (d0 & Hd0 & ->)]%update_first_elem Hc; [by apply Hw |].
    cbn [Doc.set_name Doc.name]. by apply sanitize_clean.
  - destruct (delete_file_effect settings env fid0 w)
      as [_ [[-> _] | [(-> & _) | [-> _]]]]; [done | done |].
    intros d c Hd Hc. apply Hw; [| done]. by apply (remove_first_subseteq fid0).
Qed.

(** X17.  No name in the collection ever holds a dangerous
    character: if that is so before a list of requests, it is so
    after it, whatever the requests and their outcomes. *)
Theorem serve_all_names_clean settings (rs : list (Env * request)) w :
  names_clean w -> names_clean (serve_all settings rs w).
Proof.
  revert w. induction rs as [|[env r] rs IH]; intros w Hw; [done |].
  change (serve_all settings ((env, r) :: rs) w)
    with (serve_all settings rs (serve settings env r w)).
  by apply IH, serve_names_clean.
Qed.

Lemma serve_all_names_clean_witness :
  names_clean
    (serve_all small_settings
       [(quiet_env, ReqUpload (text_upload two_bytes));
        (quiet_env, ReqRename stored_id ("x/y:z.txt"%string : str))]
       fresh_world).
Proof.
  apply serve_all_names_clean.
  intros d c Hd. apply elem_of_nil in Hd. destruct Hd.
Defined.

(** ** Connecting and closing *)

Lemma manager_eq (m : DatabaseManager) a b c d e f :
  _mongodb_client m = a -> _minio_client m = b -> _database m = c ->
  _files_collection m = d -> _mongodb_connected m = e -> _minio_connected m = f ->
  m = {| _mongodb_client := a; _minio_client := b; _database := c;
         _files_collection := d; _mongodb_connected := e; _minio_connected := f |}.
Proof. destruct m. cbn. by intros -> -> -> -> -> ->. Qed.

Lemma connect_to_mongodb_state env w :
  let w1 := (connect_to_mongodb env w).2 in
  (connect_to_mongodb env w).1 = Return (mongodb_connects env) /\
  files w1 = files w /\ bucket w1 = bucket w /\
  db_manager w1 = with_mongodb (mongodb_connects env) (db_manager w).
Proof.
  cbn zeta. destruct (connect_to_mongodb env w) as [r w1] eqn:H.
  unfold mongodb_connects, with_mongodb. unfold_connect. cbn in H.
  repeat case_step H.
  all: injection H as <- <-; cbn; by repeat split.
Qed.

Lemma connect_to_minio_state settings env w :
  let w1 := (connect_to_minio settings env w).2 in
  (connect_to_minio settings env w).1 = Return (minio_connects settings env) /\
  files w1 = files w /\ bucket w1 = bucket w /\
  db_manager w1 = with_minio (minio_connects settings env) (db_manager w).
Proof.
  cbn zeta. destruct (connect_to_minio settings env w) as [r w1] eqn:H.
  unfold minio_connects, already_owned, with_minio. unfold_connect. cbn in H.
  repeat case_step H.
  all: injection H as <- <-; cbn; by repeat split.
Qed.

(** X18.  [connect_to_mongodb] never raises and returns [True]
    exactly when neither the construction of the client nor the ping
    raises.  Afterwards the MongoDB attributes of the manager are all
    set when it returned [True] and all cleared when it returned
    [False], so that the collection accessor returns in the first case
    only; the MinIO attributes and both stores are as before. *)
Theorem connect_to_mongodb_all_or_nothing env w :
  let ok := bool_decide (motor_client_raises env = None /\ ping_raises env = None) in
  let w1 := (connect_to_mongodb env w).2 in
  (connect_to_mongodb env w).1 = Return ok /\
  db_manager w1 = with_mongodb ok (db_manager w) /\
  ((files_collection w1).1 = Return Client <-> ok = true) /\
  files w1 = files w /\ bucket w1 = bucket w.
Proof.
  cbn zeta.
  assert (Hok : bool_decide (motor_client_raises env = None /\ ping_raises env = None)
                = mongodb_connects env).
  { unfold mongodb_connects.
    destruct (motor_client_raises env), (ping_raises env);
      by (apply bool_decide_eq_true_2 || (apply bool_decide_eq_false_2; intros [??])). }
  rewrite Hok.
  destruct (connect_to_mongodb_state env w) as (Hr & Hf & Hb & Hm).
  split; [exact Hr |]. split; [exact Hm |]. split; [| by split].
  unfold files_collection, bind, get_manager, ret, raise. cbn. rewrite Hm.
  by destruct (mongodb_connects env).
Qed.

Lemma connect_to_minio_trace settings env w :
  trace (connect_to_minio settings env w).2
  = trace w ++ EvConnecting MinIO
      :: match minio_raises env with
         | Some _ => []
         | None =>
             EvListBuckets
               :: (if creates_bucket settings env
                   then [EvMakeBucket (minio_bucket settings)] else [])
         end.
Proof.
  destruct (connect_to_minio settings env w) as [r w1] eqn:H.
  unfold creates_bucket. unfold_connect. cbn in H.
  repeat case_step H.
  all: injection H as <- <-; cbn; rewrite <- ?app_assoc; try reflexivity.
  all: try (rewrite ?bool_decide_eq_true_2, ?bool_decide_eq_false_2 by done;
            reflexivity).
Qed.

(** X19.  [connect_to_minio] never raises and returns [True] exactly
    when the client can be built and the bucket is listed, or is
    created, or turns out to be owned already.  It calls [make_bucket]
    only after [list_buckets] has returned without the configured
    bucket.  Afterwards the MinIO attributes are set or cleared as it
    returned; the MongoDB attributes and both stores are as before. *)
Theorem connect_to_minio_all_or_nothing settings env w :
  let w1 := (connect_to_minio settings env w).2 in
  (connect_to_minio settings env w).1 = Return (minio_connects settings env) /\
  db_manager w1 = with_minio (minio_connects settings env) (db_manager w) /\
  ((minio_client w1).1 = Return Client <-> minio_connects settings env = true) /\
  (exists evs,
     trace w1 = trace w ++ evs /\
     (EvMakeBucket (minio_bucket settings) ∈ evs <->
      minio_raises env = None /\
      exists names, list_buckets_result env = Return names /\
                    (minio_bucket settings ∉ names))) /\
  files w1 = files w /\ bucket w1 = bucket w.
Proof.
  cbn zeta.
  destruct (connect_to_minio_state settings env w) as (Hr & Hf & Hb & Hm).
  split; [exact Hr |]. split; [exact Hm |]. split; [| split; [| by split]].
  - unfold minio_client, bind, get_manager, ret, raise. cbn. rewrite Hm.
    by destruct (minio_connects settings env).
  - eexists. split; [apply connect_to_minio_trace |].
    unfold creates_bucket.
    destruct (minio_raises env) as [e|].
    + rewrite list_elem_of_singleton. split; [discriminate | by intros [? _]].
    + destruct (list_buckets_result env) as [names | e].
      * case_bool_decide as Hin; cbn [negb].
        -- rewrite !elem_of_cons, elem_of_nil. split.
           ++ intros [H | [H | []]]; discriminate H.
           ++ intros [_ (names' & [= <-] & Hn)]. contradiction.
        -- rewrite !elem_of_cons. split.
           ++ intros _. split; [done |]. by exists names.
           ++ intros _. right. right. by left.
      * rewrite !elem_of_cons, elem_of_nil. split.
        -- intros [H | [H | []]]; discriminate H.
        -- intros [_ (names' & H & _)]. discriminate H.
Qed.

(** ** The manager between operations *)

Lemma coherent_flags m :
  coherent m ->
  (_mongodb_connected m = true ->
   _mongodb_client m = Some Client /\ _database m = Some Client /\
   _files_collection m = Some Client) /\
  (_mongodb_connected m = false ->
   _mongodb_client m = None /\ _database m = None /\ _files_collection m = None) /\
  (_minio_connected m = true -> _minio_client m = Some Client) /\
  (_minio_connected m = false -> _minio_client m = None).
Proof.
  unfold coherent, with_mongodb, with_minio. intros H.
  destruct m as [a b c d [] []]; cbn in *; injection H as -> -> -> ->;
    repeat split; done.
Qed.

Lemma coherent_with_mongodb b m : coherent m -> coherent (with_mongodb b m).
Proof.
  intros [_ [_ [Ht Hf]]]%coherent_flags. unfold coherent, with_mongodb, with_minio.
  cbn. destruct (_minio_connected m); [rewrite Ht | rewrite Hf]; done.
Qed.

Lemma coherent_with_minio b m : coherent m -> coherent (with_minio b m).
Proof.
  intros [Ht [Hf _]]%coherent_flags. unfold coherent, with_mongodb, with_minio.
  cbn. destruct (_mongodb_connected m).
  - destruct Ht as (-> & -> & ->); done.
  - destruct Hf as (-> & -> & ->); done.
Qed.

Lemma close_connections_state w :
  coherent (db_manager w) ->
  close_connections w
  = (Return tt, with_manager DatabaseManager_init w).
Proof.
  destruct w as [m fs b t]. cbn [db_manager].
  unfold coherent, with_mongodb, with_minio. intros H.
  destruct m as [c1 c2 c3 c4 [] []]; cbn in H; injection H as -> -> -> ->;
    reflexivity.
Qed.

(** X20.  On a manager whose flags and handles agree,
    [close_connections] returns and leaves the manager as
    [DatabaseManager.__init__] makes it: nothing is connected, both
    accessors raise, and the stores and the trace are as before. *)
Theorem close_connections_resets w :
  coherent (db_manager w) ->
  let w1 := (close_connections w).2 in
  (close_connections w).1 = Return tt /\
  db_manager w1 = DatabaseManager_init /\
  is_connected (db_manager w1) = false /\
  (exists e, (files_collection w1).1 = Raise (DatabaseConnectionError e)) /\
  (exists e, (minio_client w1).1 = Raise (DatabaseConnectionError e)) /\
  files w1 = files w /\ bucket w1 = bucket w /\ trace w1 = trace w.
Proof.
  intros Hco. cbn zeta. rewrite close_connections_state by done. cbn.
  repeat split; by eexists.
Qed.

Lemma close_connections_resets_witness :
  db_manager (close_connections fresh_world).2 = DatabaseManager_init.
Proof.
  apply (close_connections_resets fresh_world). reflexivity.
Defined.

Lemma health_check_state env w :
  let w1 := (health_check env w).2 in
  exists h,
    (health_check env w).1 = Return h /\
    Health.connected (Health.mongodb h) = mongodb_responds env w /\
    Health.connected (Health.minio h) = minio_responds env w /\
    files w1 = files w /\ bucket w1 = bucket w /\
    db_manager w1
    = (let m := db_manager w in
       let m1 := if _mongodb_connected m
                    && bool_decide (_mongodb_client m <> None)
                    && negb (bool_decide (ping_raises env = None))
                 then with_mongodb false m else m in
       if _minio_connected m1
          && bool_decide (_minio_client m1 <> None)
          && match list_buckets_result env with Return _ => false | Raise _ => true end
       then with_minio false m1 else m1).
Proof.
  cbn zeta. destruct (health_check env w) as [r w1] eqn:H.
  unfold mongodb_responds, minio_responds, with_mongodb, with_minio.
  unfold_health. cbn in H. repeat case_step H.
  all: injection H as <- <-; eexists; split; [reflexivity |]; cbn.
  all: repeat case_bool_decide; try congruence; cbn.
  all: repeat (match goal with
               | E : ?x = _ |- context [?x] => rewrite E
               end; cbn).
  all: rewrite ?andb_false_r; repeat split; try reflexivity.
  all: cbn; try congruence.
Qed.

(** X21.  [health_check] never raises and never connects a store.
    Its report flags as connected exactly the stores that were
    connected and answer the probe.  A store whose probe raises is
    disconnected by the check; on a manager whose flags and handles
    agree, the flags after the check are those of the report, and
    they and the handles still agree.  The stores are as before. *)
Theorem health_check_report env w :
  let w1 := (health_check env w).2 in
  exists h,
    (health_check env w).1 = Return h /\
    Health.connected (Health.mongodb h) = mongodb_responds env w /\
    Health.connected (Health.minio h) = minio_responds env w /\
    (_mongodb_connected (db_manager w1) = true ->
     _mongodb_connected (db_manager w) = true) /\
    (_minio_connected (db_manager w1) = true ->
     _minio_connected (db_manager w) = true) /\
    (coherent (db_manager w) ->
     _mongodb_connected (db_manager w1) = Health.connected (Health.mongodb h) /\
     _minio_connected (db_manager w1) = Health.connected (Health.minio h) /\
     coherent (db_manager w1)) /\
    files w1 = files w /\ bucket w1 = bucket w.
Proof.
  cbn zeta.
  destruct (health_check_state env w) as (h & Hr & Hm & Hn & Hf & Hb & Hmgr).
  exists h. cbn zeta in Hmgr. rewrite Hm, Hn.
  split; [exact Hr |]. split; [reflexivity |]. split; [reflexivity |].
  split; [| split; [| split; [| by split]]].
  - rewrite Hmgr.
    repeat match goal with |- context [if ?b then _ else _] => destruct b end;
      cbn; congruence.
  - rewrite Hmgr.
    repeat match goal with |- context [if ?b then _ else _] => destruct b end;
      cbn; congruence.
  - intros Hco. unfold mongodb_responds, minio_responds. rewrite Hmgr.
    clear -Hco. destruct w as [m fs b t]. cbn [db_manager] in *.
    unfold coherent, with_mongodb, with_minio in *.
    destruct m as [c1 c2 c3 c4 [] []]; cbn in Hco; injection Hco as -> -> -> ->;
      cbn; destruct (ping_raises env); destruct (list_buckets_result env); cbn;
      repeat case_bool_decide; try congruence; cbn;
      repeat split; reflexivity.
Qed.

(** ** The manager after the startup routine *)

Section RetryState.

Variables (connect : Env -> M bool) (ok : Env -> bool).
Variable set : bool -> DatabaseManager -> DatabaseManager.

Hypothesis connect_state : forall env w,
  (connect env w).1 = Return (ok env) /\
  files (connect env w).2 = files w /\
  bucket (connect env w).2 = bucket w /\
  db_manager (connect env w).2 = set (ok env) (db_manager w).

Hypothesis set_set : forall a b m, set a (set b m) = set a m.

Lemma retry_loop_step envs d attempt remaining result w :
  exists w0 w1,
    db_manager w0 = db_manager w /\ files w0 = files w /\ bucket w0 = bucket w /\
    connect (envs attempt) w0 = (Return (ok (envs attempt)), w1) /\
    retry_loop connect envs d attempt (S remaining) result w
    = if ok (envs attempt)
      then (Return {| ConnResult.success := true;
                      ConnResult.attempts := Z.of_nat attempt + 1;
                      ConnResult.error := ConnResult.error result |},
            w1)
      else retry_loop connect envs d (S attempt) remaining
             {| ConnResult.success := ConnResult.success result;
                ConnResult.attempts := Z.of_nat attempt + 1;
                ConnResult.error := ConnResult.error result |} w1.
Proof.
  set (w0 := if 0 <? Z.of_nat attempt
             then with_trace
                    (trace w ++ [EvSleep (d * inject_Z (2 ^ (Z.of_nat attempt - 1)))]) w
             else w).
  exists w0, (connect (envs attempt) w0).2.
  assert (Hw0 : db_manager w0 = db_manager w /\ files w0 = files w /\
                bucket w0 = bucket w)
    by (unfold w0; by destruct (0 <? Z.of_nat attempt)).
  destruct Hw0 as (H1 & H2 & H3). repeat (split; [done |]).
  destruct (connect_state (envs attempt) w0) as (Hr & _).
  assert (Hconn : connect (envs attempt) w0
                  = (Return (ok (envs attempt)), (connect (envs attempt) w0).2)).
  { rewrite <- Hr. by destruct (connect (envs attempt) w0). }
  split; [exact Hconn |].
  cbn [retry_loop]. unfold bind at 1.
  replace ((if 0 <? Z.of_nat attempt
            then emit (EvSleep (d * inject_Z (2 ^ (Z.of_nat attempt - 1))))
            else ret ()) w) with (Return (), w0)
    by (unfold w0; by destruct (0 <? Z.of_nat attempt)).
  unfold bind at 1. unfold try_except at 1. unfold bind at 1.
  rewrite Hconn. unfold ret at 1.
  by destruct (ok (envs attempt)).
Qed.

Lemma retry_loop_state envs d : forall remaining attempt result w,
  let w' := (retry_loop connect envs d attempt remaining result w).2 in
  files w' = files w /\ bucket w' = bucket w /\
  db_manager w'
  = if remaining is O then db_manager w
    else set (existsb (fun k => ok (envs k)) (seq attempt remaining)) (db_manager w).
Proof.
  induction remaining as [|remaining IH]; intros attempt result w; cbn zeta.
  - by cbn.
  - destruct (retry_loop_step envs d attempt remaining result w)
      as (w0 & w1 & Hm0 & Hf0 & Hb0 & Hconn & ->).
    destruct (connect_state (envs attempt) w0) as (_ & Hf1 & Hb1 & Hm1).
    rewrite Hconn in Hf1, Hb1, Hm1. cbn [snd] in Hf1, Hb1, Hm1.
    cbn [seq existsb].
    destruct (ok (envs attempt)) eqn:Hok; cbn [snd orb].
    + rewrite Hf1, Hb1, Hm1, Hf0, Hb0, Hm0. done.
    + destruct (IH (S attempt)
                  {| ConnResult.success := ConnResult.success result;
                     ConnResult.attempts := Z.of_nat attempt + 1;
                     ConnResult.error := ConnResult.error result |} w1)
        as (Hf & Hb & Hm).
      rewrite Hf, Hb, Hm, Hf1, Hb1, Hm1, Hf0, Hb0, Hm0.
      split; [done |]. split; [done |].
      destruct remaining; [done |]. by rewrite set_set.
Qed.

End RetryState.

Lemma with_mongodb_twice a b m : with_mongodb a (with_mongodb b m) = with_mongodb a m.
Proof. reflexivity. Qed.

Lemma with_minio_twice a b m : with_minio a (with_minio b m) = with_minio a m.
Proof. reflexivity. Qed.

Lemma coherent_set_both a b m : coherent (with_minio b (with_mongodb a m)).
Proof. unfold coherent, with_mongodb, with_minio. cbn. by destruct a, b. Qed.

Lemma connect_with_retry_state settings menvs nenvs max_retries initial_delay w :
  let N := Z.to_nat (or_int max_retries (db_max_retries settings)) in
  let w' := (connect_with_retry settings menvs nenvs max_retries initial_delay w).2 in
  files w' = files w /\ bucket w' = bucket w /\
  db_manager w'
  = if N is O then db_manager w
    else with_minio
           (existsb (fun k => minio_connects settings (nenvs k)) (seq 0 N))
           (with_mongodb
              (existsb (fun k => mongodb_connects (menvs k)) (seq 0 N))
              (db_manager w)).
Proof.
  cbn zeta. unfold connect_with_retry.
  set (N := Z.to_nat _). set (d := or_float _ _).
  destruct (retry_loop_spec connect_to_mongodb MongoDB mongodb_connects
              connect_to_mongodb_spec menvs d N 0%nat no_result w)
    as (rm & w1 & Hm & _).
  destruct (retry_loop_spec (connect_to_minio settings) MinIO
              (minio_connects settings) (connect_to_minio_spec settings)
              nenvs d N 0%nat no_result w1)
    as (rn & w2 & Hn & _).
  pose proof (retry_loop_state connect_to_mongodb mongodb_connects with_mongodb
                connect_to_mongodb_state with_mongodb_twice menvs d N 0%nat
                no_result w) as H1.
  pose proof (retry_loop_state (connect_to_minio settings) (minio_connects settings)
                with_minio (connect_to_minio_state settings) with_minio_twice
                nenvs d N 0%nat no_result w1) as H2.
  cbn zeta in H1, H2. rewrite Hm in H1. rewrite Hn in H2. cbn [snd] in H1, H2.
  assert (Hrun : (mongodb <- retry_loop connect_to_mongodb menvs d 0 N no_result ;;
                  minio <- retry_loop (connect_to_minio settings) nenvs d 0 N
                             no_result ;;
                  ret (mongodb, minio)) w = (Return (rm, rn), w2)).
  { unfold bind at 1. rewrite Hm. unfold bind at 1. rewrite Hn. reflexivity. }
  rewrite Hrun. cbn [snd].
  destruct H1 as (Hf1 & Hb1 & Hm1), H2 as (Hf2 & Hb2 & Hm2).
  rewrite Hf2, Hb2, Hm2, Hf1, Hb1, Hm1. by destruct N.
Qed.

(** X22.  With the effective [max_retries] and initial delay within
    the bounds that [Settings] declares, [connect_with_retry] returns
    and the manager after it has each store connected exactly when
    the returned result reports success for it, which is when one of
    its attempts succeeded; its flags and handles agree, whatever
    they were before; and both stores are as before. *)
Theorem connect_with_retry_result
    settings menvs nenvs max_retries initial_delay w :
  within_retry_bounds (or_int max_retries (db_max_retries settings))
    (or_float initial_delay (db_retry_delay settings)) ->
  exists mongodb minio w',
    connect_with_retry settings menvs nenvs max_retries initial_delay w
    = (Return (mongodb, minio), w') /\
    _mongodb_connected (db_manager w') = ConnResult.success mongodb /\
    _minio_connected (db_manager w') = ConnResult.success minio /\
    db_manager w'
    = with_minio (ConnResult.success minio)
        (with_mongodb (ConnResult.success mongodb) (db_manager w)) /\
    coherent (db_manager w') /\
    files w' = files w /\ bucket w' = bucket w.
Proof.
  intros (HN0 & _).
  assert (HN : (0 < Z.to_nat (or_int max_retries (db_max_retries settings)))%nat)
    by lia.
  clear HN0.
  pose proof (connect_with_retry_state settings menvs nenvs max_retries
                initial_delay w) as Hstate.
  cbn zeta in Hstate. revert Hstate HN. unfold connect_with_retry.
  set (N := Z.to_nat _). set (d := or_float _ _).
  destruct (retry_loop_spec connect_to_mongodb MongoDB mongodb_connects
              connect_to_mongodb_spec menvs d N 0%nat no_result w)
    as (rm & w1 & Hm & _ & _ & Hs1).
  destruct (retry_loop_spec (connect_to_minio settings) MinIO
              (minio_connects settings) (connect_to_minio_spec settings)
              nenvs d N 0%nat no_result w1)
    as (rn & w2 & Hn & _ & _ & Hs2).
  assert (Hrun : (mongodb <- retry_loop connect_to_mongodb menvs d 0 N no_result ;;
                  minio <- retry_loop (connect_to_minio settings) nenvs d 0 N
                             no_result ;;
                  ret (mongodb, minio)) w = (Return (rm, rn), w2)).
  { unfold bind at 1. rewrite Hm. unfold bind at 1. rewrite Hn. reflexivity. }
  rewrite Hrun. cbn [snd].
  intros (Hf & Hb & Hmgr) HN. exists rm, rn, w2.
  split; [reflexivity |].
  cbn [no_result ConnResult.success orb] in Hs1, Hs2. rewrite Hs1, Hs2.
  destruct N as [|N']; [lia |]. rewrite Hmgr.
  split; [reflexivity |]. split; [reflexivity |]. split; [reflexivity |].
  split; [apply coherent_set_both | by split].
Qed.

Lemma connect_with_retry_result_witness :
  exists mongodb minio w',
    connect_with_retry default_settings (fun _ => failing_env) (fun _ => quiet_env)
      None None initial_world
    = (Return (mongodb, minio), w') /\
    _mongodb_connected (db_manager w') = ConnResult.success mongodb.
Proof.
  destruct (connect_with_retry_result default_settings (fun _ => failing_env)
              (fun _ => quiet_env) None None initial_world)
    as (rm & rn & w' & Hrun & Hm & _).
  - split; [vm_compute; split; discriminate |].
    split; vm_compute; discriminate.
  - exists rm, rn, w'. split; [exact Hrun | exact Hm].
Defined.

(** ** The manager in every reachable state *)

Lemma coherent_init : coherent DatabaseManager_init.
Proof. reflexivity. Qed.

Lemma coherent_if (c : bool) m m' :
  coherent m -> coherent m' -> coherent (if c then m else m').
Proof. by destruct c. Qed.

Lemma serve_manager settings env r w :
  db_manager (serve settings env r w) = db_manager w.
Proof.
  destruct r as [|file|fid|fid name|fid]; cbn [serve].
  - apply (read_only_effect settings env [] w).
  - apply (upload_file_effect settings env file w).
  - apply (read_only_effect settings env fid w).
  - apply (update_file_name_effect env fid name w).
  - apply (delete_file_effect settings env fid w).
Qed.

Lemma perform_coherent settings env a w :
  coherent (db_manager w) -> coherent (db_manager (perform settings env a w)).
Proof.
  intros Hco. destruct a as [| |menvs nenvs mr d| | |r]; cbn [perform].
  - destruct (connect_to_mongodb_state env w) as (_ & _ & _ & ->).
    by apply coherent_with_mongodb.
  - destruct (connect_to_minio_state settings env w) as (_ & _ & _ & ->).
    by apply coherent_with_minio.
  - destruct (connect_with_retry_state settings menvs nenvs mr d w)
      as (_ & _ & ->).
    destruct (Z.to_nat _); [done | apply coherent_set_both].
  - destruct (health_check_state env w) as (h & _ & _ & _ & _ & _ & ->).
    cbn zeta.
    assert (H1 : forall c : bool,
               coherent (if c then with_mongodb false (db_manager w)
                         else db_manager w))
      by (intros []; [by apply coherent_with_mongodb | done]).
    apply coherent_if; [apply coherent_with_minio |]; apply H1.
  - rewrite close_connections_state by done. apply coherent_init.
  - by rewrite serve_manager.
Qed.

Lemma perform_all_coherent settings acts : forall w,
  coherent (db_manager w) -> coherent (db_manager (perform_all settings acts w)).
Proof.
  unfold perform_all.
  induction acts as [|[env a] acts IH]; intros w Hco; cbn [foldl]; [done |].
  apply IH. by apply perform_coherent.
Qed.

Lemma getters_coherent w :
  coherent (db_manager w) ->
  ((mongodb_client w).1 = Return Client <-> is_mongodb_connected (db_manager w) = true) /\
  ((database w).1 = Return Client <-> is_mongodb_connected (db_manager w) = true) /\
  ((files_collection w).1 = Return Client
   <-> is_mongodb_connected (db_manager w) = true) /\
  ((minio_client w).1 = Return Client <-> is_minio_connected (db_manager w) = true).
Proof.
  destruct w as [m fs b t]. cbn [db_manager].
  unfold coherent, with_mongodb, with_minio. intros H.
  destruct m as [c1 c2 c3 c4 [] []]; cbn in H; injection H as -> -> -> ->;
    cbn; repeat split; intros; congruence.
Qed.

(** X23.  From a manager as its constructor leaves it, after any
    sequence of calls of [connect_to_mongodb], [connect_to_minio],
    [connect_with_retry], [health_check], [close_connections] and of
    the file service, the flags and the handles of the manager agree;
    so each property getter returns its handle exactly when the flag
    of its store is set. *)
Theorem manager_flags_decide_getters settings acts w :
  db_manager w = DatabaseManager_init ->
  let w' := perform_all settings acts w in
  coherent (db_manager w') /\
  ((mongodb_client w').1 = Return Client
   <-> is_mongodb_connected (db_manager w') = true) /\
  ((database w').1 = Return Client
   <-> is_mongodb_connected (db_manager w') = true) /\
  ((files_collection w').1 = Return Client
   <-> is_mongodb_connected (db_manager w') = true) /\
  ((minio_client w').1 = Return Client
   <-> is_minio_connected (db_manager w') = true).
Proof.
  intros Hinit. cbn zeta.
  assert (Hco : coherent (db_manager (perform_all settings acts w)))
    by (apply perform_all_coherent; rewrite Hinit; apply coherent_init).
  split; [exact Hco | by apply getters_coherent].
Qed.

Lemma manager_flags_decide_getters_witness :
  coherent
    (db_manager
       (perform_all small_settings
          [(quiet_env, ActConnectMongodb); (failing_env, ActConnectMinio);
           (failing_env, ActHealthCheck);
           (quiet_env, ActRequest (ReqUpload (text_upload two_bytes)))]
          initial_world)).
Proof.
  apply (manager_flags_decide_getters small_settings
           [(quiet_env, ActConnectMongodb); (failing_env, ActConnectMinio);
            (failing_env, ActHealthCheck);
            (quiet_env, ActRequest (ReqUpload (text_upload two_bytes)))]
           initial_world).
  reflexivity.
Defined.

(** ** The validators of the settings *)

Lemma lstrip_app_nonspace (a b : str) (c : ascii) :
  is_space c = false -> lstrip (a ++ c :: b) = lstrip a ++ c :: b.
Proof.
  intros Hc. induction a as [|x a IH].
  - rewrite !app_nil_l. cbn [lstrip]. by rewrite Hc.
  - rewrite <- app_comm_cons. cbn [lstrip].
    destruct (is_space x); [exact IH | by rewrite app_comm_cons].
Qed.

(** [strip] keeps a prefix that begins and ends with characters
    other than white space. *)
Lemma strip_app_prefix (x y : ascii) (p q t : str) :
  x :: p = q ++ [y] -> is_space x = false -> is_space y = false ->
  strip ((x :: p) ++ t) = (x :: p) ++ reverse (lstrip (reverse t)).
Proof.
  intros Hp Hx Hy. unfold strip.
  rewrite <- app_comm_cons, lstrip_nonspace by done.
  rewrite app_comm_cons, Hp, reverse_app, reverse_app, reverse_singleton.
  change ([y] ++ reverse q) with (y :: reverse q).
  rewrite lstrip_app_nonspace by done.
  rewrite reverse_app, reverse_cons, reverse_involutive. done.
Qed.

(** What [strip] removes at the end is white space. *)
Lemma rstrip_split (t : str) :
  exists t', t = reverse (lstrip (reverse t)) ++ t' /\
             Forall (fun c => is_space c = true) t'.
Proof.
  induction t as [|c t IH] using rev_ind.
  - exists []. split; [reflexivity | constructor].
  - rewrite reverse_app, reverse_singleton.
    change ([c] ++ reverse t) with (c :: reverse t). cbn [lstrip].
    destruct (is_space c) eqn:Hc.
    + destruct IH as (t' & Ht' & Hall). exists (t' ++ [c]). split.
      * rewrite app_assoc. by rewrite <- Ht'.
      * apply Forall_app. split; [done | by constructor].
    + exists []. split; [| constructor].
      by rewrite reverse_cons, reverse_involutive, app_nil_r.
Qed.

Lemma strip_truthy_first (v : str) :
  truthy (strip v) = true -> exists x r, is_space x = false /\ strip v = x :: r.
Proof.
  destruct (strip_cases v) as [-> | (x & r & Hx & ->)]; [done |].
  intros _. by eexists _, _.
Qed.

Lemma required_check (v : str) :
  negb (truthy v) || negb (truthy (strip v)) = false ->
  strip v <> [] /\ stripped (strip v).
Proof.
  intros [_ H]%orb_false_elim. apply negb_false_iff in H.
  split; [by destruct (strip v) | apply strip_idem].
Qed.

(** X24.  [validate_mongodb_url] accepts exactly the values that
    begin with one of the two schemes, white space before the scheme
    included in what it rejects; what it returns is the value without
    the white space at its end, and still begins with the scheme. *)
Theorem validate_mongodb_url_accepts (v : str) :
  ((exists r, SettingsValidators.validate_mongodb_url v = Valid r)
   <-> has_mongodb_scheme v = true) /\
  (forall r, SettingsValidators.validate_mongodb_url v = Valid r ->
     r = strip v /\ has_mongodb_scheme r = true /\ stripped r /\
     exists t, v = r ++ t /\ Forall (fun c => is_space c = true) t).
Proof.
  unfold has_mongodb_scheme.
  assert (Hkeep : forall p : str,
            p = ("mongodb://"%string : str) \/ p = ("mongodb+srv://"%string : str) ->
            startswith v p = true ->
            startswith (strip v) p = true /\
            exists t, v = strip v ++ t /\ Forall (fun c => is_space c = true) t).
  { intros p Hp [t ->]%is_prefix_spec.
    assert (Hs : strip (p ++ t) = p ++ reverse (lstrip (reverse t))).
    { destruct Hp as [-> | ->].
      - apply (strip_app_prefix _ "/"%char _ ("mongodb:/"%string : str));
          reflexivity.
      - apply (strip_app_prefix _ "/"%char _ ("mongodb+srv:/"%string : str));
          reflexivity. }
    rewrite Hs. split; [apply is_prefix_spec; by eexists |].
    destruct (rstrip_split t) as (t' & Ht' & Hall). exists t'.
    split; [| exact Hall]. rewrite <- app_assoc. by rewrite <- Ht'. }
  unfold SettingsValidators.validate_mongodb_url.
  destruct (startswith v ("mongodb://"%string : str)) eqn:H1;
    [| destruct (startswith v ("mongodb+srv://"%string : str)) eqn:H2].
  - destruct (Hkeep _ (or_introl eq_refl) H1) as (Hp & t & Ht & Hall).
    assert (Hreq : negb (truthy v) || negb (truthy (strip v)) = false).
    { apply is_prefix_spec in Hp as [r ->]. apply is_prefix_spec in H1 as [r' ->].
      reflexivity. }
    rewrite Hreq. cbn [orb negb].
    split; [split; [done | intros _; by eexists] |].
    intros r [= <-]. split; [done |]. rewrite Hp. cbn [orb].
    split; [done |]. split; [apply strip_idem | by exists t].
  - destruct (Hkeep _ (or_intror eq_refl) H2) as (Hp & t & Ht & Hall).
    assert (Hreq : negb (truthy v) || negb (truthy (strip v)) = false).
    { apply is_prefix_spec in Hp as [r ->]. apply is_prefix_spec in H2 as [r' ->].
      reflexivity. }
    rewrite Hreq. cbn [orb negb].
    split; [split; [done | intros _; by eexists] |].
    intros r [= <-]. split; [done |]. rewrite Hp, orb_true_r.
    split; [done |]. split; [apply strip_idem | by exists t].
  - cbn [orb negb]. destruct (negb (truthy v) || negb (truthy (strip v)));
      (split; [split; [intros [r Hr]; discriminate Hr | done]
              | intros r Hr; discriminate Hr]).
Qed.

Lemma existsb_elem_false (v : str) (chars : list ascii) :
  existsb (fun char => bool_decide (char ∈ v)) chars = false ->
  forall c, c ∈ chars -> c ∉ v.
Proof.
  intros H c Hc Hv.
  assert (existsb (fun char => bool_decide (char ∈ v)) chars = true); [| congruence].
  apply existsb_exists. exists c. split; [by apply list_elem_of_In |].
  by apply bool_decide_eq_true.
Qed.

(** X25.  A database name that [validate_mongodb_database] accepts
    holds none of the invalid characters, so no space; what is
    returned is the name without the other white space at its ends,
    is not empty and holds none of the invalid characters either. *)
Theorem validate_mongodb_database_result (v r : str) :
  SettingsValidators.validate_mongodb_database v = Valid r ->
  r = strip v /\ r <> [] /\ stripped r /\
  forall c, c ∈ ValidationConstants.INVALID_DB_CHARS -> (c ∉ v) /\ (c ∉ r).
Proof.
  unfold SettingsValidators.validate_mongodb_database.
  destruct (negb (truthy v) || negb (truthy (strip v))) eqn:Hreq; [done |].
  destruct (existsb _ _) eqn:Hex; [done |].
  intros [= <-]. destruct (required_check v Hreq) as [Hne Hst].
  split; [done |]. split; [done |]. split; [done |].
  intros c Hc. pose proof (existsb_elem_false v _ Hex c Hc) as Hv.
  split; [done |]. intros Hr. apply Hv. by apply strip_elem.
Qed.

Lemma validate_mongodb_database_result_witness :
  ("files"%string : str) = strip ("009"%char :: ("files"%string : str)).
Proof.
  apply (validate_mongodb_database_result
           ("009"%char :: ("files"%string : str)) ("files"%string : str)).
  vm_compute. reflexivity.
Defined.

Lemma getitem_first (s : str) : getitem s 0 = head s.
Proof.
  unfold getitem, len. destruct s as [|x s]; [reflexivity |].
  change (0 <? 0) with false. cbn [List.length head].
  change (0 <=? 0) with true.
  destruct (Z.ltb_spec 0 (Z.of_nat (S (List.length s)))); [reflexivity | lia].
Qed.

Lemma getitem_last (s : str) : getitem s (-1) = last s.
Proof.
  unfold getitem, len. change (-1 <? 0) with true. cbv iota.
  rewrite last_lookup. destruct s as [|x s]; [reflexivity |].
  cbn [List.length].
  destruct (Z.leb_spec 0 (Z.of_nat (S (List.length s)) + -1)); [| lia].
  destruct (Z.ltb_spec (Z.of_nat (S (List.length s)) + -1)
              (Z.of_nat (S (List.length s)))); [| lia].
  cbn [andb]. f_equal. lia.
Qed.

Lemma isalnum_not_space (c : ascii) : isalnum c = true -> is_space c = false.
Proof.
  destruct c as [[] [] [] [] [] [] [] []]; vm_compute; congruence.
Qed.

(** [strip] returns a string as it is when its first and its last
    character are not white space. *)
Lemma strip_unchanged (s : str) (x y : ascii) :
  head s = Some x -> last s = Some y ->
  is_space x = false -> is_space y = false -> strip s = s.
Proof.
  intros Hx [q Hq]%last_Some Hsx Hsy.
  destruct s as [|x' p]; [discriminate Hx |]. injection Hx as ->.
  pose proof (strip_app_prefix x y p q [] Hq Hsx Hsy) as H.
  rewrite !app_nil_r in H. exact H.
Qed.

(** X26.  [validate_minio_bucket] never raises [IndexError].  It
    accepts exactly the names of 3 to 63 characters whose first and
    last character are alphanumeric, whatever the characters between
    them, and returns an accepted name as it is. *)
Theorem validate_minio_bucket_accepts (v : str) :
  SettingsValidators.validate_minio_bucket v <> IndexError /\
  forall r,
    SettingsValidators.validate_minio_bucket v = Valid r
    <-> r = v /\
        ValidationConstants.MIN_BUCKET_NAME_LENGTH <= len v
          <= ValidationConstants.MAX_BUCKET_NAME_LENGTH /\
        (exists first, head v = Some first /\ isalnum first = true) /\
        (exists final, last v = Some final /\ isalnum final = true).
Proof.
  unfold SettingsValidators.validate_minio_bucket.
  rewrite getitem_first, getitem_last.
  destruct (head v) as [x|] eqn:Hhead.
  2:{ destruct v; [| discriminate Hhead].
      split; [done |]. intros r. split; [done |].
      intros (_ & _ & (first & Hf & _) & _). discriminate Hf. }
  destruct (last v) as [y|] eqn:Hlast.
  2:{ apply last_None in Hlast. subst v. discriminate Hhead. }
  destruct (Z.ltb_spec (len v) ValidationConstants.MIN_BUCKET_NAME_LENGTH) as [Hlo|Hlo];
    [| destruct (Z.ltb_spec ValidationConstants.MAX_BUCKET_NAME_LENGTH (len v))
         as [Hhi|Hhi]];
    cbn [orb].
  - destruct (_ || _); (split; [done |]); intros r;
      (split; [done | intros (_ & Hlen & _); lia]).
  - destruct (_ || _); (split; [done |]); intros r;
      (split; [done | intros (_ & Hlen & _); lia]).
  - destruct (isalnum x) eqn:Hx; [destruct (isalnum y) eqn:Hy |].
    + assert (Hs : strip v = v)
        by (apply (strip_unchanged v x y); auto using isalnum_not_space).
      rewrite Hs.
      assert (Hreq : negb (truthy v) || negb (truthy v) = false)
        by (destruct v; [discriminate Hhead | reflexivity]).
      rewrite Hreq. split; [done |]. intros r. split.
      * intros [= <-]. repeat split; [lia | lia | by exists x | by exists y].
      * by intros (-> & _).
    + destruct (_ || _); (split; [done |]); intros r;
        (split; [done | intros (_ & _ & _ & (final & [= <-] & Hf)); congruence]).
    + destruct (_ || _); (split; [done |]); intros r;
        (split; [done | intros (_ & _ & (first & [= <-] & Hf) & _); congruence]).
Qed.

Example validate_minio_bucket_inner_characters :
  SettingsValidators.validate_minio_bucket ("a/ b"%string : str)
  = Valid ("a/ b"%string : str).
Proof. reflexivity. Qed.

(** X27.  Whatever one of the six validators of string settings
    accepts, it returns the value without the white space at its
    ends, and that is not empty. *)
Theorem string_validators_strip validate (v r : str) :
  validate ∈ string_validators -> validate v = Valid r ->
  r = strip v /\ r <> [] /\ stripped r.
Proof.
  unfold string_validators. rewrite !elem_of_cons, elem_of_nil.
  pose proof (required_check v) as Hok.
  intros [-> | [-> | [-> | [-> | [-> | [-> | []]]]]]].
  - unfold SettingsValidators.validate_mongodb_url.
    destruct (negb (truthy v) || negb (truthy (strip v))) eqn:Hreq; [done |].
    destruct (negb (startswith _ _ || _)); [done |].
    intros [= <-]. by destruct Hok.
  - unfold SettingsValidators.validate_mongodb_database.
    destruct (negb (truthy v) || negb (truthy (strip v))) eqn:Hreq; [done |].
    destruct (existsb _ _); [done |].
    intros [= <-]. by destruct Hok.
  - unfold SettingsValidators.validate_origins.
    destruct (negb (truthy v) || negb (truthy (strip v))) eqn:Hreq; [done |].
    intros [= <-]. by destruct Hok.
  - unfold SettingsValidators.validate_minio_endpoint.
    destruct (negb (truthy v) || negb (truthy (strip v))) eqn:Hreq; [done |].
    intros [= <-]. by destruct Hok.
  - unfold SettingsValidators.validate_minio_access_key.
    destruct (negb (truthy v) || negb (truthy (strip v))) eqn:Hreq; [done |].
    destruct (_ <? _); [done |].
    intros [= <-]. by destruct Hok.
  - unfold SettingsValidators.validate_minio_bucket.
    destruct (negb (truthy v) || negb (truthy (strip v))) eqn:Hreq; [done |].
    destruct ((len v <? _) || _); [done |].
    destruct (getitem v 0) as [x|]; [| done]. destruct (isalnum x); [| done].
    destruct (getitem v (-1)) as [y|]; [| done]. destruct (isalnum y); [| done].
    intros [= <-]. by destruct Hok.
Qed.

Lemma string_validators_strip_witness :
  ("http://localhost:3000"%string : str)
  = strip (" http://localhost:3000 "%string : str).
Proof.
  apply (string_validators_strip SettingsValidators.validate_origins
           (" http://localhost:3000 "%string : str)
           ("http://localhost:3000"%string : str)).
  - unfold string_validators. rewrite !elem_of_cons. right. right. left.
    reflexivity.
  - vm_compute. reflexivity.
Defined.
